(** * centralcontrol: command dispatch and measurement sequencing

    A shallow embedding of [src/centralcontrol/mqtt_server.py] (the job
    supervisor [start_process]/[stop_process]/[msg_handler] and the I-V-t
    sequencer [_run]/[_ivt]) and of the command path of
    [src/centralcontrol/utility_handler.py] ([filter_cmd], [manager],
    [worker]), followed by the properties proved about them.  The later
    modules add what the code around these shows: the subscription of
    [main], the pixel queue of [_build_q], the data handler, the spectrum
    calibration, the loops of [_ivt], the readiness queue between the two
    processes, and the manager and the worker as two threads.

    Conventions.
    - Pickled payloads are modelled by the Python value they encode
      ([pickle.dumps] is injective); a payload that does not unpickle is
      [Corrupt].  The values are the built-in ones of [Py.PyVal]; payloads
      that unpickle to an instance of another iterable class (a numpy
      array, a data frame) are not covered.
    - The message bus is reliable: publishing never raises.
    - Calls on the local [logger] write to the process's own stream and are
      not part of the model. *)

From Stdlib Require Import ZArith String Ascii Bool List Lia Sorted.
From stdpp Require Import base option list gmap pretty.
Import ListNotations.

Set Warnings "-register-all,-clear-no-such-hyp".

Local Open Scope string_scope.
Local Open Scope Z_scope.

(** ** Python values *)
Module Py.

(** The picklable values the handlers inspect: the built-in scalars and
    containers.  A set is the list of its members.  [PyOther] stands for
    an object of another class that is only handed on, identified by a
    token: it is not an instance of [collections.abc.Iterable], has no
    [__getitem__] and equals no string, boolean or integer (a time stamp
    with a fractional part, a plain object). *)
Inductive PyVal : Type :=
| PyNone
| PyBool (b : bool)
| PyInt (z : Z)
| PyStr (s : string)
| PyBytes (b : list Byte.byte)
| PyList (l : list PyVal)
| PyTuple (l : list PyVal)
| PySet (l : list PyVal)
| PyDict (d : list (string * PyVal))
| PyOther (token : nat).

Inductive ExcClass : Type :=
| KeyError | TypeError | ValueError | IndexError | UnpicklingError
| QueueEmpty | InstrumentError.

(** [KeyboardInterrupt] is not a subclass of [Exception]: a clause
    [except Exception] lets it through, a bare [except:] catches both.
    The string is [str(e)]. *)
Inductive Exc : Type :=
| KeyboardInterrupt
| Exception (cls : ExcClass) (text : string).

(** [d[k]] on an insertion-ordered dict. *)
Fixpoint dict_get (d : list (string * PyVal)) (k : string) : option PyVal :=
  match d with
  | [] => None
  | (k', v) :: d' => if String.eqb k' k then Some v else dict_get d' k
  end.

(** [v[k]] for a string key [k]. *)
Definition getitem (v : PyVal) (k : string) : Exc + PyVal :=
  match v with
  | PyDict d =>
      match dict_get d k with
      | Some x => inr x
      | None => inl (Exception KeyError ("'" ++ k ++ "'"))
      end
  | _ => inl (Exception TypeError "indices must be integers or object is not subscriptable")
  end.

(** [v is True], [v is False]: identity with the singletons. *)
Definition is_True (v : PyVal) : bool :=
  match v with PyBool true => true | _ => false end.
Definition is_False (v : PyVal) : bool :=
  match v with PyBool false => true | _ => false end.

(** [v == s] for a string literal [s]. *)
Definition eq_str (v : PyVal) (s : string) : bool :=
  match v with PyStr t => String.eqb t s | _ => false end.

(** [v == True]: [True] equals the integer one. *)
Definition eq_True (v : PyVal) : bool :=
  match v with PyBool true => true | PyInt 1 => true | _ => false end.

(** [isinstance(v, collections.abc.Iterable)]: every class with an
    [__iter__], so strings, bytes and all four containers. *)
Definition is_iterable (v : PyVal) : bool :=
  match v with
  | PyStr _ | PyBytes _ | PyList _ | PyTuple _ | PySet _ | PyDict _ => true
  | PyNone | PyBool _ | PyInt _ | PyOther _ => false
  end.

(** [p in s] on strings: [p] occurs as a substring of [s]. *)
Fixpoint is_substring (p s : string) : bool :=
  String.prefix p s ||
  match s with
  | EmptyString => false
  | String _ s' => is_substring p s'
  end.

(** [k in v] for a string [k]: key of a dict, member of a list, tuple or
    set (some member [== k]), substring of a string.  Bytes take only
    bytes-like objects or integers on the left and raise for a string, and
    so does a value that is no container. *)
Definition contains_str (v : PyVal) (k : string) : Exc + bool :=
  match v with
  | PyDict d => inr (match dict_get d k with Some _ => true | None => false end)
  | PyList l | PyTuple l | PySet l => inr (existsb (fun x => eq_str x k) l)
  | PyStr s => inr (is_substring k s)
  | PyBytes _ =>
      inl (Exception TypeError "a bytes-like object is required, not 'str'")
  | PyNone | PyBool _ | PyInt _ | PyOther _ =>
      inl (Exception TypeError "argument is not iterable")
  end.

(** [s.split(sep)] for a one-character separator: never the empty list. *)
Fixpoint split (sep : ascii) (s : string) : list string :=
  match s with
  | EmptyString => [EmptyString]
  | String c s' =>
      if Ascii.eqb c sep then EmptyString :: split sep s'
      else match split sep s' with
           | hd :: tl => String c hd :: tl
           | [] => [String c EmptyString]
           end
  end.

(** The payload of a bus message as received. *)
Inductive Wire : Type :=
| Pickle (v : PyVal)
| Corrupt.

(** [pickle.loads]. *)
Definition loads (w : Wire) : Exc + PyVal :=
  match w with
  | Pickle v => inr v
  | Corrupt => inl (Exception UnpicklingError "invalid load key")
  end.

(** The dict [{"level": level, "msg": msg}] of a log event. *)
Definition log_payload (level : Z) (msg : string) : PyVal :=
  PyDict [("level", PyInt level); ("msg", PyStr msg)].

End Py.
Import Py.

(** Log levels of Python's [logging]. *)
Definition DEBUG : Z := 10.
Definition INFO : Z := 20.
Definition WARNING : Z := 30.
Definition ERROR : Z := 40.

(** An incoming MQTT message. *)
Record MqttMessage : Type := { topic : string; payload : Wire }.

(** What [MQTTQueuePublisher.append_payload(topic, payload, retain=False)]
    queues for the bus. *)
Record Publication : Type :=
  { pub_topic : string; pub_payload : PyVal; pub_retain : bool }.

(** Modelled from the spec: [_log(msg, level, mqttc)] is imported from the
    [fabric] module, which is not under src/.  Section 6 of the spec gives
    the log channel: topic [measurement/log] carrying [{level, msg}]; it is
    not retained. *)
Definition _log (msg : string) (level : Z) : Publication :=
  {| pub_topic := "measurement/log";
     pub_payload := log_payload level msg;
     pub_retain := false |}.

(** ** mqtt_server.py: the job supervisor (parent process) *)
Module Supervisor.

(** A [multiprocessing.Process] object: the dummy created by [main], which
    was never started, or a started child known by its pid. *)
Inductive Process : Type :=
| Unstarted
| Started (pid : nat).

Inductive Signal : Type := SIGINT.

(** What the supervisor does to the outside, in order. *)
Inductive Action : Type :=
| Spawn (pid : nat) (request : PyVal) (mqtthost : string)
    (* multiprocessing.Process(target=_run, args=...).start() *)
| Kill (pid : nat) (sig : Signal)                  (* os.kill *)
| Join (pid : nat)                                 (* process.join() *)
| PublishSingle (hostname tpc : string) (pl : PyVal) (qos : Z) (retain : bool)
    (* paho.mqtt.publish.single; retain defaults to False *)
| AppendPayload (hostname : string) (p : Publication)
    (* append_payload on an MQTTQueuePublisher connected to hostname *)
| DaqInitPut (request : PyVal).                    (* daq_init_queue.put_nowait *)

(** The operating system and bus as the supervisor sees them. *)
Record World : Type := {
  alive : gset nat;          (* pids of the children that are running *)
  next_pid : nat;            (* the pid the next child gets *)
  actions : list Action;     (* what was done so far, oldest first *)
}.

Definition is_alive (w : World) (p : Process) : bool :=
  match p with
  | Unstarted => false
  | Started pid => bool_decide (pid ∈ alive w)
  end.

Definition act (a : list Action) (w : World) : World :=
  {| alive := alive w; next_pid := next_pid w; actions := actions w ++ a |}.

(** A running child exits on its own (the environment's move). *)
Definition child_exit (pid : nat) (w : World) : World :=
  {| alive := alive w ∖ {[pid]}; next_pid := next_pid w; actions := actions w |}.

Section WithHost.
Variable mqtthost : string.    (* cli_args.mqtthost *)

(** [start_process(cli_args, process, _run, (request, mqtthost, daq_init_queue))] *)
Definition start_process (w : World) (process : Process) (request : PyVal)
  : Process * World :=
  if negb (is_alive w process) then
    let pid := next_pid w in
    let w1 := {| alive := alive w ∪ {[pid]};
                 next_pid := S pid;
                 actions := actions w ++ [Spawn pid request mqtthost] |} in
    (Started pid,
     act [PublishSingle mqtthost "measurement/status" (PyStr "Busy") 2 true] w1)
  else
    (process,
     act [PublishSingle mqtthost "measurement/log"
            (log_payload 30 "Measurement server busy!") 2 false] w).

(** [stop_process(cli_args, process)].  [process.join()] returns once the
    child has exited, so the child is no longer running afterwards. *)
Definition stop_process (w : World) (process : Process) : Process * World :=
  if is_alive w process then
    match process with
    | Started pid =>
        let w1 := act [Kill pid SIGINT] w in
        let w2 := act [Join pid] (child_exit pid w1) in
        (process,
         act [PublishSingle mqtthost "measurement/log"
                (log_payload 20 "Request to stop completed!") 2 false;
              PublishSingle mqtthost "measurement/status" (PyStr "Ready") 2 true;
              PublishSingle mqtthost "plotter/live_devices" (PyList []) 2 false] w2)
    | Unstarted => (process, w)   (* not reached: the dummy is never alive *)
    end
  else
    (process,
     act [PublishSingle mqtthost "measurement/log"
            (log_payload 30 "Nothing to stop. Measurement server is idle.")
            2 false] w).

(** The body of the [try] in [msg_handler] for one message. *)
Definition dispatch (msg : MqttMessage) (w : World) (process : Process)
  : Exc + (Process * World) :=
  match loads (payload msg) with
  | inl e => inl e
  | inr request =>
      let topic_parts := split "/" (topic msg) in
      let channel := hd EmptyString topic_parts in
      let action := List.last topic_parts EmptyString in
      if String.eqb channel "measurement" then
        if String.eqb action "run" then
          (* the right operand of [and] is evaluated, [or] short-circuits *)
          match getitem request "args" with
          | inl e => inl e
          | inr args =>
              match getitem args "enable_eqe" with
              | inl e => inl e
              | inr eqe =>
                  if is_True eqe then inr (start_process w process request)
                  else
                    match getitem request "args" with
                    | inl e => inl e
                    | inr args' =>
                        match getitem args' "enable_iv" with
                        | inl e => inl e
                        | inr iv =>
                            if is_True iv
                            then inr (start_process w process request)
                            else inr (process, w)
                        end
                    end
              end
          end
        else if String.eqb action "stop" then inr (stop_process w process)
        else inr (process, w)
      else if String.eqb channel "daq" then
        if String.eqb action "init"
        then inr (process, act [DaqInitPut request] w)
        else inr (process, w)
      else inr (process, w)
  end.

(** One turn of the [while True] loop of [msg_handler]: the bare
    [except:] reports the message and the loop goes on. *)
Definition msg_handler_step (st : Process * World) (msg : MqttMessage)
  : Process * World :=
  let '(process, w) := st in
  match dispatch msg w process with
  | inr st' => st'
  | inl _ =>
      (process,
       act [AppendPayload mqtthost
              (_log ("Invalid message payload on topic: " ++ topic msg ++ "!") 40)]
           w)
  end.

(** [msg_handler] over the messages taken from [msg_queue], in order. *)
Definition msg_handler (msgs : list MqttMessage) (st : Process * World)
  : Process * World :=
  fold_left msg_handler_step msgs st.

End WithHost.

(** The state [main] hands to [msg_handler]: a dummy process, nothing
    running.  ([main] publishes the first retained "Ready" itself.) *)
Definition initial : Process * World :=
  (Unstarted, {| alive := ∅; next_pid := 1; actions := [] |}).

(** The supervisor's moves: it handles one message, or a child exits. *)
Inductive step (mqtthost : string) : Process * World -> Process * World -> Prop :=
| step_msg st msg : step mqtthost st (msg_handler_step mqtthost st msg)
| step_exit process w pid : step mqtthost (process, w) (process, child_exit pid w).

(** Only the child the handle denotes can be running. *)
Definition handle_owns_alive (st : Process * World) : Prop :=
  forall pid, pid ∈ alive (snd st) -> fst st = Started pid.

End Supervisor.

(** ** utility_handler.py: the command path of [UtilityHandler] *)
Module UtilityHandler.

(** The text of a log message: an f-string is the list of its literal
    pieces and of the values it interpolates. *)
Inductive Part : Type :=
| Lit (s : string)
| Fmt (v : PyVal).

(** An entry of [outputq]: [log_msg] posts [{'log': {'level', 'text'}}] to
    [status]; task results go to other destinations. *)
Inductive Output : Type :=
| LogOutput (level : Z) (text : list Part)
| DataOutput (destination : string) (pl : PyVal).

(** What the manager and the worker do to the instruments. *)
Inductive Effect : Type :=
| EStop (pcb_virt : bool) (pcb : PyVal)   (* with tpcb(pcb, timeout=10) as p: p.query('b') *)
| RunTask (cmd : string) (task : PyVal).  (* the branch of the worker for cmd *)

Record State : Type := {
  taskq : list PyVal;          (* tasks waiting for the worker, oldest first *)
  unfinished_tasks : nat;      (* taskq.unfinished_tasks: put minus task_done *)
  outputq : list Output;       (* outgoing messages, oldest first *)
  effects : list Effect;       (* instrument I/O so far, oldest first *)
}.

Definition initial : State :=
  {| taskq := []; unfinished_tasks := 0; outputq := []; effects := [] |}.

(** [log_msg(msg, lvl)] *)
Definition log_msg (text : list Part) (lvl : Z) (s : State) : State :=
  {| taskq := taskq s; unfinished_tasks := unfinished_tasks s;
     outputq := outputq s ++ [LogOutput lvl text]; effects := effects s |}.

(** [taskq.put_nowait(task)] *)
Definition put_task (task : PyVal) (s : State) : State :=
  {| taskq := taskq s ++ [task]; unfinished_tasks := S (unfinished_tasks s);
     outputq := outputq s; effects := effects s |}.

(** [taskq.task_done()] *)
Definition task_done (s : State) : State :=
  {| taskq := taskq s; unfinished_tasks := Nat.pred (unfinished_tasks s);
     outputq := outputq s; effects := effects s |}.

Definition add_effect (e : Effect) (s : State) : State :=
  {| taskq := taskq s; unfinished_tasks := unfinished_tasks s;
     outputq := outputq s; effects := effects s ++ [e] |}.

(** [filter_cmd(mqtt_msg)].  Only [pickle.loads] is inside the [try]: an
    exception of the test ['cmd' in msg] leaves the function. *)
Definition filter_cmd (mqtt_msg : MqttMessage) : Exc + PyVal :=
  let result := PyDict [("cmd", PyStr "")] in
  let msg := match loads (payload mqtt_msg) with
             | inr v => v
             | inl _ => PyNone
             end in
  if is_iterable msg then
    match contains_str msg "cmd" with
    | inl e => inl e
    | inr true => inr msg
    | inr false => inr result
    end
  else inr result.



(** The commands the worker has a branch for: those of the [if]/[elif]
    chain inside its [try], and [check_health], a separate [if] after it. *)
Definition try_commands : list string :=
  ["home"; "goto"; "for_pcb"; "read_stage"; "mono_zero"; "spec"; "round_robin"].
Definition worker_commands : list string := try_commands ++ ["check_health"].

(** The commands some branch of the manager or of the worker names. *)
Definition recognized (cmd : PyVal) : bool :=
  eq_str cmd "estop" || existsb (fun c => eq_str cmd c) worker_commands.

Section WithInstruments.
(** Does the emergency stop on the controller board raise. *)
Variable estop_outcome : bool -> PyVal -> option Exc.
(** The instrument I/O of the worker's branch for a command: the state
    it leaves (log events, results posted) or the exception it raises
    together with what it had posted before. *)
Variable task_outcome : string -> PyVal -> State -> option Exc * State.

(** One turn of the [while True] loop of [manager] on the message taken
    from [cmdq]; [inl e]: the exception [e] leaves the loop.  The turn is
    taken as one step: [taskq.unfinished_tasks] has the same value at each
    of its reads (lines 119, 122, 123), that is, the worker does not call
    [task_done] in between. *)
Definition manager (mqtt_msg : MqttMessage) (s : State) : Exc + State :=
  match filter_cmd mqtt_msg with
  | inl e => inl e
  | inr cmd_msg =>
  let s := log_msg [Lit "New command message!"] DEBUG s in
  match getitem cmd_msg "cmd" with
  | inl e => inl e
  | inr cmd =>
      if eq_str cmd "estop" then
        match getitem cmd_msg "pcb_virt" with
        | inl e => inl e
        | inr virt =>
            (* try: *)
            match getitem cmd_msg "pcb" with
            | inl _ => inr (log_msg [Lit "Unable to emergency stop."] WARNING s)
            | inr pcb =>
                let s := add_effect (EStop (eq_True virt) pcb) s in
                match estop_outcome (eq_True virt) pcb with
                | None =>
                    inr (log_msg
                           [Lit "Emergency stop command issued. Re-Homing required before any further movements."]
                           INFO s)
                | Some KeyboardInterrupt => inl KeyboardInterrupt
                | Some (Exception _ _) =>
                    inr (log_msg [Lit "Unable to emergency stop."] WARNING s)
                end
            end
        end
      else if Nat.eqb (unfinished_tasks s) 0 then
        inr (put_task cmd_msg s)
      else if Nat.ltb 0 (unfinished_tasks s) then
        inr (log_msg [Lit "Backend busy (task queue size = ";
                      Fmt (PyInt (Z.of_nat (unfinished_tasks s)));
                      Lit "). Command rejected."] WARNING s)
      else
        inr (log_msg [Lit "Command message rejected:: "; Fmt cmd_msg] DEBUG s)
  end
  end.

(** The [if]/[elif] chain of the worker inside its [try]: the branch
    taken, if any. *)
Definition try_branch (cmd : PyVal) : option string :=
  List.find (fun c => eq_str cmd c) try_commands.

(** One turn of the [while True] loop of [worker]; [None]: the queue is
    empty and [taskq.get()] blocks. *)
Definition worker (s : State) : option (Exc + State) :=
  match taskq s with
  | [] => None
  | task :: rest =>
      let s := {| taskq := rest; unfinished_tasks := unfinished_tasks s;
                  outputq := outputq s; effects := effects s |} in
      Some
        match getitem task "cmd" with
        | inl e => inl e
        | inr cmd =>
            let s := log_msg [Lit "New task: "; Fmt cmd; Lit " (queue size = ";
                              Fmt (PyInt (Z.of_nat (unfinished_tasks s))); Lit ")"]
                       DEBUG s in
            (* try: the branch for the command *)
            let r :=
              match try_branch cmd with
              | Some c =>
                  match task_outcome c task (add_effect (RunTask c task) s) with
                  | (None, s') => inr s'
                  | (Some KeyboardInterrupt, _) => inl KeyboardInterrupt
                  | (Some (Exception _ text), s') =>
                      inr (log_msg [Lit text] WARNING s')
                  end
              | None => inr s
              end in
            match r with
            | inl e => inl e
            | inr s =>
                if eq_str cmd "check_health" then
                  match task_outcome "check_health" task
                          (add_effect (RunTask "check_health" task) s) with
                  | (None, s') => inr (task_done s')
                  | (Some e, _) => inl e
                  end
                else inr (task_done s)
            end
        end
  end.

End WithInstruments.

End UtilityHandler.

(** ** mqtt_server.py: the measurement job (child process)

    The instrument drivers behind [fabric()] are the environment: every call
    on the measurement object is recorded when it is made and then returns
    or raises as the environment says.  A [KeyboardInterrupt] (the SIGINT
    sent by [stop_process]) is one of the exceptions such a call may raise.
    The pixel queue is one dict shared with the drivers: a call that is
    handed it ([pixels=pixels]) may prune it in place, whether it returns
    or raises.  Numbers the job only compares or adds (dwell times, areas,
    positions) are integers here; assignments to attributes of the
    measurement object only configure the drivers and leave no event.  The
    [while] loop of [_ivt] runs on fuel: [OutOfFuel] is a loop that was
    still running when the fuel ended, as with [cycles = 0]. *)
Module Job.

(** One row of the layout table ([stuff.to_dict(orient="records")]). *)
Record Things : Type := {
  t_label : string; t_device_label : string; t_layout : string;
  t_system_label : string; t_mux_index : Z; t_sort_string : string;
  t_loc : list Z; t_area : Z; t_mux_string : string;
}.

(** The [pixel_dict] built by [_build_q], keys in insertion order. *)
Record Pixel : Type := {
  label : string; device_label : string; layout : string;
  sub_name : string; pixel : Z; sort_string : string;
  pos : list Z; area : Z; mux_string : string;
}.

Definition pixel_to_py (p : Pixel) : PyVal :=
  PyDict [("label", PyStr (label p)); ("device_label", PyStr (device_label p));
          ("layout", PyStr (layout p)); ("sub_name", PyStr (sub_name p));
          ("pixel", PyInt (pixel p)); ("sort_string", PyStr (sort_string p));
          ("pos", PyList (map PyInt (pos p))); ("area", PyInt (area p));
          ("mux_string", PyStr (mux_string p))].

Record Config : Type := {
  channel_mapping : list string;                 (* config["smu"][0]["channel_mapping"] *)
  experiment_positions : list (string * list Z); (* config["stage"]["experiment_positions"] *)
}.

(** The fields of [request["args"]] that steer the job.  [None] for a
    table means the key is absent; the flags are booleans, so [x is True]
    is [x]. *)
Record Args : Type := {
  IV_stuff : option (list Things);
  EQE_stuff : option (list Things);
  enable_solarsim : bool;
  a_ovr_spin : Z;
  cycles : Z;
  i_dwell : Z; i_dwell_value : Z;
  sweep_check : bool; lit_sweep : Z; return_switch : bool;
  mppt_dwell : Z;
  v_dwell : Z;
}.

Record Request : Type := { config : Config; args : Args }.

(** *** Insertion-ordered dicts keyed by channel number *)

Fixpoint dict_lookup {V} (d : list (Z * V)) (k : Z) : option V :=
  match d with
  | [] => None
  | (k', v) :: d' => if Z.eqb k' k then Some v else dict_lookup d' k
  end.

(** [d[k] = v]: a present key keeps its place. *)
Fixpoint dict_set {V} (d : list (Z * V)) (k : Z) (v : V) : list (Z * V) :=
  match d with
  | [] => [(k, v)]
  | (k', v') :: d' =>
      if Z.eqb k' k then (k, v) :: d' else (k', v') :: dict_set d' k v
  end.

Fixpoint insert_by_key {V} (x : Z * V) (l : list (Z * V)) : list (Z * V) :=
  match l with
  | [] => [x]
  | y :: l' => if Z.leb (fst x) (fst y) then x :: l else y :: insert_by_key x l'
  end.

(** [sorted(d.items())]: the keys of a dict are distinct, so the order is
    that of the keys. *)
Definition sorted_items {V} (d : list (Z * V)) : list (Z * V) :=
  fold_right insert_by_key [] d.

(** *** [_build_q] *)

Definition ascii_lower (c : ascii) : ascii :=
  let n := nat_of_ascii c in
  if (Nat.leb 65 n && Nat.leb n 90)%bool then ascii_of_nat (n + 32) else c.

(** [s.lower()] on ASCII text. *)
Fixpoint lower (s : string) : string :=
  match s with
  | EmptyString => EmptyString
  | String c s' => String (ascii_lower c) (lower s')
  end.

(** [l.index(x)] *)
Fixpoint index_of (x : string) (l : list string) : option nat :=
  match l with
  | [] => None
  | y :: l' => if String.eqb y x then Some O else option_map S (index_of x l')
  end.

Fixpoint zip_add (a b : list Z) : list Z :=
  match a, b with
  | x :: a', y :: b' => (x + y) :: zip_add a' b'
  | _, _ => []
  end.

Fixpoint assoc (k : string) (l : list (string * list Z)) : option (list Z) :=
  match l with
  | [] => None
  | (k', v) :: l' => if String.eqb k' k then Some v else assoc k l'
  end.

(** The body of the [for things in ...] loop of [_build_q]. *)
Definition add_pixel (request : Request) (center : list Z)
    (pixel_d : list (Z * Pixel)) (things : Things) : Exc + list (Z * Pixel) :=
  let pixel_dict :=
    {| label := t_label things; device_label := t_device_label things;
       layout := t_layout things; sub_name := t_system_label things;
       pixel := t_mux_index things; sort_string := t_sort_string things;
       pos := zip_add center (t_loc things);
       area := if Z.eqb (t_area things) (-1)
               then a_ovr_spin (args request) else t_area things;
       mux_string := t_mux_string things |} in
  let mapping := map lower (channel_mapping (config request)) in
  match index_of (lower (t_sort_string things)) mapping with
  | None => inl (Exception ValueError
                   ("'" ++ lower (t_sort_string things) ++ "' is not in list"))
  | Some smu_chan => inr (dict_set pixel_d (Z.of_nat smu_chan) pixel_dict)
  end.

Fixpoint add_pixels (request : Request) (center : list Z)
    (pixel_d : list (Z * Pixel)) (rows : list Things) : Exc + list (Z * Pixel) :=
  match rows with
  | [] => inr pixel_d
  | things :: rows' =>
      match add_pixel request center pixel_d things with
      | inl e => inl e
      | inr pixel_d' => add_pixels request center pixel_d' rows'
      end
  end.

Definition _build_q (request : Request) (experiment : string)
  : Exc + list (Z * Pixel) :=
  let stuff :=
    if String.eqb experiment "solarsim" then
      match IV_stuff (args request) with
      | Some t => inr t
      | None => inl (Exception KeyError "'IV_stuff'")
      end
    else if String.eqb experiment "eqe" then
      match EQE_stuff (args request) with
      | Some t => inr t
      | None => inl (Exception KeyError "'EQE_stuff'")
      end
    else inl (Exception ValueError ("Unknown experiment: " ++ experiment)) in
  match stuff with
  | inl e => inl e
  | inr rows =>
      match assoc experiment (experiment_positions (config request)) with
      | None => inl (Exception KeyError ("'" ++ experiment ++ "'"))
      | Some center => add_pixels request center [] rows
      end
  end.

(** *** Events, environment and the job monad *)

(** A call on the measurement object. *)
Inductive InstrCall : Type :=
| ConnectInstruments (smu light : bool)  (* with an SMU address, with a light address *)
| SetIntensity                           (* le.set_intensity *)
| MeasureSpectrum
| ComplianceCurrentGuess (area : Z)
| LeOn | LeOff                           (* le.on(), le.off() *)
| SteadyState (source_voltage : bool)
| Sweep (first : bool)  (* measurement.sweep: start to end, or back with vocs=iv1_vocs *)
| RegisterCurve (light : bool)           (* mppt.register_curve *)
| TrackMaxPower
| EnableOutput (on : bool)               (* sm.enable_output *)
| DisconnectAllInstruments.

(** The calls that are handed the pixel queue ([pixels=pixels]). *)
Definition takes_pixels (c : InstrCall) : bool :=
  match c with
  | SteadyState _ | Sweep _ | TrackMaxPower => true
  | _ => false
  end.

Inductive Event : Type :=
| Append (p : Publication)          (* mqttc.append_payload *)
| PublisherEnter | PublisherExit    (* with MQTTQueuePublisher() as mqttc: connect, loop_start *)
| FabricEnter | FabricExit          (* with fabric() as measurement *)
| Call (c : InstrCall)              (* the call is made; it may then raise *)
| DaqInitGet.                       (* daq_init_queue.get(timeout=30) *)

Record Env : Type := {
  (* hasattr(measurement, "le") once connected with or without a light address *)
  has_le : bool -> bool;
  (* does the n-th call on the measurement object raise *)
  raises : nat -> InstrCall -> option Exc;
  spectrum : PyVal;
  timestamp : PyVal;
  (* the dict returned by steady_state when it is the n-th call *)
  steady_state_vt : nat -> list (Z * PyVal);
  (* the pixel queue the n-th call leaves when it is handed the shared dict
     (pixels=pixels): the drivers prune it in place *)
  queue_after : nat -> InstrCall -> list (Z * Pixel) -> list (Z * Pixel);
  (* the list vt returned by track_max_power when it is the n-th call *)
  track_max_power_vt : nat -> list (list (Z * PyVal));
  (* daq_init_queue.get(timeout=30): the message, or queue.Empty after 30 s *)
  daq_init_get : Exc + PyVal;
}.

Record St : Type := {
  pixels : list (Z * Pixel);   (* the pixel queue, shared with the drivers *)
  ncalls : nat;                (* calls made on measurement objects so far *)
}.

Inductive Res (A : Type) : Type :=
| Ok (a : A)
| Raise (e : Exc)
| OutOfFuel.
Arguments Ok {A} a.
Arguments Raise {A} e.
Arguments OutOfFuel {A}.

(** A computation of the job: result, new state, events emitted. *)
Definition M (A : Type) : Type := St -> Res A * St * list Event.

Definition ret {A} (a : A) : M A := fun s => (Ok a, s, []).

Definition bind {A B} (m : M A) (k : A -> M B) : M B := fun s =>
  match m s with
  | (Ok a, s1, ev1) =>
      match k a s1 with
      | (r, s2, ev2) => (r, s2, (ev1 ++ ev2)%list)
      end
  | (Raise e, s1, ev1) => (Raise e, s1, ev1)
  | (OutOfFuel, s1, ev1) => (OutOfFuel, s1, ev1)
  end.

#[global] Instance M_ret : MRet M := @ret.
#[global] Instance M_bind : MBind M := fun A B k m => bind m k.

Definition raise {A} (e : Exc) : M A := fun s => (Raise e, s, []).
Definition out_of_fuel {A} : M A := fun s => (OutOfFuel, s, []).
Definition emit (ev : list Event) : M unit := fun s => (Ok tt, s, ev).
Definition lift {A} (x : Exc + A) : M A :=
  match x with inl e => raise e | inr a => ret a end.
Definition when (b : bool) (m : M unit) : M unit := if b then m else ret tt.

(** [try: body except <those that catches accepts> as e: handler e] *)
Definition try_except {A} (body : M A) (catches : Exc -> bool)
    (handler : Exc -> M A) : M A := fun s =>
  match body s with
  | (Raise e, s1, ev1) =>
      if catches e then
        match handler e s1 with
        | (r, s2, ev2) => (r, s2, (ev1 ++ ev2)%list)
        end
      else (Raise e, s1, ev1)
  | other => other
  end.

(** [with ctx: body]: the exit runs however the body ends. *)
Definition with_ {A} (enter leave : Event) (body : M A) : M A := fun s =>
  match body s with
  | (r, s1, ev) => (r, s1, ([enter] ++ ev ++ [leave])%list)
  end.

Definition append_payload (tpc : string) (pl : PyVal) (retain : bool) : M unit :=
  emit [Append {| pub_topic := tpc; pub_payload := pl; pub_retain := retain |}].

Definition log (msg : string) (level : Z) : M unit :=
  emit [Append (_log msg level)].

(** [_clear_plot(kind, mqttqp)] *)
Definition _clear_plot (kind : string) : M unit :=
  append_payload ("plotter/" ++ kind ++ "/clear") (PyStr "") false.

(** [v[-1]] and [v[0]] on a list. *)
Definition index_last (v : PyVal) : Exc + PyVal :=
  match v with
  | PyList [] => inl (Exception IndexError "list index out of range")
  | PyList (x :: l) => inr (List.last l x)
  | _ => inl (Exception TypeError "object is not subscriptable")
  end.
Definition index_0 (v : PyVal) : Exc + PyVal :=
  match v with
  | PyList [] => inl (Exception IndexError "list index out of range")
  | PyList (x :: _) => inr x
  | _ => inl (Exception TypeError "object is not subscriptable")
  end.

(** [for ch, ch_data in sorted(vt.items()): ssvocs[ch] = ch_data[-1][0]] *)
Fixpoint ssvocs_of (items : list (Z * PyVal)) (ssvocs : list (Z * PyVal))
  : Exc + list (Z * PyVal) :=
  match items with
  | [] => inr ssvocs
  | (ch, ch_data) :: items' =>
      match index_last ch_data with
      | inl e => inl e
      | inr row =>
          match index_0 row with
          | inl e => inl e
          | inr v => ssvocs_of items' (dict_set ssvocs ch v)
          end
      end
  end.

(** The fields of a [DataHandler] that change during a cycle. *)
Record DataHandler : Type := { kind : string; sweep : string }.

Definition set_kind (k : string) (dh : DataHandler) : DataHandler :=
  {| kind := k; sweep := sweep dh |}.
Definition set_sweep (sw : string) (dh : DataHandler) : DataHandler :=
  {| kind := kind dh; sweep := sw |}.

(** [DataHandler.handle_data(data)]: [self.pixels] is the shared pixel
    queue, read when the data arrives. *)
Definition handle_data (dh : DataHandler) (data : list (Z * PyVal)) : M unit :=
  fun s =>
    (Ok tt, s,
     flat_map
       (fun '(channel, ch_data) =>
          match dict_lookup (pixels s) channel with
          | Some px =>
              [Append {| pub_topic := "data/raw/" ++ kind dh;
                         pub_payload :=
                           PyDict [("data", ch_data); ("pixel", pixel_to_py px);
                                   ("sweep", PyStr (sweep dh))];
                         pub_retain := false |}]
          | None => []      (* except KeyError: pass *)
          end)
       (sorted_items data)).

(** Labels of the live devices:
    [[val["device_label"] for key, val in pixels.items()]]. *)
Definition labels (q : list (Z * Pixel)) : list string :=
  map (fun kv => device_label (snd kv)) q.

Definition live_devices (ld : list string) : Publication :=
  {| pub_topic := "plotter/live_devices";
     pub_payload := PyList (map PyStr ld);
     pub_retain := true |}.

Inductive Ctl : Type := Continue | Break.

Definition gets {A} (f : St -> A) : M A := fun s => (Ok (f s), s, []).
Definition set_pixels (q : list (Z * Pixel)) : M unit := fun s =>
  (Ok tt, {| pixels := q; ncalls := ncalls s |}, []).

Section Sequencer.
Variable env : Env.
Variable request : Request.

(** A call on the measurement object: recorded, then it returns or
    raises; a call that is handed the pixel queue may have pruned it
    either way. *)
Definition call (c : InstrCall) : M unit := fun s =>
  let q := if takes_pixels c
           then queue_after env (ncalls s) c (pixels s) else pixels s in
  let s' := {| pixels := q; ncalls := S (ncalls s) |} in
  match raises env (ncalls s) c with
  | Some e => (Raise e, s', [Call c])
  | None => (Ok tt, s', [Call c])
  end.

(** [measurement.steady_state(...)] *)
Definition steady_state (source_voltage : bool) : M (list (Z * PyVal)) :=
  n ← gets ncalls;
  call (SteadyState source_voltage);;
  mret (steady_state_vt env n).

(** [measurement.track_max_power(...)]: returns [vt] (the [mt] of the
    pair is not used). *)
Definition track_max_power : M (list (list (Z * PyVal))) :=
  n ← gets ncalls;
  call TrackMaxPower;;
  mret (track_max_power_vt env n).

(** [_calibrate_spectrum(request, mqtthost)]: returns [user_aborted]. *)
Definition _calibrate_spectrum : M bool :=
  with_ PublisherEnter PublisherExit
    (user_aborted ←
       try_except
         (with_ FabricEnter FabricExit
            (log "Calibrating solar simulator spectrum..." 20;;
             call (ConnectInstruments false true);;
             when (has_le env true) (call SetIntensity);;
             call MeasureSpectrum;;
             append_payload "calibration/spectrum"
               (PyDict [("data", spectrum env); ("timestamp", timestamp env)])
               true;;
             log "Finished calibrating solar simulator spectrum!" 20);;
          mret false)
         (fun _ => true)
         (fun e =>
            match e with
            | KeyboardInterrupt => mret true
            | Exception _ text =>
                log ("SPECTRUM CALIBRATION ABORTED! " +:+ text) 40;;
                mret false
            end);
     append_payload "measurement/status" (PyStr "Ready") true;;
     mret user_aborted).

(** The [sweeps] list of a cycle (lines 396-406 of [_ivt]). *)
Definition sweeps (a : Args) : list string :=
  if sweep_check a then
    if lit_sweep a =? 0 then ["dark"; "light"]
    else if lit_sweep a =? 1 then ["light"; "dark"]
    else if lit_sweep a =? 2 then ["dark"]
    else if lit_sweep a =? 3 then ["light"]
    else []
  else [].

(** The steady-state Voc block of a cycle: the data handler and
    [ssvocs]. *)
Definition voc_phase (le : bool) (dh : DataHandler)
  : M (DataHandler * option (list (Z * PyVal))) :=
  if 0 <? i_dwell (args request) then
    log "Measuring steady-state Voc" 20;;
    when le (call LeOn);;
    _clear_plot "vt_measurement";;
    vt ← steady_state false;
    if i_dwell_value (args request) =? 0 then
      ssvocs ← lift (ssvocs_of (sorted_items vt) []);
      mret (set_kind "vt_measurement" dh, Some ssvocs)
    else mret (set_kind "vt_measurement" dh, None)
  else mret (dh, None).

(** The body of [for sweep in sweeps]. *)
Definition sweep_body (le : bool) (dh : DataHandler) (sw : string)
  : M DataHandler :=
  (if String.eqb sw "dark" then when le (call LeOff) else when le (call LeOn));;
  dh1 ← (if sweep_check (args request) then
           log ("Performing first " +:+ sw +:+ " sweep.") 20;;
           _clear_plot "iv_measurement";;
           call (Sweep true);;
           call (RegisterCurve (String.eqb sw "light"));;
           mret (set_sweep sw (set_kind "iv_measurement/1" dh))
         else mret dh);
  if return_switch (args request) then
    log ("Performing second " +:+ sw +:+ " sweep.") 20;;
    call (Sweep false);;
    call (RegisterCurve (String.eqb sw "light"));;
    mret (set_sweep sw (set_kind "iv_measurement/2" dh1))
  else mret dh1.

Fixpoint for_sweeps (le : bool) (dh : DataHandler) (l : list string)
  : M DataHandler :=
  match l with
  | [] => mret dh
  | sw :: l' => dh' ← sweep_body le dh sw; for_sweeps le dh' l'
  end.

(** [for d in vt: handler(d)] *)
Fixpoint for_vt (dh : DataHandler) (vt : list (list (Z * PyVal))) : M unit :=
  match vt with
  | [] => mret tt
  | d :: vt' => handle_data dh d;; for_vt dh vt'
  end.

(** Tracking and the reconciliation of the live-device list (lines
    491-523 of [_ivt]).  [Break] is the [break] of line 510; [ld] is the
    deque of live labels. *)
Definition mppt_reconcile (dh : DataHandler) (ld : list string)
  : M (Ctl * DataHandler * list string) :=
  pre_mppt_pix ← gets (fun s => length (pixels s));
  vt ← track_max_power;
  post_mppt_pix ← gets (fun s => length (pixels s));
  r ← (if negb (Nat.eqb pre_mppt_pix post_mppt_pix) then
         if Nat.eqb post_mppt_pix 0 then
           log "No devices left to measure." 30;;
           append_payload "plotter/live_devices" (PyList []) true;;
           mret (Break, ld)
         else
           q ← gets pixels;
           emit [Append (live_devices (labels q))];;
           mret (Continue, labels q)
       else mret (Continue, ld));
  match r with
  | (Break, ld') => mret (Break, set_kind "mppt_measurement" dh, ld')
  | (Continue, ld') =>
      if Nat.ltb 0 (length vt) then
        for_vt (set_kind "vtmppt_measurement" dh) vt;;
        mret (Continue, set_kind "vtmppt_measurement" dh, ld')
      else mret (Continue, set_kind "mppt_measurement" dh, ld')
  end.

(** The max-power-tracking block of a cycle (lines 476-523).  [ssvocs]
    only seeds the tracker ([measurement.mppt.Voc = ssvocs]). *)
Definition mppt_phase (le : bool) (dh : DataHandler) (ld : list string)
    (ssvocs : option (list (Z * PyVal)))
  : M (Ctl * DataHandler * list string) :=
  when le (call LeOn);;
  log "Performing max. power tracking." 20;;
  _clear_plot "mppt_measurement";;
  mppt_reconcile dh ld.

(** The constant-voltage block of a cycle. *)
Definition jsc_phase (le : bool) (dh : DataHandler) : M DataHandler :=
  if 0 <? v_dwell (args request) then
    when le (call LeOn);;
    log "Measuring current at constant voltage." 20;;
    _clear_plot "it_measurement";;
    steady_state true;;
    mret (set_kind "it_measurement" dh)
  else mret dh.

(** One turn of the [while] loop of [_ivt]; [loop] is already
    incremented. *)
Definition ivt_cycle (le : bool) (loop : Z) (ld : list string)
  : M (Ctl * list string) :=
  log ("### Loop " +:+ pretty loop +:+ " ###") 20;;
  q ← gets pixels;
  match q with
  | [] => raise (Exception IndexError "list index out of range")
  | (_, px) :: _ => call (ComplianceCurrentGuess (area px))
  end;;
  '(dh, ssvocs) ← voc_phase le {| kind := ""; sweep := "" |};
  dh ← for_sweeps le dh (sweeps (args request));
  r ← (if 0 <? mppt_dwell (args request)
       then mppt_phase le dh ld ssvocs
       else mret (Continue, dh, ld));
  match r with
  | (Break, _, ld') => mret (Break, ld')
  | (Continue, dh', ld') =>
      jsc_phase le dh';;
      log "" 20;;
      mret (Continue, ld')
  end.

(** [while (loop < args["cycles"]) or (args["cycles"] == 0)]: [fuel]
    bounds the number of turns; the result is the final [ld]. *)
Fixpoint ivt_loop (fuel : nat) (le : bool) (loop : Z) (ld : list string)
  : M (list string) :=
  if (loop <? cycles (args request)) || (cycles (args request) =? 0) then
    match fuel with
    | O => out_of_fuel
    | S fuel' =>
        r ← ivt_cycle le (loop + 1) ld;
        match r with
        | (Break, ld') => mret ld'
        | (Continue, ld') => ivt_loop fuel' le (loop + 1) ld'
        end
    end
  else mret ld.

(** [_ivt] up to the end of the loop (lines 312-546). *)
Definition ivt_body (fuel : nat) (le : bool) : M (list string) :=
  call (ConnectInstruments true (enable_solarsim (args request)));;
  when le (call SetIntensity);;
  append_payload "daq/start" (PyStr "") false;;
  q ← gets pixels;
  emit [Append (live_devices (labels q))];;
  ivt_loop fuel le 0 (labels q).

(** The teardown of [_ivt] (lines 548-560); [ld.clear()] empties the
    deque before it is published. *)
Definition ivt_teardown (le : bool) (ld : list string) : M unit :=
  emit [Append (live_devices [])];;
  call (EnableOutput false);;
  when le (call LeOff);;
  append_payload "daq/stop" (PyStr "") false.

(** [_ivt(pixels, request, measurement, mqttc)] *)
Definition _ivt (fuel : nat) (q : list (Z * Pixel)) : M unit :=
  set_pixels q;;
  let le := has_le env (enable_solarsim (args request)) in
  ld ← ivt_body fuel le;
  ivt_teardown le ld.

(** The DAQ readiness check of [_run] (lines 589-603): the new value of
    [user_aborted]. *)
Definition daq_check : M bool :=
  emit [PublisherEnter; Append (_log "Checking DAQ status..." 20);
        PublisherExit; DaqInitGet];;
  match daq_init_get env with
  | inl _ => mret true                     (* except: *)
  | inr daq_init_msg =>
      match getitem daq_init_msg "init_success" with
      | inl _ => mret true                 (* except: *)
      | inr v => mret (is_False v)
      end
  end.

Definition has_IV_stuff : bool :=
  match IV_stuff (args request) with Some _ => true | None => false end.

(** [_run(request, mqtthost, daq_init_queue)] *)
Definition _run (fuel : nat) : M unit :=
  user_aborted ← (if has_IV_stuff && enable_solarsim (args request)
                  then _calibrate_spectrum else mret false);
  user_aborted ← (if negb user_aborted then daq_check else mret user_aborted);
  (if negb user_aborted then
     with_ PublisherEnter PublisherExit
       (try_except
          (with_ FabricEnter FabricExit
             (log "Starting run..." 20;;
              (if has_IV_stuff then
                 q ← lift (_build_q request "solarsim");
                 _ivt fuel q;;
                 call DisconnectAllInstruments
               else mret tt);;
              log "Run complete!" 20))
          (fun _ => true)
          (fun e =>
             match e with
             | KeyboardInterrupt => mret tt
             | Exception _ text => log ("RUN ABORTED! " +:+ text) 40
             end))
   else
     with_ PublisherEnter PublisherExit (log "RUN ABORTED!" 40));;
  append_payload "measurement/status" (PyStr "Ready") true.

End Sequencer.

(** The state of a fresh child process. *)
Definition start : St := {| pixels := []; ncalls := 0 |}.

(** *** Observations on a run *)

Definition res_of {A} (x : Res A * St * list Event) : Res A := fst (fst x).
Definition st_of {A} (x : Res A * St * list Event) : St := snd (fst x).
Definition events_of {A} (x : Res A * St * list Event) : list Event := snd x.

(** A publication on [plotter/live_devices]. *)
Definition is_live_pub (e : Event) : bool :=
  match e with
  | Append p => String.eqb (pub_topic p) "plotter/live_devices"
  | _ => false
  end.

(** The live-device lists published, in order. *)
Definition live_pubs (ev : list Event) : list Event := List.filter is_live_pub ev.

(** A call other than [sm.enable_output]. *)
Definition body_call (c : InstrCall) : bool :=
  match c with EnableOutput _ => false | _ => true end.

(** The two marks of the teardown of [_ivt]: the call
    [sm.enable_output(...)] and the publication on [daq/stop]. *)
Definition is_teardown_mark (e : Event) : bool :=
  match e with
  | Call (EnableOutput _) => true
  | Append p => String.eqb (pub_topic p) "daq/stop"
  | _ => false
  end.

(** A call on the measurement object (a connection included). *)
Definition is_call (e : Event) : bool :=
  match e with Call _ => true | _ => false end.

(** Every event a computation emits satisfies [P], from any state. *)
Definition emits_only (P : Event -> Prop) {A} (m : M A) : Prop :=
  forall s, Forall P (events_of (m s)).

Definition is_raise (A : Type) (r : Res A) : bool :=
  match r with Raise _ => true | _ => false end.
Definition is_out_of_fuel (A : Type) (r : Res A) : bool :=
  match r with OutOfFuel => true | _ => false end.

(** No run of a computation ends in a result that is [bad]. *)
Definition avoids (bad : forall A, Res A -> bool) {A} (m : M A) : Prop :=
  forall s, bad A (res_of (m s)) = false.

(** No exception leaves a computation, from any state. *)
Definition never_raises {A} (m : M A) : Prop := avoids is_raise m.

(** A computation never runs out of fuel: it stops by itself. *)
Definition never_starves {A} (m : M A) : Prop := avoids is_out_of_fuel m.

Definition not_live (e : Event) : Prop := is_live_pub e = false.
Definition no_teardown_mark (e : Event) : Prop := is_teardown_mark e = false.

(** The retained status "Ready". *)
Definition status_ready : Event :=
  Append {| pub_topic := "measurement/status"; pub_payload := PyStr "Ready";
            pub_retain := true |}.


End Job.

(** ** Sample inputs *)
Module Samples.
Import Supervisor.

Definition mqtthost : string := "127.0.0.1".

Definition run_request (enable_eqe enable_iv : bool) : PyVal :=
  PyDict [("args", PyDict [("enable_eqe", PyBool enable_eqe);
                           ("enable_iv", PyBool enable_iv)])].
Definition run_msg (enable_eqe enable_iv : bool) : MqttMessage :=
  {| topic := "measurement/run";
     payload := Pickle (run_request enable_eqe enable_iv) |}.

(** The supervisor after one accepted run: child 1 is running. *)
Definition busy : Process * World :=
  msg_handler mqtthost [run_msg false true] initial.

(** A well-formed utility command nobody has a branch for. *)
Definition bogus_cmd : PyVal := PyDict [("cmd", PyStr "bogus")].
Definition bogus_msg : MqttMessage :=
  {| topic := "cmd/util"; payload := Pickle bogus_cmd |}.

(** A device on channel label [l] with area 1. *)
Definition px (l : string) : Job.Pixel :=
  {| Job.label := l; Job.device_label := l; Job.layout := "4x4";
     Job.sub_name := "A"; Job.pixel := 1; Job.sort_string := l;
     Job.pos := [0; 0]; Job.area := 1; Job.mux_string := "s" +:+ l |}.

Definition row (l : string) : Job.Things :=
  {| Job.t_label := l; Job.t_device_label := l; Job.t_layout := "4x4";
     Job.t_system_label := "A"; Job.t_mux_index := 1; Job.t_sort_string := l;
     Job.t_loc := [0; 0]; Job.t_area := 1; Job.t_mux_string := "s" +:+ l |}.

Definition two_pixels : list (Z * Job.Pixel) := [(0, px "a1"); (1, px "b1")].

Definition daq_ok : Exc + PyVal := inr (PyDict [("init_success", PyBool true)]).
Definition daq_timeout : Exc + PyVal := inl (Exception QueueEmpty "").
Definition daq_failed : Exc + PyVal :=
  inr (PyDict [("init_success", PyBool false)]).

(** Instruments that always answer and prune nothing; the light engine
    exists when a light address is given. *)
Definition quiet_env (daq : Exc + PyVal) : Job.Env :=
  {| Job.has_le := fun light => light;
     Job.raises := fun _ _ => None;
     Job.spectrum := PyList [PyTuple [PyInt 350; PyInt 0]];
     Job.timestamp := PyOther 1;
     Job.steady_state_vt := fun _ => [];
     Job.queue_after := fun _ _ q => q;
     Job.track_max_power_vt := fun _ => [];
     Job.daq_init_get := daq |}.

(** Each max-power tracking prunes the first device of the queue. *)
Definition pruning_env : Job.Env :=
  {| Job.has_le := fun light => light;
     Job.raises := fun _ _ => None;
     Job.spectrum := PyList [PyTuple [PyInt 350; PyInt 0]];
     Job.timestamp := PyOther 1;
     Job.steady_state_vt := fun _ => [];
     Job.queue_after :=
       fun _ c q => match c with Job.TrackMaxPower => tl q | _ => q end;
     Job.track_max_power_vt := fun _ => [];
     Job.daq_init_get := daq_ok |}.

(** Max-power tracking fails with the exception [e]. *)
Definition failing_env (e : Exc) : Job.Env :=
  {| Job.has_le := fun light => light;
     Job.raises :=
       fun _ c => match c with Job.TrackMaxPower => Some e | _ => None end;
     Job.spectrum := PyList [PyTuple [PyInt 350; PyInt 0]];
     Job.timestamp := PyOther 1;
     Job.steady_state_vt := fun _ => [];
     Job.queue_after := fun _ _ q => q;
     Job.track_max_power_vt := fun _ => [];
     Job.daq_init_get := daq_ok |}.

Definition sample_args (solarsim : bool) (n_cycles selector : Z) (sweeping : bool)
  : Job.Args :=
  {| Job.IV_stuff := Some [row "a1"; row "b1"]; Job.EQE_stuff := None;
     Job.enable_solarsim := solarsim; Job.a_ovr_spin := 1;
     Job.cycles := n_cycles;
     Job.i_dwell := 0; Job.i_dwell_value := 0;
     Job.sweep_check := sweeping; Job.lit_sweep := selector;
     Job.return_switch := false;
     Job.mppt_dwell := 5; Job.v_dwell := 0 |}.

(** An I-V run on two devices: max-power tracking only. *)
Definition sample_request (solarsim : bool) (n_cycles : Z) : Job.Request :=
  {| Job.config :=
       {| Job.channel_mapping := ["A1"; "B1"];
          Job.experiment_positions := [("solarsim", [0; 0])] |};
     Job.args := sample_args solarsim n_cycles 0 false |}.

Definition no_estop_fault : bool -> PyVal -> option Exc := fun _ _ => None.
Definition no_task_fault : string -> PyVal -> UtilityHandler.State
                           -> option Exc * UtilityHandler.State :=
  fun _ _ s => (None, s).

End Samples.

(** ** Observations on the supervisor *)
Module Watch.
Import Supervisor.

(** [mqttc.subscribe("measurement/#", qos=2)] in [main]: the only
    subscription of the measurement server.  The multi-level wildcard
    matches the parent level and everything below it. *)
Definition subscribed (t : string) : bool :=
  String.eqb t "measurement" || String.prefix "measurement/" t.

(** A message handed to the DAQ readiness queue. *)
Definition is_daq_put (a : Action) : bool :=
  match a with DaqInitPut _ => true | _ => false end.

(** The pids of the children started in a stretch of actions. *)
Fixpoint spawned (a : list Action) : gset nat :=
  match a with
  | [] => ∅
  | Spawn pid _ _ :: a' => {[pid]} ∪ spawned a'
  | _ :: a' => spawned a'
  end.

(** A check of a log of actions: every signal goes to a child started
    before it and is followed at once by the join of that child, and
    nothing else is joined.  [known] are the pids started so far,
    [pending] the child signalled and not yet joined. *)
Fixpoint signals_ok (known : gset nat) (pending : option nat)
    (a : list Action) : bool :=
  match a with
  | [] => bool_decide (pending = None)
  | Kill pid _ :: a' =>
      bool_decide (pending = None) && bool_decide (pid ∈ known)
      && signals_ok known (Some pid) a'
  | Join pid :: a' =>
      bool_decide (pending = Some pid) && signals_ok known None a'
  | Spawn pid _ _ :: a' =>
      bool_decide (pending = None) && signals_ok ({[pid]} ∪ known) None a'
  | _ :: a' => bool_decide (pending = None) && signals_ok known None a'
  end.

(** The status the supervisor published last, if any. *)
Fixpoint last_status (a : list Action) (seen : option (PyVal * bool))
  : option (PyVal * bool) :=
  match a with
  | [] => seen
  | PublishSingle _ tpc pl _ retain :: a' =>
      if String.eqb tpc "measurement/status"
      then last_status a' (Some (pl, retain))
      else last_status a' seen
  | _ :: a' => last_status a' seen
  end.

(** The log is in order and the handle denotes a child of the log. *)
Definition orderly (st : Process * World) : Prop :=
  signals_ok ∅ None (actions (snd st)) = true /\
  forall pid, fst st = Started pid -> pid ∈ spawned (actions (snd st)).

(** While a child runs, the last status published is the retained
    "Busy". *)
Definition busy_shown (st : Process * World) : Prop :=
  forall pid, pid ∈ alive (snd st) ->
    last_status (actions (snd st)) None = Some (PyStr "Busy", true).

End Watch.

(** ** Observations on the pixel queue *)
Module Rows.
Import Job.

(** The [pixel_dict] that the loop of [_build_q] fills in for one row
    (lines 216-230). *)
Definition pixel_of (request : Request) (center : list Z) (things : Things)
  : Pixel :=
  {| label := t_label things; device_label := t_device_label things;
     layout := t_layout things; sub_name := t_system_label things;
     pixel := t_mux_index things; sort_string := t_sort_string things;
     pos := zip_add center (t_loc things);
     area := if Z.eqb (t_area things) (-1)
             then a_ovr_spin (args request) else t_area things;
     mux_string := t_mux_string things |}.

(** [mapping.index(things["sort_string"].lower())] (lines 231-232):
    the SMU channel of a row, if its sort string is mapped. *)
Definition channel_of (request : Request) (things : Things) : option nat :=
  index_of (lower (t_sort_string things))
    (map lower (channel_mapping (config request))).

(** The lowercased sort string of a row is in the lowercased channel
    mapping. *)
Definition mapped (request : Request) (things : Things) : Prop :=
  In (lower (t_sort_string things))
    (map lower (channel_mapping (config request))).

(** What the loop of [_build_q] keeps true of the dict it fills. *)
Definition keyed (n : nat) (d : list (Z * Pixel)) : Prop :=
  NoDup (map fst d) /\ Forall (fun k => 0 <= k < Z.of_nat n) (map fst d).

End Rows.

(** ** Observations on the data handler *)
Module Records.
Import Job.

(** The publication of [handle_data] for the data [ch_data] of a channel
    whose pixel is [px] (lines 270-277). *)
Definition data_record (dh : DataHandler) (ch_data : PyVal) (px : Pixel) : Event :=
  Append {| pub_topic := "data/raw/" +:+ kind dh;
            pub_payload :=
              PyDict [("data", ch_data); ("pixel", pixel_to_py px);
                      ("sweep", PyStr (sweep dh))];
            pub_retain := false |}.

(** The record of one item of the data, if its channel is in the
    queue. *)
Definition record_of (dh : DataHandler) (q : list (Z * Pixel)) (kv : Z * PyVal)
  : option Event :=
  option_map (data_record dh (snd kv)) (dict_lookup q (fst kv)).

(** Items in the order of their channels. *)
Definition by_channel (a b : Z * PyVal) : Prop := fst a <= fst b.

End Records.

(** ** Observations on the events of a job *)
Module Trace.
Import Job.

(** The text of a loop announcement of [_ivt] ([_log(f"### Loop {loop} ###", 20, mqttc)]),
    if the event is one. *)
Definition loop_header (e : Event) : option string :=
  match e with
  | Append p =>
      if String.eqb (pub_topic p) "measurement/log" then
        match pub_payload p with
        | PyDict [(_, PyInt _); (_, PyStr msg)] =>
            if String.prefix "### Loop " msg then Some msg else None
        | _ => None
        end
      else None
  | _ => None
  end.

(** The loop announcements among the events, in order. *)
Definition loop_headers (ev : list Event) : list string := omap loop_header ev.

(** The announcement of loop [n]. *)
Definition header (n : Z) : string := "### Loop " +:+ pretty n +:+ " ###".

(** An event that is no loop announcement. *)
Definition quiet (e : Event) : Prop := loop_header e = None.

(** What holds of the value and of the state when a computation returns. *)
Definition ends_with {A} (Q : A -> St -> Prop) (m : M A) : Prop :=
  forall s, match m s with (Ok a, s', _) => Q a s' | _ => True end.

(** The rest of a cycle of [_ivt] after its announcement (lines
    355-546). *)
Definition cycle_rest (env : Env) (request : Request) (le : bool)
    (ld : list string) : M (Ctl * list string) :=
  q ← gets pixels;
  match q with
  | [] => raise (Exception IndexError "list index out of range")
  | (_, px) :: _ => call env (ComplianceCurrentGuess (area px))
  end;;
  '(dh, ssvocs) ← voc_phase env request le {| kind := ""; sweep := "" |};
  dh ← for_sweeps env request le dh (sweeps (args request));
  r ← (if 0 <? mppt_dwell (args request)
       then mppt_phase env le dh ld ssvocs
       else mret (Continue, dh, ld));
  match r with
  | (Break, _, ld') => mret (Break, ld')
  | (Continue, dh', ld') =>
      jsc_phase env request le dh';;
      log "" 20;;
      mret (Continue, ld')
  end.

(** The [break] of the loop is taken on an empty queue only. *)
Definition break_on_empty {A} (r : Ctl * A) (s : St) : Prop :=
  fst r = Break -> pixels s = [].

(** The result is the exception of a user interrupt. *)
Definition is_interrupt (A : Type) (r : Res A) : bool :=
  match r with Raise KeyboardInterrupt => true | _ => false end.

(** No call on the instruments is interrupted. *)
Definition uninterrupted (env : Env) : Prop :=
  forall n c, raises env n c <> Some KeyboardInterrupt.

(** The events of the DAQ readiness check. *)
Definition daq_events : list Event :=
  [PublisherEnter; Append (_log "Checking DAQ status..." 20);
   PublisherExit; DaqInitGet].

End Trace.

(** ** The supervisor and its job together *)
Module Rendezvous.

(** [daq_init_queue] is created by [main] and handed to [msg_handler],
    the only one that puts into it (line 693), and through [start_process]
    to [_run], which takes from it (line 597): what
    [daq_init_queue.get(timeout=30)] returns in the job is a message the
    supervisor has put. *)
Definition fed_by (acts : list Supervisor.Action) (env : Job.Env) : Prop :=
  forall m, Job.daq_init_get env = inr m -> In (Supervisor.DaqInitPut m) acts.

(** The end of a run that was aborted before it started. *)
Definition abort_events : list Job.Event :=
  [Job.PublisherEnter; Job.Append (_log "RUN ABORTED!" 40); Job.PublisherExit;
   Job.status_ready].

End Rendezvous.

(** ** utility_handler.py: the manager and the worker as two threads

    [run] starts [manager] and [worker] as threads that share [taskq] and
    [outputq].  A turn of the manager is one step: the worker does not
    finish its task between the tests of the manager on
    [taskq.unfinished_tasks].  A turn of the worker is two steps: it takes
    a task and announces it, and later it finishes the task and calls
    [task_done]; the manager may take any number of turns in between.
    What the worker's branch posts while it works is added when the task
    finishes.  A thread whose loop an exception has left takes no further
    step. *)
Module Threads.
Import UtilityHandler.

Section WithInstruments.
Variable estop_outcome : bool -> PyVal -> option Exc.
Variable task_outcome : string -> PyVal -> State -> option Exc * State.

(** The worker up to its [try] (lines 140-141): the task taken from the
    queue, its command and the state after the announcement. *)
Definition worker_take (s : State) : option (PyVal * (Exc + (PyVal * State))) :=
  match taskq s with
  | [] => None
  | task :: rest =>
      let s := {| taskq := rest; unfinished_tasks := unfinished_tasks s;
                  outputq := outputq s; effects := effects s |} in
      Some (task,
            match getitem task "cmd" with
            | inl e => inl e
            | inr cmd =>
                inr (cmd,
                     log_msg [Lit "New task: "; Fmt cmd; Lit " (queue size = ";
                              Fmt (PyInt (Z.of_nat (unfinished_tasks s))); Lit ")"]
                       DEBUG s)
            end)
  end.

(** The worker from its [try] to [task_done] (lines 151-403). *)
Definition worker_finish (task cmd : PyVal) (s : State) : Exc + State :=
  let r :=
    match try_branch cmd with
    | Some c =>
        match task_outcome c task (add_effect (RunTask c task) s) with
        | (None, s') => inr s'
        | (Some KeyboardInterrupt, _) => inl KeyboardInterrupt
        | (Some (Exception _ text), s') => inr (log_msg [Lit text] WARNING s')
        end
    | None => inr s
    end in
  match r with
  | inl e => inl e
  | inr s =>
      if eq_str cmd "check_health" then
        match task_outcome "check_health" task
                (add_effect (RunTask "check_health" task) s) with
        | (None, s') => inr (task_done s')
        | (Some e, _) => inl e
        end
      else inr (task_done s)
  end.

(** The shared queues and the task the worker is busy with. *)
Record Sys : Type := {
  shared : State;
  current : option (PyVal * PyVal);     (* the task and its command *)
}.

Inductive step : Sys -> Sys -> Prop :=
| manager_turn y mqtt_msg s' :
    manager estop_outcome mqtt_msg (shared y) = inr s' ->
    step y {| shared := s'; current := current y |}
| worker_takes y task cmd s' :
    current y = None ->
    worker_take (shared y) = Some (task, inr (cmd, s')) ->
    step y {| shared := s'; current := Some (task, cmd) |}
| worker_finishes y task cmd s' :
    current y = Some (task, cmd) ->
    worker_finish task cmd (shared y) = inr s' ->
    step y {| shared := s'; current := None |}.

End WithInstruments.

(** Both threads at the top of their loops, the queues empty. *)
Definition idle : Sys := {| shared := initial; current := None |}.

(** The tasks put and not yet done are the ones waiting and the one in
    work, and there is at most one. *)
Definition one_in_flight (y : Sys) : Prop :=
  unfinished_tasks (shared y)
    = (length (taskq (shared y))
       + match current y with Some _ => 1 | None => 0 end)%nat /\
  (unfinished_tasks (shared y) <= 1)%nat.

(** A branch of the worker leaves the task queue and its counter alone:
    it only logs and posts results. *)
Definition frames_queue
    (task_outcome : string -> PyVal -> State -> option Exc * State) : Prop :=
  forall c task s,
    taskq (snd (task_outcome c task s)) = taskq s /\
    unfinished_tasks (snd (task_outcome c task s)) = unfinished_tasks s.

End Threads.

(** ** More sample inputs *)
Module Cases.
Import Supervisor Samples.

Definition stop_msg : MqttMessage :=
  {| topic := "measurement/stop"; payload := Pickle (PyStr "") |}.

(** The supervisor after an accepted run and a stop. *)
Definition stopped : Process * World :=
  msg_handler mqtthost [run_msg false true; stop_msg] initial.

(** A run request that names the I-V experiment only. *)
Definition iv_only_request : PyVal :=
  PyDict [("args", PyDict [("enable_iv", PyBool true)])].

End Cases.

Module RowCases.
Import Samples.

(** The layout table of [sample_request] with its rows replaced. *)
Definition with_rows (rows : list Job.Things) : Job.Request :=
  {| Job.config := Job.config (sample_request false 1);
     Job.args :=
       {| Job.IV_stuff := Some rows; Job.EQE_stuff := None;
          Job.enable_solarsim := false; Job.a_ovr_spin := 7;
          Job.cycles := 1;
          Job.i_dwell := 0; Job.i_dwell_value := 0;
          Job.sweep_check := false; Job.lit_sweep := 0;
          Job.return_switch := false;
          Job.mppt_dwell := 5; Job.v_dwell := 0 |} |}.

(** A second device wired to the channel of [row "a1"], with the custom
    area marker. *)
Definition again : Job.Things :=
  {| Job.t_label := "again"; Job.t_device_label := "again";
     Job.t_layout := "4x4"; Job.t_system_label := "B"; Job.t_mux_index := 2;
     Job.t_sort_string := "A1"; Job.t_loc := [3; 4]; Job.t_area := -1;
     Job.t_mux_string := "s2" |}.

End RowCases.

Module RunCases.
Import Samples.

(** The DAQ answers with [init_success] set to the number 0. *)
Definition daq_zero : Exc + PyVal := inr (PyDict [("init_success", PyInt 0)]).

(** A request for the EQE experiment only: no [IV_stuff]. *)
Definition eqe_request : Job.Request :=
  {| Job.config := Job.config (sample_request false 1);
     Job.args :=
       {| Job.IV_stuff := None; Job.EQE_stuff := Some [row "a1"];
          Job.enable_solarsim := true; Job.a_ovr_spin := 1;
          Job.cycles := 1;
          Job.i_dwell := 0; Job.i_dwell_value := 0;
          Job.sweep_check := false; Job.lit_sweep := 0;
          Job.return_switch := false;
          Job.mppt_dwell := 5; Job.v_dwell := 0 |} |}.

End RunCases.

Module ThreadCases.
Import UtilityHandler Threads Samples.

(** A health check of the power supply. *)
Definition health_cmd : PyVal :=
  PyDict [("cmd", PyStr "check_health"); ("psu", PyStr "ASRL1::INSTR")].
Definition health_msg : MqttMessage :=
  {| topic := "cmd/util"; payload := Pickle health_cmd |}.

(** An emergency stop of the virtual controller board. *)
Definition estop_cmd : PyVal :=
  PyDict [("cmd", PyStr "estop"); ("pcb_virt", PyBool true);
          ("pcb", PyStr "10.42.0.54")].
Definition estop_msg : MqttMessage :=
  {| topic := "cmd/util"; payload := Pickle estop_cmd |}.

(** The health check fails on a key the task does not have; the other
    branches succeed. *)
Definition health_fault : string -> PyVal -> State -> option Exc * State :=
  fun c _ s =>
    (if String.eqb c "check_health"
     then Some (Exception KeyError "'psu_virt'") else None, s).

(** The manager has queued the health check and the worker has taken
    it. *)
Definition working : Sys :=
  {| shared :=
       {| taskq := []; unfinished_tasks := 1;
          outputq :=
            [LogOutput DEBUG [Lit "New command message!"];
             LogOutput DEBUG
               [Lit "New task: "; Fmt (PyStr "check_health");
                Lit " (queue size = "; Fmt (PyInt 1); Lit ")"]];
          effects := [] |};
     current := Some (health_cmd, PyStr "check_health") |}.

End ThreadCases.

(** * Properties *)

Local Open Scope list_scope.

(** ** The job supervisor *)
Section SupervisorFacts.
Import Supervisor.
Variable host : string.

Lemma not_alive_owns_nothing process w :
  handle_owns_alive (process, w) -> is_alive w process = false -> alive w = ∅.
Proof.
  intros Hinv Hdead. apply set_eq. intros pid. split; [|set_solver].
  intros Hin. pose proof (Hinv pid Hin) as Hp. simpl in Hp. subst process.
  simpl in Hdead. apply bool_decide_eq_false in Hdead. contradiction.
Qed.

Lemma start_process_owns process w request :
  handle_owns_alive (process, w) ->
  handle_owns_alive (start_process host w process request).
Proof.
  intros Hinv. unfold start_process.
  destruct (is_alive w process) eqn:Halive; simpl.
  - exact Hinv.
  - rewrite (not_alive_owns_nothing _ _ Hinv Halive).
    intros pid Hin. simpl in *. f_equal. set_solver.
Qed.

Lemma stop_process_owns process w :
  handle_owns_alive (process, w) ->
  handle_owns_alive (stop_process host w process).
Proof.
  intros Hinv. unfold stop_process.
  destruct (is_alive w process) eqn:Halive; [|exact Hinv].
  destruct process as [|p]; [exact Hinv|].
  intros pid Hin. simpl in *. apply Hinv. simpl. set_solver.
Qed.

(** What a message that raises nothing can do. *)
Lemma dispatch_cases msg w process st' :
  dispatch host msg w process = inr st' ->
  (exists request, st' = start_process host w process request) \/
  st' = stop_process host w process \/
  (exists request, st' = (process, act [DaqInitPut request] w)) \/
  st' = (process, w).
Proof.
  unfold dispatch. intros H.
  repeat match type of H with
         | context [match ?x with _ => _ end] => destruct x eqn:?
         end;
    inversion H; subst; eauto 6.
Qed.

Lemma step_owns st st' :
  handle_owns_alive st -> step host st st' -> handle_owns_alive st'.
Proof.
  intros Hinv Hstep. destruct Hstep as [[process w] msg | process w pid].
  - unfold msg_handler_step.
    destruct (dispatch host msg w process) as [e|st'] eqn:Hd; [exact Hinv|].
    apply dispatch_cases in Hd.
    destruct Hd as [[rq ->] | [-> | [[rq ->] | ->]]];
      auto using start_process_owns, stop_process_owns.
  - intros q Hin. simpl in *. apply Hinv. simpl. set_solver.
Qed.

Lemma reachable_owns st :
  rtc (step host) initial st -> handle_owns_alive st.
Proof.
  revert st. apply (rtc_ind_r handle_owns_alive).
  - intros pid Hin. simpl in Hin. set_solver.
  - intros mid st _ Hlast IH. eapply step_owns; eauto.
Qed.

(** A run message with one of the two experiments enabled reaches
    [start_process]. *)
Lemma run_message_starts process w msg request args eqe :
  topic msg = "measurement/run" ->
  payload msg = Pickle request ->
  getitem request "args" = inr args ->
  getitem args "enable_eqe" = inr eqe ->
  is_True eqe = true \/
    (exists iv, getitem args "enable_iv" = inr iv /\ is_True iv = true) ->
  msg_handler_step host (process, w) msg = start_process host w process request.
Proof.
  intros Ht Hp Ha He Hflag. unfold msg_handler_step, dispatch.
  rewrite Hp, Ht. simpl. rewrite Ha, He.
  destruct (is_True eqe) eqn:Heqe; [reflexivity|].
  destruct Hflag as [Hf | (iv & Hi & Hiv)]; [discriminate Hf|].
  rewrite Hi, Hiv. reflexivity.
Qed.

(** C1. Single-flight admission.  A run message with an experiment enabled
    is handed to [start_process].  While the job process is alive,
    [start_process] returns the process object it was given, starts
    nothing (the set of running children and the pid counter are
    unchanged) and publishes exactly one event, the level-30 log
    "Measurement server busy!".  When no job process is alive it launches
    exactly one new process and then publishes the retained status
    "Busy".  Over every sequence of messages and child exits from the
    initial state, two running children are always the same one. *)
Theorem start_process_single_flight :
  (forall process w msg request args eqe,
      topic msg = "measurement/run" ->
      payload msg = Pickle request ->
      getitem request "args" = inr args ->
      getitem args "enable_eqe" = inr eqe ->
      is_True eqe = true \/
        (exists iv, getitem args "enable_iv" = inr iv /\ is_True iv = true) ->
      msg_handler_step host (process, w) msg
        = start_process host w process request) /\
  (forall w process request,
      is_alive w process = true ->
      fst (start_process host w process request) = process /\
      alive (snd (start_process host w process request)) = alive w /\
      next_pid (snd (start_process host w process request)) = next_pid w /\
      actions (snd (start_process host w process request)) =
        actions w ++
        [PublishSingle host "measurement/log"
           (log_payload 30 "Measurement server busy!") 2 false]) /\
  (forall w process request,
      is_alive w process = false ->
      fst (start_process host w process request) = Started (next_pid w) /\
      alive (snd (start_process host w process request))
        = alive w ∪ {[next_pid w]} /\
      actions (snd (start_process host w process request)) =
        actions w ++
        [Spawn (next_pid w) request host;
         PublishSingle host "measurement/status" (PyStr "Busy") 2 true]) /\
  (forall st pid1 pid2,
      rtc (step host) initial st ->
      pid1 ∈ alive (snd st) -> pid2 ∈ alive (snd st) -> pid1 = pid2).
Proof.
  split; [exact run_message_starts|]. split; [|split].
  - intros w process request Halive. unfold start_process.
    rewrite Halive. simpl. auto.
  - intros w process request Hdead. unfold start_process.
    rewrite Hdead. simpl. rewrite <- app_assoc. auto.
  - intros st pid1 pid2 Hr H1 H2.
    pose proof (reachable_owns st Hr) as Hinv.
    pose proof (Hinv pid1 H1) as E1. pose proof (Hinv pid2 H2) as E2.
    congruence.
Qed.

End SupervisorFacts.

Section SupervisorStop.
Import Supervisor Samples.

Lemma stop_process_busy host w pid :
  is_alive w (Started pid) = true ->
  stop_process host w (Started pid) =
    (Started pid,
     {| alive := alive w ∖ {[pid]};
        next_pid := next_pid w;
        actions := actions w ++
          [Kill pid SIGINT; Join pid;
           PublishSingle host "measurement/log"
             (log_payload 20 "Request to stop completed!") 2 false;
           PublishSingle host "measurement/status" (PyStr "Ready") 2 true;
           PublishSingle host "plotter/live_devices" (PyList []) 2 false] |}).
Proof.
  intros Halive. unfold stop_process. rewrite Halive.
  unfold act, child_exit. simpl. rewrite <- !app_assoc. reflexivity.
Qed.

(** C3. Stop while busy, evaluated on the supervisor that has child 1
    running: [stop_process] sends SIGINT, joins the child, and publishes
    the "Request to stop completed!" log, the retained status "Ready" and
    the empty live-device list -- the last one with [retain] false, where
    the specification has a retained message. *)
Lemma stop_process_live_devices_not_retained :
  is_alive (snd busy) (fst busy) = true /\
  fst busy = Started 1 /\
  alive (snd (stop_process mqtthost (snd busy) (fst busy))) = ∅ /\
  actions (snd (stop_process mqtthost (snd busy) (fst busy))) =
    actions (snd busy) ++
    [Kill 1 SIGINT; Join 1;
     PublishSingle mqtthost "measurement/log"
       (log_payload 20 "Request to stop completed!") 2 false;
     PublishSingle mqtthost "measurement/status" (PyStr "Ready") 2 true;
     PublishSingle mqtthost "plotter/live_devices" (PyList []) 2 false].
Proof.
  assert (Halive : is_alive (snd busy) (Started 1) = true) by (vm_compute; reflexivity).
  change (fst busy) with (Started 1).
  rewrite (stop_process_busy mqtthost (snd busy) 1 Halive). simpl.
  split; [assumption|]. split; [reflexivity|].
  split; [vm_compute; reflexivity | reflexivity].
Qed.

(** C4, as stated, fails on the idle supervisor: the one event published
    is not a log event of the informational level 20. *)
Lemma stop_process_idle_not_informational :
  is_alive (snd initial) (fst initial) = false /\
  ~ (exists msg,
        actions (snd (stop_process mqtthost (snd initial) (fst initial))) =
          [PublishSingle mqtthost "measurement/log" (log_payload INFO msg) 2 false]).
Proof.
  split; [reflexivity|]. intros [msg H]. vm_compute in H. discriminate H.
Qed.

(** C4, amended. Stop when idle: while no job process is alive,
    [stop_process] publishes exactly one event, the level-30 (warning) log
    "Nothing to stop. Measurement server is idle."; it sends no signal,
    publishes no status, returns the process object it was given and
    leaves the running children and the pid counter as they were, so the
    supervisor is still idle afterwards. *)
Theorem stop_process_idle host w process :
  is_alive w process = false ->
  fst (stop_process host w process) = process /\
  alive (snd (stop_process host w process)) = alive w /\
  next_pid (snd (stop_process host w process)) = next_pid w /\
  actions (snd (stop_process host w process)) =
    actions w ++
    [PublishSingle host "measurement/log"
       (log_payload WARNING "Nothing to stop. Measurement server is idle.")
       2 false] /\
  is_alive (snd (stop_process host w process))
           (fst (stop_process host w process)) = false.
Proof.
  intros Hdead. unfold stop_process. rewrite Hdead. simpl.
  repeat split. destruct process; simpl in *; assumption.
Qed.

Lemma stop_process_idle_witness :
  is_alive (snd initial) (fst initial) = false /\
  actions (snd (stop_process mqtthost (snd initial) (fst initial))) =
    actions (snd initial) ++
    [PublishSingle mqtthost "measurement/log"
       (log_payload WARNING "Nothing to stop. Measurement server is idle.")
       2 false].
Proof.
  split; [reflexivity|].
  apply (stop_process_idle mqtthost (snd initial) (fst initial)).
  reflexivity.
Defined.

Lemma start_process_single_flight_witness :
  (is_alive (snd busy) (fst busy) = true /\
   actions (snd (start_process mqtthost (snd busy) (fst busy) (run_request false true))) =
     actions (snd busy) ++
     [PublishSingle mqtthost "measurement/log"
        (log_payload 30 "Measurement server busy!") 2 false]) /\
  (is_alive (snd initial) (fst initial) = false /\
   actions (snd (start_process mqtthost (snd initial) (fst initial) (run_request false true))) =
     actions (snd initial) ++
     [Spawn (next_pid (snd initial)) (run_request false true) mqtthost;
      PublishSingle mqtthost "measurement/status" (PyStr "Busy") 2 true]).
Proof.
  pose proof (start_process_single_flight mqtthost) as [_ [Hbusy [Hidle _]]].
  split; split.
  - vm_compute; reflexivity.
  - apply (Hbusy (snd busy) (fst busy) (run_request false true)).
    vm_compute; reflexivity.
  - reflexivity.
  - apply (Hidle (snd initial) (fst initial) (run_request false true)).
    reflexivity.
Defined.

(** C10. A message on [measurement/run] whose args have neither
    [enable_eqe] nor [enable_iv] set to [True] is consumed without any
    effect: the process object and the world (running children, pid
    counter, everything published so far) are unchanged, whether the
    server is idle or busy. *)
Theorem run_without_experiment_ignored host st msg request args eqe iv :
  topic msg = "measurement/run" ->
  payload msg = Pickle request ->
  getitem request "args" = inr args ->
  getitem args "enable_eqe" = inr eqe ->
  getitem args "enable_iv" = inr iv ->
  is_True eqe = false ->
  is_True iv = false ->
  msg_handler_step host st msg = st.
Proof.
  intros Ht Hp Ha He Hi Heqe Hiv. destruct st as [process w].
  unfold msg_handler_step, dispatch. rewrite Hp, Ht. simpl.
  rewrite Ha, He, Heqe, Hi, Hiv. reflexivity.
Qed.

Lemma run_without_experiment_ignored_witness :
  msg_handler_step mqtthost initial (run_msg false false) = initial /\
  msg_handler_step mqtthost busy (run_msg false false) = busy.
Proof.
  split.
  - apply (run_without_experiment_ignored mqtthost initial (run_msg false false)
             (run_request false false)
             (PyDict [("enable_eqe", PyBool false); ("enable_iv", PyBool false)])
             (PyBool false) (PyBool false)); reflexivity.
  - apply (run_without_experiment_ignored mqtthost busy (run_msg false false)
             (run_request false false)
             (PyDict [("enable_eqe", PyBool false); ("enable_iv", PyBool false)])
             (PyBool false) (PyBool false)); reflexivity.
Defined.

End SupervisorStop.

(** ** Malformed and unrecognized messages *)
Section MessageFacts.
Import Supervisor UtilityHandler Samples.
Variable estop_outcome : bool -> PyVal -> option Exc.
Variable task_outcome : string -> PyVal -> State -> option Exc * State.





Lemma filter_cmd_accepts mqtt_msg v :
  payload mqtt_msg = Pickle v ->
  is_iterable v = true -> contains_str v "cmd" = inr true ->
  filter_cmd mqtt_msg = inr v.
Proof.
  intros Hp Hi Hc. unfold filter_cmd. rewrite Hp. simpl.
  rewrite Hi, Hc. reflexivity.
Qed.


(** The manager on a command dict that is not an emergency stop: the
    state of the task queue alone decides. *)
Lemma manager_not_estop mqtt_msg d cmd s :
  filter_cmd mqtt_msg = inr (PyDict d) ->
  dict_get d "cmd" = Some cmd ->
  eq_str cmd "estop" = false ->
  manager estop_outcome mqtt_msg s =
    inr (if Nat.eqb (unfinished_tasks s) 0
         then put_task (PyDict d) (log_msg [Lit "New command message!"] DEBUG s)
         else log_msg [Lit "Backend busy (task queue size = ";
                       Fmt (PyInt (Z.of_nat (unfinished_tasks s)));
                       Lit "). Command rejected."] WARNING
                (log_msg [Lit "New command message!"] DEBUG s)).
Proof.
  intros Hf Hc He. unfold manager. rewrite Hf. simpl. rewrite Hc, He.
  destruct (unfinished_tasks s); reflexivity.
Qed.

Lemma unrecognized_has_no_branch cmd :
  recognized cmd = false ->
  eq_str cmd "estop" = false /\ try_branch cmd = None /\
  eq_str cmd "check_health" = false.
Proof.
  unfold recognized, try_branch, worker_commands, try_commands. simpl.
  intros H. apply orb_false_elim in H as [H0 H].
  repeat (apply orb_false_elim in H as [?E H]).
  rewrite E, E0, E1, E2, E3, E4, E5. auto.
Qed.

(** The worker on a task whose command has no branch: one debug event,
    no instrument I/O, the task is marked done. *)
Lemma worker_no_branch task cmd rest s :
  taskq s = task :: rest ->
  getitem task "cmd" = inr cmd ->
  try_branch cmd = None ->
  eq_str cmd "check_health" = false ->
  worker task_outcome s =
    Some (inr {| taskq := rest;
                 unfinished_tasks := Nat.pred (unfinished_tasks s);
                 outputq := outputq s ++
                   [LogOutput DEBUG
                      [Lit "New task: "; Fmt cmd; Lit " (queue size = ";
                       Fmt (PyInt (Z.of_nat (unfinished_tasks s))); Lit ")"]];
                 effects := effects s |}).
Proof.
  intros Hq Hg Hb Hh. unfold worker. rewrite Hq, Hg. simpl.
  rewrite Hb, Hh. reflexivity.
Qed.



(** The filter lets through a list that has 'cmd' among its elements; the
    manager then subscripts it with a string and the TypeError leaves its
    loop. *)
Example manager_fails_on_list_with_cmd :
  filter_cmd {| topic := "cmd/util"; payload := Pickle (PyList [PyStr "cmd"]) |}
    = inr (PyList [PyStr "cmd"]) /\
  manager no_estop_fault
    {| topic := "cmd/util"; payload := Pickle (PyList [PyStr "cmd"]) |}
    UtilityHandler.initial
    = inl (Exception TypeError
             "indices must be integers or object is not subscriptable").
Proof. split; reflexivity. Qed.

(** A payload of pickled bytes does not get through the filter: the
    membership test raises and the TypeError leaves the manager's loop. *)
Example manager_fails_on_bytes :
  filter_cmd {| topic := "cmd/util"; payload := Pickle (PyBytes []) |}
    = inl (Exception TypeError "a bytes-like object is required, not 'str'") /\
  manager no_estop_fault
    {| topic := "cmd/util"; payload := Pickle (PyBytes []) |}
    UtilityHandler.initial
    = inl (Exception TypeError "a bytes-like object is required, not 'str'").
Proof. split; reflexivity. Qed.

(** C9, as stated, fails: with no task unfinished the manager admits a
    well-formed command it has no branch for to the task queue, with the
    debug event "New command message!" only. *)
Lemma unrecognized_command_is_queued :
  filter_cmd bogus_msg = inr bogus_cmd /\
  recognized (PyStr "bogus") = false /\
  manager no_estop_fault bogus_msg UtilityHandler.initial =
    inr {| taskq := [bogus_cmd]; unfinished_tasks := 1;
           outputq := [LogOutput DEBUG [Lit "New command message!"]];
           effects := [] |}.
Proof. repeat split. Qed.

(** C9, amended. Unrecognized-command disposition.  The manager does not
    tell recognized from unrecognized commands: a well-formed command
    whose 'cmd' has no branch anywhere is admitted to the task queue when
    no task is unfinished (after the debug event "New command message!")
    and is rejected with the "Backend busy" warning when some task is
    unfinished and stays so during the manager's turn.  Once admitted it
    is not executed: the worker logs the debug event "New task: ..." for
    it, does no instrument I/O and marks it done. *)
Theorem unrecognized_command_disposition mqtt_msg d cmd s :
  payload mqtt_msg = Pickle (PyDict d) ->
  dict_get d "cmd" = Some cmd ->
  recognized cmd = false ->
  (unfinished_tasks s = O ->
     manager estop_outcome mqtt_msg s =
       inr {| taskq := taskq s ++ [PyDict d];
              unfinished_tasks := 1;
              outputq := outputq s ++ [LogOutput DEBUG [Lit "New command message!"]];
              effects := effects s |}) /\
  (unfinished_tasks s <> O ->
     manager estop_outcome mqtt_msg s =
       inr {| taskq := taskq s;
              unfinished_tasks := unfinished_tasks s;
              outputq := outputq s ++
                [LogOutput DEBUG [Lit "New command message!"];
                 LogOutput WARNING
                   [Lit "Backend busy (task queue size = ";
                    Fmt (PyInt (Z.of_nat (unfinished_tasks s)));
                    Lit "). Command rejected."]];
              effects := effects s |}) /\
  (forall rest s0,
      taskq s0 = PyDict d :: rest ->
      worker task_outcome s0 =
        Some (inr {| taskq := rest;
                     unfinished_tasks := Nat.pred (unfinished_tasks s0);
                     outputq := outputq s0 ++
                       [LogOutput DEBUG
                          [Lit "New task: "; Fmt cmd; Lit " (queue size = ";
                           Fmt (PyInt (Z.of_nat (unfinished_tasks s0))); Lit ")"]];
                     effects := effects s0 |})).
Proof.
  intros Hp Hc Hr.
  destruct (unrecognized_has_no_branch cmd Hr) as (He & Hb & Hh).
  assert (Hf : filter_cmd mqtt_msg = inr (PyDict d)).
  { apply filter_cmd_accepts; [assumption|reflexivity|]. simpl. rewrite Hc.
    reflexivity. }
  pose proof (manager_not_estop mqtt_msg d cmd s Hf Hc He) as Hm.
  split; [|split].
  - intros Hz. rewrite Hm, Hz. simpl. unfold put_task, log_msg. simpl.
    rewrite Hz. reflexivity.
  - intros Hnz. rewrite Hm. destruct (unfinished_tasks s) as [|n] eqn:Hn;
      [congruence|]. simpl. unfold log_msg. simpl.
    rewrite Hn, <- app_assoc. reflexivity.
  - intros rest s0 Hq.
    apply (worker_no_branch (PyDict d) cmd rest s0 Hq); try assumption.
    simpl. rewrite Hc. reflexivity.
Qed.

End MessageFacts.

Section MessageWitnesses.
Import Supervisor UtilityHandler Samples.


Lemma unrecognized_command_disposition_witness :
  payload bogus_msg = Pickle bogus_cmd /\
  recognized (PyStr "bogus") = false /\
  unfinished_tasks UtilityHandler.initial = O /\
  manager no_estop_fault bogus_msg UtilityHandler.initial =
    inr {| taskq := [bogus_cmd]; unfinished_tasks := 1;
           outputq := [LogOutput DEBUG [Lit "New command message!"]];
           effects := [] |}.
Proof.
  split; [reflexivity|]. split; [reflexivity|]. split; [reflexivity|].
  apply (unrecognized_command_disposition no_estop_fault no_task_fault
           bogus_msg [("cmd", PyStr "bogus")] (PyStr "bogus")
           UtilityHandler.initial); reflexivity.
Defined.

End MessageWitnesses.

(** ** The measurement job *)

(** *** The job monad *)
Section MonadFacts.
Import Job.

Lemma bind_unfold {A B} (m : M A) (k : A -> M B) s :
  (m ≫= k) s =
    match m s with
    | (Ok a, s1, ev1) =>
        match k a s1 with
        | (r, s2, ev2) => (r, s2, ev1 ++ ev2)
        end
    | (Raise e, s1, ev1) => (Raise e, s1, ev1)
    | (OutOfFuel, s1, ev1) => (OutOfFuel, s1, ev1)
    end.
Proof. reflexivity. Qed.

Variable P : Event -> Prop.

Lemma emits_ret {A} (a : A) : emits_only P (mret a : M A).
Proof. intros s. constructor. Qed.

Lemma emits_raise {A} e : emits_only P (raise e : M A).
Proof. intros s. constructor. Qed.

Lemma emits_out_of_fuel {A} : emits_only P (out_of_fuel : M A).
Proof. intros s. constructor. Qed.

Lemma emits_gets {A} (f : St -> A) : emits_only P (gets f).
Proof. intros s. constructor. Qed.

Lemma emits_set_pixels q : emits_only P (set_pixels q).
Proof. intros s. constructor. Qed.

Lemma emits_lift {A} (x : Exc + A) : emits_only P (lift x).
Proof. destruct x; intros s; constructor. Qed.

Lemma emits_emit ev : Forall P ev -> emits_only P (emit ev).
Proof. intros H s. exact H. Qed.

Lemma emits_bind {A B} (m : M A) (k : A -> M B) :
  emits_only P m -> (forall a, emits_only P (k a)) -> emits_only P (m ≫= k).
Proof.
  intros Hm Hk s. rewrite bind_unfold. specialize (Hm s).
  destruct (m s) as [[[a|e|] s1] ev1]; simpl in *; try assumption.
  specialize (Hk a s1). destruct (k a s1) as [[r s2] ev2]. simpl in *.
  apply Forall_app. split; assumption.
Qed.

Lemma emits_when b (m : M unit) : emits_only P m -> emits_only P (when b m).
Proof. destruct b; simpl; [auto|]. intros _. apply (emits_ret tt). Qed.

End MonadFacts.

(** *** What the phases of a cycle emit *)

Ltac emits_step lemmas :=
  match goal with
  | |- Job.emits_only _ (_ ≫= _) => apply emits_bind; [|intros]
  | |- Job.emits_only _ (mret _) => apply emits_ret
  | |- Job.emits_only _ (Job.raise _) => apply emits_raise
  | |- Job.emits_only _ (Job.out_of_fuel) => apply emits_out_of_fuel
  | |- Job.emits_only _ (Job.gets _) => apply emits_gets
  | |- Job.emits_only _ (Job.lift _) => apply emits_lift
  | |- Job.emits_only _ (Job.set_pixels _) => apply emits_set_pixels
  | |- Job.emits_only _ (Job.when _ _) => apply emits_when
  | |- Job.emits_only _ (if ?b then _ else _) => destruct b
  | |- Job.emits_only _ (match ?x with _ => _ end) => destruct x
  | |- Job.emits_only _ _ => lemmas
  end.

Section PhaseFacts.
Import Job.
Variable env : Env.
Variable request : Request.

Lemma call_run c s :
  call env c s =
    (match raises env (ncalls s) c with Some e => Raise e | None => Ok tt end,
     {| pixels := if takes_pixels c
                  then queue_after env (ncalls s) c (pixels s) else pixels s;
        ncalls := S (ncalls s) |},
     [Call c]).
Proof. unfold call. destruct (raises env (ncalls s) c); reflexivity. Qed.

Lemma Forall_flat_map {A B} (P : B -> Prop) (f : A -> list B) l :
  (forall x, Forall P (f x)) -> Forall P (flat_map f l).
Proof.
  intros H. induction l as [|x l IH]; simpl; [constructor|].
  apply Forall_app. split; [apply H | exact IH].
Qed.

(** The data handler always returns and leaves the state alone. *)
Lemma handle_data_run dh data s :
  exists ev, handle_data dh data s = (Ok tt, s, ev).
Proof. eexists. reflexivity. Qed.

Lemma for_vt_run dh vt s :
  exists ev, for_vt dh vt s = (Ok tt, s, ev).
Proof.
  revert s. induction vt as [|d vt IH]; intros s; simpl.
  - eexists. reflexivity.
  - rewrite bind_unfold.
    destruct (handle_data_run dh d s) as [ev1 ->].
    destruct (IH s) as [ev2 ->]. eexists. reflexivity.
Qed.

Section Emits.
Variable P : Event -> Prop.
Hypothesis P_log : forall msg level, P (Append (_log msg level)).
Hypothesis P_clear : forall kind,
    P (Append {| pub_topic := "plotter/" +:+ kind +:+ "/clear";
                 pub_payload := PyStr ""; pub_retain := false |}).
Hypothesis P_data : forall kind pl,
    P (Append {| pub_topic := "data/raw/" +:+ kind;
                 pub_payload := pl; pub_retain := false |}).
Hypothesis P_call : forall c, body_call c = true -> P (Call c).

Lemma emits_call c : body_call c = true -> emits_only P (call env c).
Proof.
  intros Hc s. rewrite call_run. simpl. constructor; [auto|constructor].
Qed.

Lemma emits_log msg level : emits_only P (log msg level).
Proof. intros s. simpl. constructor; [apply P_log|constructor]. Qed.

Lemma emits_clear_plot kind : emits_only P (_clear_plot kind).
Proof. intros s. simpl. constructor; [apply P_clear|constructor]. Qed.

Lemma emits_handle_data dh data : emits_only P (handle_data dh data).
Proof.
  intros s. unfold handle_data, events_of. simpl.
  apply Forall_flat_map. intros [channel ch_data].
  destruct (dict_lookup (pixels s) channel); [|constructor].
  constructor; [apply P_data|constructor].
Qed.

Lemma emits_for_vt dh vt : emits_only P (for_vt dh vt).
Proof.
  induction vt as [|d vt IH]; simpl.
  - apply (emits_ret P tt).
  - apply emits_bind; [apply emits_handle_data | intros; exact IH].
Qed.

Ltac quiet_lemmas :=
  first [ apply emits_log | apply emits_clear_plot
        | apply emits_call; reflexivity | apply emits_for_vt
        | apply emits_handle_data ].

Lemma emits_steady_state sv : emits_only P (steady_state env sv).
Proof. unfold steady_state. repeat emits_step quiet_lemmas. Qed.

Lemma emits_track_max_power : emits_only P (track_max_power env).
Proof. unfold track_max_power. repeat emits_step quiet_lemmas. Qed.

Lemma emits_voc_phase le dh : emits_only P (voc_phase env request le dh).
Proof.
  unfold voc_phase.
  repeat emits_step ltac:(first [apply emits_steady_state | quiet_lemmas]).
Qed.

Lemma emits_sweep_body le dh sw : emits_only P (sweep_body env request le dh sw).
Proof. unfold sweep_body. repeat emits_step quiet_lemmas. Qed.

Lemma emits_for_sweeps le dh l : emits_only P (for_sweeps env request le dh l).
Proof.
  revert dh. induction l as [|sw l IH]; intros dh; simpl.
  - apply (emits_ret P dh).
  - apply emits_bind; [apply emits_sweep_body | intros; apply IH].
Qed.

Lemma emits_jsc_phase le dh : emits_only P (jsc_phase env request le dh).
Proof.
  unfold jsc_phase.
  repeat emits_step ltac:(first [apply emits_steady_state | quiet_lemmas]).
Qed.

(** With the live-device list and [daq/start] allowed as well, the
    whole of [_ivt] before its teardown emits only [P]. *)
Section Body.
Hypothesis P_live : forall ld, P (Append (live_devices ld)).
Hypothesis P_start :
  P (Append {| pub_topic := "daq/start"; pub_payload := PyStr "";
               pub_retain := false |}).

Lemma emits_live ld : emits_only P (emit [Append (live_devices ld)]).
Proof. intros s. simpl. constructor; [apply P_live|constructor]. Qed.

Lemma emits_mppt_phase le dh ld ssvocs :
  emits_only P (mppt_phase env le dh ld ssvocs).
Proof.
  unfold mppt_phase, mppt_reconcile.
  repeat emits_step
    ltac:(first [ apply emits_track_max_power | apply emits_live
                | apply (emits_live []) | quiet_lemmas ]).
Qed.

Lemma emits_ivt_cycle le loop ld :
  emits_only P (ivt_cycle env request le loop ld).
Proof.
  unfold ivt_cycle.
  repeat emits_step
    ltac:(first [ apply emits_voc_phase | apply emits_for_sweeps
                | apply emits_mppt_phase | apply emits_jsc_phase
                | quiet_lemmas ]).
Qed.

Lemma emits_ivt_loop fuel le loop ld :
  emits_only P (ivt_loop env request fuel le loop ld).
Proof.
  revert loop ld. induction fuel as [|fuel IH]; intros loop ld; simpl.
  - destruct ((loop <? cycles (args request)) || (cycles (args request) =? 0));
      [apply emits_out_of_fuel | apply (emits_ret P ld)].
  - destruct ((loop <? cycles (args request)) || (cycles (args request) =? 0));
      [|apply (emits_ret P ld)].
    apply emits_bind; [apply emits_ivt_cycle|].
    intros [[] ld']; [apply IH | apply (emits_ret P ld')].
Qed.

Lemma emits_ivt_body fuel le : emits_only P (ivt_body env request fuel le).
Proof.
  unfold ivt_body.
  repeat emits_step
    ltac:(first [ apply emits_ivt_loop | apply emits_live
                | apply emits_emit; constructor; [exact P_start|constructor]
                | quiet_lemmas ]).
Qed.

End Body.
End Emits.

End PhaseFacts.

(** *** Sweeps *)
Section SweepFacts.
Import Job.

(** C6. Sweep selector correctness.  When [sweep_check] is true the sweep
    list is [dark, light] for selector 0, [light, dark] for 1, [dark] for
    2 and [light] for 3; for any other selector it is empty, and then the
    sweep loop of a cycle makes no call and publishes nothing. *)
Theorem sweep_selector_correct (a : Args) :
  sweep_check a = true ->
  (lit_sweep a = 0 -> sweeps a = ["dark"; "light"]%string) /\
  (lit_sweep a = 1 -> sweeps a = ["light"; "dark"]%string) /\
  (lit_sweep a = 2 -> sweeps a = ["dark"]%string) /\
  (lit_sweep a = 3 -> sweeps a = ["light"]%string) /\
  (lit_sweep a <> 0 -> lit_sweep a <> 1 -> lit_sweep a <> 2 -> lit_sweep a <> 3 ->
     sweeps a = [] /\
     forall env request le dh s,
       args request = a ->
       for_sweeps env request le dh (sweeps (args request)) s = (Ok dh, s, [])).
Proof.
  intros Hc. unfold sweeps. rewrite Hc.
  split; [intros ->; reflexivity|].
  split; [intros ->; reflexivity|].
  split; [intros ->; reflexivity|].
  split; [intros ->; reflexivity|].
  intros N0 N1 N2 N3.
  apply Z.eqb_neq in N0, N1, N2, N3. rewrite N0, N1, N2, N3.
  split; [reflexivity|].
  intros env request le dh s ->. rewrite Hc, N0, N1, N2, N3. reflexivity.
Qed.

End SweepFacts.

Lemma sweep_selector_correct_witness :
  Job.sweeps (Samples.sample_args true 1 0 true) = ["dark"; "light"]%string /\
  Job.sweeps (Samples.sample_args true 1 1 true) = ["light"; "dark"]%string /\
  Job.sweeps (Samples.sample_args true 1 2 true) = ["dark"]%string /\
  Job.sweeps (Samples.sample_args true 1 3 true) = ["light"]%string /\
  Job.sweeps (Samples.sample_args true 1 4 true) = [].
Proof.
  split; [|split; [|split; [|split]]].
  - apply (sweep_selector_correct (Samples.sample_args true 1 0 true)); reflexivity.
  - apply (sweep_selector_correct (Samples.sample_args true 1 1 true)); reflexivity.
  - apply (sweep_selector_correct (Samples.sample_args true 1 2 true)); reflexivity.
  - apply (sweep_selector_correct (Samples.sample_args true 1 3 true)); reflexivity.
  - apply (sweep_selector_correct (Samples.sample_args true 1 4 true));
      [reflexivity | discriminate..].
Defined.

(** *** Pruning and the live-device list *)
Section PruningFacts.
Import Job.
Variable env : Env.
Variable request : Request.

Lemma bind_assoc {A B C} (m : M A) (f : A -> M B) (g : B -> M C) s :
  ((m ≫= f) ≫= g) s = (m ≫= (fun x => f x ≫= g)) s.
Proof.
  rewrite !bind_unfold.
  destruct (m s) as [[[a|e|] s1] ev1]; try reflexivity.
  rewrite bind_unfold.
  destruct (f a s1) as [[[b|e|] s2] ev2]; try reflexivity.
  destruct (g b s2) as [[r s3] ev3]. rewrite app_assoc. reflexivity.
Qed.


Lemma live_pubs_none ev : Forall not_live ev -> live_pubs ev = [].
Proof.
  induction 1 as [|e ev He _ IH]; [reflexivity|].
  unfold live_pubs in *. simpl. rewrite He. exact IH.
Qed.

Lemma clear_topic_not_live kind :
  String.eqb (kind +:+ "/clear") "live_devices" = false.
Proof.
  apply String.eqb_neq. intros H.
  repeat (destruct kind as [|? kind]; simpl in H;
          [discriminate H | first [discriminate H | injection H as _ H]]).
Qed.

Lemma not_live_log msg level : not_live (Append (_log msg level)).
Proof. reflexivity. Qed.

Lemma not_live_clear kind :
  not_live (Append {| pub_topic := "plotter/" +:+ kind +:+ "/clear";
                      pub_payload := PyStr ""; pub_retain := false |}).
Proof. exact (clear_topic_not_live kind). Qed.

Lemma not_live_data kind pl :
  not_live (Append {| pub_topic := "data/raw/" +:+ kind;
                      pub_payload := pl; pub_retain := false |}).
Proof. reflexivity. Qed.

Lemma not_live_call c : body_call c = true -> not_live (Call c).
Proof. reflexivity. Qed.

Create HintDb live.
Hint Resolve not_live_log not_live_clear not_live_data not_live_call : live.

Lemma for_vt_live dh vt s :
  exists ev, for_vt dh vt s = (Ok tt, s, ev) /\ live_pubs ev = [].
Proof.
  destruct (for_vt_run dh vt s) as [ev Hev]. exists ev. split; [exact Hev|].
  apply live_pubs_none.
  pose proof (emits_for_vt not_live not_live_data dh vt s) as H.
  rewrite Hev in H. exact H.
Qed.

(** Tracking raised: nothing is compared and nothing republished. *)
Lemma mppt_reconcile_raises dh ld s e :
  raises env (ncalls s) TrackMaxPower = Some e ->
  mppt_reconcile env dh ld s =
    (Raise e,
     {| pixels := queue_after env (ncalls s) TrackMaxPower (pixels s);
        ncalls := S (ncalls s) |},
     [Call TrackMaxPower]).
Proof.
  intros Hr. unfold mppt_reconcile, track_max_power.
  unfold gets, mbind, M_bind, bind, mret, M_ret, ret.
  rewrite !call_run. simpl. rewrite Hr. reflexivity.
Qed.

(** Tracking returned: the three outcomes of the comparison. *)
Lemma mppt_reconcile_live dh ld s :
  raises env (ncalls s) TrackMaxPower = None ->
  let x := mppt_reconcile env dh ld s in
  let pre := pixels s in
  let post := queue_after env (ncalls s) TrackMaxPower (pixels s) in
  pixels (st_of x) = post /\
  (length post = length pre ->
     live_pubs (events_of x) = [] /\
     exists dh', res_of x = Ok (Continue, dh', ld)) /\
  (length post <> length pre -> length post <> O ->
     live_pubs (events_of x) = [Append (live_devices (labels post))] /\
     exists dh', res_of x = Ok (Continue, dh', labels post)) /\
  (length post <> length pre -> length post = O ->
     events_of x = [Call TrackMaxPower;
                    Append (_log "No devices left to measure." WARNING);
                    Append (live_devices [])] /\
     exists dh', res_of x = Ok (Break, dh', ld)).
Proof.
  intros Hr. unfold mppt_reconcile, track_max_power.
  unfold log, append_payload, emit, gets.
  unfold mbind, M_bind, bind, mret, M_ret, ret.
  rewrite !call_run. simpl. rewrite Hr. simpl.
  set (q := queue_after env (ncalls s) TrackMaxPower (pixels s)).
  destruct (Nat.eqb (length (pixels s)) (length q)) eqn:Hsame; simpl.
  - apply Nat.eqb_eq in Hsame.
    destruct (Nat.ltb 0 (length (track_max_power_vt env (ncalls s)))); simpl.
    + match goal with
      | |- context [for_vt ?d ?v ?st] =>
          destruct (for_vt_live d v st) as [ev [-> Hev]]
      end.
      simpl. rewrite app_nil_r.
      repeat split; try congruence; eauto.
    + repeat split; try congruence; eauto.
  - apply Nat.eqb_neq in Hsame.
    destruct (Nat.eqb (length q) 0) eqn:Hzero; simpl.
    + apply Nat.eqb_eq in Hzero.
      repeat split; try congruence; eauto.
    + apply Nat.eqb_neq in Hzero.
      destruct (Nat.ltb 0 (length (track_max_power_vt env (ncalls s)))); simpl.
      * match goal with
        | |- context [for_vt ?d ?v ?st] =>
            destruct (for_vt_live d v st) as [ev [-> Hev]]
        end.
        simpl. rewrite app_nil_r.
        repeat split; try congruence; eauto.
      * repeat split; try congruence; eauto.
Qed.






End PruningFacts.


(** *** Results a computation cannot end in *)
Section AvoidFacts.
Import Job.
Variable bad : forall A, Res A -> bool.
Hypothesis bad_ok : forall A (a : A), bad A (Ok a) = false.
Hypothesis bad_raise : forall A B e, bad A (Raise e) = bad B (Raise e).
Hypothesis bad_fuel : forall A B, bad A OutOfFuel = bad B OutOfFuel.

Lemma avoids_ret {A} (a : A) : avoids bad (mret a : M A).
Proof. intros s. apply bad_ok. Qed.

Lemma avoids_emit ev : avoids bad (emit ev).
Proof. intros s. apply bad_ok. Qed.

Lemma avoids_gets {A} (f : St -> A) : avoids bad (gets f).
Proof. intros s. apply bad_ok. Qed.

Lemma avoids_set_pixels q : avoids bad (set_pixels q).
Proof. intros s. apply bad_ok. Qed.

Lemma avoids_log msg level : avoids bad (log msg level).
Proof. intros s. apply bad_ok. Qed.

Lemma avoids_append_payload tpc pl retain :
  avoids bad (append_payload tpc pl retain).
Proof. intros s. apply bad_ok. Qed.

Lemma avoids_clear_plot kind : avoids bad (_clear_plot kind).
Proof. intros s. apply bad_ok. Qed.

Lemma avoids_handle_data dh data : avoids bad (handle_data dh data).
Proof. intros s. apply bad_ok. Qed.

Lemma avoids_bind {A B} (m : M A) (k : A -> M B) :
  avoids bad m -> (forall a, avoids bad (k a)) -> avoids bad (m ≫= k).
Proof.
  intros Hm Hk s. rewrite bind_unfold. specialize (Hm s).
  destruct (m s) as [[[a|e|] s1] ev1]; unfold res_of in *; simpl in *.
  - specialize (Hk a s1). unfold res_of in Hk.
    destruct (k a s1) as [[r s2] ev2]. exact Hk.
  - rewrite (bad_raise B A). exact Hm.
  - rewrite (bad_fuel B A). exact Hm.
Qed.

Lemma avoids_when b (m : M unit) : avoids bad m -> avoids bad (when b m).
Proof. destruct b; simpl; [auto|]. intros _. apply (avoids_ret tt). Qed.

Lemma avoids_with {A} enter leave (body : M A) :
  avoids bad body -> avoids bad (with_ enter leave body).
Proof.
  intros Hb s. unfold with_. specialize (Hb s).
  destruct (body s) as [[r s1] ev]. exact Hb.
Qed.

Lemma avoids_for_vt dh vt : avoids bad (for_vt dh vt).
Proof.
  induction vt as [|d vt IH]; simpl.
  - apply (avoids_ret tt).
  - apply avoids_bind; [apply avoids_handle_data | intros; exact IH].
Qed.

(** A handler that takes every exception decides the result. *)
Lemma avoids_try_except {A} (body : M A) (handler : Exc -> M A) :
  (forall e, avoids bad (handler e)) ->
  bad A OutOfFuel = false \/ avoids bad body ->
  avoids bad (try_except body (fun _ => true) handler).
Proof.
  intros Hh Hf s. unfold try_except.
  destruct (body s) as [[[a|e|] s1] ev1] eqn:Hrun; unfold res_of; simpl.
  - apply bad_ok.
  - specialize (Hh e s1). unfold res_of in Hh.
    destruct (handler e s1) as [[r s2] ev2]. exact Hh.
  - destruct Hf as [Hf|Hf]; [exact Hf|].
    specialize (Hf s). rewrite Hrun in Hf. exact Hf.
Qed.

End AvoidFacts.

Ltac avoid_step lemmas :=
  match goal with
  | |- Job.avoids _ (_ ≫= _) =>
      apply avoids_bind; [try (intros; reflexivity)..| |intros]
  | |- Job.avoids _ (mret _) => apply avoids_ret; intros; reflexivity
  | |- Job.avoids _ (Job.emit _) => apply avoids_emit; intros; reflexivity
  | |- Job.avoids _ (Job.gets _) => apply avoids_gets; intros; reflexivity
  | |- Job.avoids _ (Job.set_pixels _) => apply avoids_set_pixels; intros; reflexivity
  | |- Job.avoids _ (Job.log _ _) => apply avoids_log; intros; reflexivity
  | |- Job.avoids _ (Job.append_payload _ _ _) =>
      apply avoids_append_payload; intros; reflexivity
  | |- Job.avoids _ (Job._clear_plot _) => apply avoids_clear_plot; intros; reflexivity
  | |- Job.avoids _ (Job.for_vt _ _) =>
      apply avoids_for_vt; intros; reflexivity
  | |- Job.avoids _ (Job.when _ _) => apply avoids_when; [intros; reflexivity|]
  | |- Job.avoids _ (Job.with_ _ _ _) => apply avoids_with
  | |- Job.avoids _ (if ?b then _ else _) => destruct b
  | |- Job.avoids _ (match ?x with _ => _ end) => destruct x
  | |- Job.avoids _ _ => lemmas
  end.

(** *** The sequencer stops by itself, given fuel for its cycles *)
Section FuelFacts.
Import Job.
Variable env : Env.
Variable request : Request.

Lemma starve_call c : never_starves (call env c).
Proof. intros s. rewrite call_run. destruct (raises env (ncalls s) c); reflexivity. Qed.

Lemma starve_raise {A} e : never_starves (raise e : M A).
Proof. intros s. reflexivity. Qed.

Lemma starve_lift {A} (x : Exc + A) : never_starves (lift x).
Proof. destruct x; intros s; reflexivity. Qed.

Ltac starve_base :=
  first [ apply starve_call | apply starve_raise | apply starve_lift ].

Lemma starve_steady_state sv : never_starves (steady_state env sv).
Proof. unfold never_starves, steady_state. repeat avoid_step starve_base. Qed.

Lemma starve_track_max_power : never_starves (track_max_power env).
Proof. unfold never_starves, track_max_power. repeat avoid_step starve_base. Qed.

Lemma starve_voc_phase le dh : never_starves (voc_phase env request le dh).
Proof.
  unfold never_starves, voc_phase.
  repeat avoid_step ltac:(first [apply starve_steady_state | starve_base]).
Qed.

Lemma starve_sweep_body le dh sw : never_starves (sweep_body env request le dh sw).
Proof. unfold never_starves, sweep_body. repeat avoid_step starve_base. Qed.

Lemma starve_for_sweeps le dh l : never_starves (for_sweeps env request le dh l).
Proof.
  revert dh. induction l as [|sw l IH]; intros dh; simpl.
  - intros s. reflexivity.
  - apply avoids_bind; try (intros; reflexivity);
      [apply starve_sweep_body | intros; apply IH].
Qed.

Lemma starve_mppt_phase le dh ld ssvocs :
  never_starves (mppt_phase env le dh ld ssvocs).
Proof.
  unfold never_starves, mppt_phase, mppt_reconcile.
  repeat avoid_step ltac:(first [apply starve_track_max_power | starve_base]).
Qed.

Lemma starve_jsc_phase le dh : never_starves (jsc_phase env request le dh).
Proof.
  unfold never_starves, jsc_phase.
  repeat avoid_step ltac:(first [apply starve_steady_state | starve_base]).
Qed.

Lemma starve_ivt_cycle le loop ld : never_starves (ivt_cycle env request le loop ld).
Proof.
  unfold never_starves, ivt_cycle.
  repeat avoid_step
    ltac:(first [ apply starve_voc_phase | apply starve_for_sweeps
                | apply starve_mppt_phase | apply starve_jsc_phase
                | starve_base ]).
Qed.

(** With a positive number of cycles, fuel for the cycles that are left
    is enough for the loop. *)
Lemma ivt_loop_stops fuel le loop ld s :
  0 < cycles (args request) ->
  (Z.to_nat (cycles (args request) - loop) <= fuel)%nat ->
  is_out_of_fuel _ (res_of (ivt_loop env request fuel le loop ld s)) = false.
Proof.
  intros Hpos. revert loop ld s.
  induction fuel as [|fuel IH]; intros loop ld s Hfuel; simpl.
  - destruct (loop <? cycles (args request)) eqn:Hlt; simpl.
    + apply Z.ltb_lt in Hlt. lia.
    + destruct (cycles (args request) =? 0) eqn:Hz; [|reflexivity].
      apply Z.eqb_eq in Hz. lia.
  - destruct (loop <? cycles (args request)) eqn:Hlt; simpl.
    + apply Z.ltb_lt in Hlt. rewrite bind_unfold.
      pose proof (starve_ivt_cycle le (loop + 1) ld s) as Hc.
      unfold res_of in *.
      destruct (ivt_cycle env request le (loop + 1) ld s)
        as [[[[[|] ld']|e|] s1] ev1]; simpl in *; try reflexivity;
        try discriminate Hc.
      specialize (IH (loop + 1) ld' s1 ltac:(lia)).
      destruct (ivt_loop env request fuel le (loop + 1) ld' s1) as [[r s2] ev2].
      exact IH.
    + destruct (cycles (args request) =? 0) eqn:Hz; [|reflexivity].
      apply Z.eqb_eq in Hz. lia.
Qed.

Lemma starve_ivt_body fuel le q :
  0 < cycles (args request) ->
  (Z.to_nat (cycles (args request)) <= fuel)%nat ->
  never_starves (set_pixels q;; ivt_body env request fuel le).
Proof.
  intros Hpos Hfuel. unfold never_starves, ivt_body.
  repeat avoid_step
    ltac:(first [ starve_base
                | intros s; apply ivt_loop_stops;
                  [exact Hpos | rewrite Z.sub_0_r; exact Hfuel] ]).
Qed.

Lemma starve_calibrate_spectrum : never_starves (_calibrate_spectrum env).
Proof.
  unfold never_starves, _calibrate_spectrum.
  apply avoids_with.
  apply avoids_bind; try (intros; reflexivity);
    [|intros; repeat avoid_step starve_base].
  apply avoids_try_except; try (intros; reflexivity).
  - intros [|cls text]; repeat avoid_step starve_base.
  - right. repeat avoid_step starve_base.
Qed.

End FuelFacts.

(** *** Teardown *)
Section TeardownFacts.
Import Job.
Variable env : Env.
Variable request : Request.

Lemma no_mark_call c : body_call c = true -> no_teardown_mark (Call c).
Proof. destruct c; simpl; try discriminate; reflexivity. Qed.

(** Nothing before the teardown disables the source or stops the DAQ. *)
Lemma body_has_no_teardown_mark fuel le q :
  emits_only no_teardown_mark (set_pixels q;; ivt_body env request fuel le).
Proof.
  apply emits_bind; [apply emits_set_pixels|intros _].
  apply emits_ivt_body; try (intros; reflexivity).
  apply no_mark_call.
Qed.

Lemma ivt_split fuel q s :
  _ivt env request fuel q s =
    ((set_pixels q;; ivt_body env request fuel
                       (has_le env (enable_solarsim (args request))))
       ≫= ivt_teardown env (has_le env (enable_solarsim (args request)))) s.
Proof. unfold _ivt. rewrite bind_assoc. reflexivity. Qed.

(** The teardown, step by step: the empty list and the call that
    disables the source always come first; the light and [daq/stop]
    follow when the calls before them return. *)
Lemma ivt_teardown_events le ld s :
  let t := ivt_teardown env le ld s in
  (exists rest,
      events_of t =
        Append (live_devices []) :: Call (EnableOutput false) :: rest) /\
  (res_of t = Ok tt ->
     events_of t =
       [Append (live_devices []); Call (EnableOutput false)]
       ++ (if le then [Call LeOff] else [])
       ++ [Append {| pub_topic := "daq/stop"; pub_payload := PyStr "";
                     pub_retain := false |}]) /\
  (raises env (ncalls s) (EnableOutput false) = None ->
   (le = true -> raises env (S (ncalls s)) LeOff = None) ->
   res_of t = Ok tt).
Proof.
  unfold ivt_teardown, when, append_payload, emit.
  unfold mbind, M_bind, bind, mret, M_ret, ret.
  rewrite !call_run. simpl.
  destruct (raises env (ncalls s) (EnableOutput false)) as [e|]; simpl.
  - split; [eexists; reflexivity|]. split; [discriminate|discriminate].
  - destruct le; simpl.
    + rewrite !call_run. simpl.
      destruct (raises env (S (ncalls s)) LeOff) as [e|]; simpl.
      * split; [eexists; reflexivity|]. split; [discriminate|].
        intros _ H. specialize (H eq_refl). discriminate H.
      * split; [eexists; reflexivity|]. split; reflexivity.
    + split; [eexists; reflexivity|]. split; reflexivity.
Qed.

Lemma run_never_raises fuel : never_raises (_run env request fuel).
Proof.
  unfold never_raises, _run, _calibrate_spectrum, daq_check.
  repeat avoid_step
    ltac:(first [ apply avoids_try_except;
                  [ try (intros; reflexivity)..
                  | intros [|? ?]
                  | left; reflexivity ] ]).
Qed.

Lemma run_ends_ready fuel s :
  res_of (_run env request fuel s) = Ok tt ->
  exists evs, events_of (_run env request fuel s) = evs ++ [status_ready].
Proof.
  unfold _run. rewrite <- !bind_assoc. rewrite bind_unfold.
  match goal with
  | |- context [match ?m s with _ => _ end] => destruct (m s) as [[[a|e|] s1] ev1]
  end; unfold res_of, events_of; simpl; try discriminate.
  intros _. exists ev1. reflexivity.
Qed.

(** C2, amended. Teardown of [_ivt].  Nothing [_ivt] does before its
    teardown disables the source or publishes [daq/stop].  With a
    positive cycle count and fuel for that many cycles the loop stops by
    itself.  When the loop ends without an exception -- all cycles done,
    or the [break] on an exhausted device queue -- the teardown runs
    once, after everything else: the retained empty live-device list is
    published and [enable_output(False)] is called; when that call
    returns the light (if present) is switched off, and when that
    returns [daq/stop] is published.  When a phase inside the loop raises
    (a fault or the KeyboardInterrupt of a user interrupt) the exception
    leaves [_ivt] and the teardown does not run.  [_run] lets no
    exception out and, when it returns, its last event is the retained
    status "Ready". *)
Theorem ivt_teardown_after_loop fuel q s :
  let le := has_le env (enable_solarsim (args request)) in
  let b := (set_pixels q;; ivt_body env request fuel le) s in
  let r := _ivt env request fuel q s in
  Forall no_teardown_mark (events_of b) /\
  (0 < cycles (args request) ->
   (Z.to_nat (cycles (args request)) <= fuel)%nat ->
   is_out_of_fuel _ (res_of b) = false) /\
  (forall ld,
      res_of b = Ok ld ->
      let t := ivt_teardown env le ld (st_of b) in
      r = (res_of t, st_of t, events_of b ++ events_of t) /\
      (exists rest,
          events_of t =
            Append (live_devices []) :: Call (EnableOutput false) :: rest) /\
      (res_of t = Ok tt ->
         events_of t =
           [Append (live_devices []); Call (EnableOutput false)]
           ++ (if le then [Call LeOff] else [])
           ++ [Append {| pub_topic := "daq/stop"; pub_payload := PyStr "";
                         pub_retain := false |}]) /\
      (raises env (ncalls (st_of b)) (EnableOutput false) = None ->
       (le = true -> raises env (S (ncalls (st_of b))) LeOff = None) ->
       res_of t = Ok tt)) /\
  (forall e, res_of b = Raise e -> r = (Raise e, st_of b, events_of b)) /\
  (forall fuel' s',
      is_raise _ (res_of (_run env request fuel' s')) = false /\
      (res_of (_run env request fuel' s') = Ok tt ->
       exists evs, events_of (_run env request fuel' s') = evs ++ [status_ready])).
Proof.
  intros le b r.
  split; [apply body_has_no_teardown_mark|].
  split.
  { intros Hpos Hfuel. apply starve_ivt_body; assumption. }
  split.
  { intros ld Hb t. subst r t. rewrite ivt_split. fold le. fold b.
    rewrite bind_unfold. fold b.
    destruct b as [[rb sb] evb]. unfold res_of, st_of, events_of in *.
    simpl in *. subst rb.
    pose proof (ivt_teardown_events le ld sb) as (H1 & H2 & H3).
    unfold res_of, st_of, events_of in *.
    destruct (ivt_teardown env le ld sb) as [[rt st'] evt]. simpl in *.
    auto. }
  split.
  { intros e Hb. subst r. rewrite ivt_split. fold le. rewrite bind_unfold. fold b.
    destruct b as [[rb sb] evb]. unfold res_of, st_of, events_of in *.
    simpl in *. subst rb. reflexivity. }
  intros fuel' s'. split; [apply run_never_raises|apply run_ends_ready].
Qed.

End TeardownFacts.

(** C2, as stated, fails: a fault raised by max-power tracking in the
    first cycle leaves [_ivt] before its teardown.  The calls made end with
    the tracking call: the source output is never disabled, the light
    (present here) is left on, and [daq/stop] is never published; [_run]
    logs the fault and publishes "Ready".  The same holds when tracking is
    interrupted by KeyboardInterrupt. *)
Lemma fault_in_tracking_skips_teardown :
  let fault := Exception InstrumentError "tracker lost" in
  let r := Job._run (Samples.failing_env fault) (Samples.sample_request true 1)
             1 Job.start in
  let r' := Job._run (Samples.failing_env KeyboardInterrupt)
              (Samples.sample_request true 1) 1 Job.start in
  Job.res_of r = Job.Ok tt /\
  List.filter Job.is_call (Job.events_of r) =
    [Job.Call (Job.ConnectInstruments false true); Job.Call Job.SetIntensity;
     Job.Call Job.MeasureSpectrum;
     Job.Call (Job.ConnectInstruments true true); Job.Call Job.SetIntensity;
     Job.Call (Job.ComplianceCurrentGuess 1); Job.Call Job.LeOn;
     Job.Call Job.TrackMaxPower] /\
  List.filter Job.is_teardown_mark (Job.events_of r) = [] /\
  List.last (Job.events_of r) Job.DaqInitGet = Job.status_ready /\
  List.filter Job.is_teardown_mark (Job.events_of r') = [] /\
  List.last (Job.events_of r') Job.DaqInitGet = Job.status_ready.
Proof. vm_compute. repeat split. Qed.

Lemma ivt_teardown_after_loop_witness :
  let env := Samples.quiet_env Samples.daq_ok in
  let request := Samples.sample_request true 2 in
  let b := (Job.set_pixels Samples.two_pixels;;
            Job.ivt_body env request 2 true) Job.start in
  let request' := Samples.sample_request true 0 in
  let b' := (Job.set_pixels Samples.two_pixels;;
             Job.ivt_body Samples.pruning_env request' 2 true) Job.start in
  (Job.res_of b = Job.Ok ["a1"; "b1"]%string /\
   Job.events_of (Job.ivt_teardown env true ["a1"; "b1"]%string (Job.st_of b)) =
     [Job.Append (Job.live_devices []); Job.Call (Job.EnableOutput false);
      Job.Call Job.LeOff;
      Job.Append {| pub_topic := "daq/stop"; pub_payload := PyStr "";
                    pub_retain := false |}]) /\
  (Job.res_of b' = Job.Ok ["b1"%string] /\
   Job.pixels (Job.st_of b') = [] /\
   Job.events_of
     (Job.ivt_teardown Samples.pruning_env true ["b1"%string] (Job.st_of b')) =
     [Job.Append (Job.live_devices []); Job.Call (Job.EnableOutput false);
      Job.Call Job.LeOff;
      Job.Append {| pub_topic := "daq/stop"; pub_payload := PyStr "";
                    pub_retain := false |}]).
Proof.
  cbv zeta. split.
  - split; [vm_compute; reflexivity|].
    pose proof (ivt_teardown_after_loop (Samples.quiet_env Samples.daq_ok)
                  (Samples.sample_request true 2) 2 Samples.two_pixels Job.start)
      as (_ & _ & Hdone & _).
    destruct (Hdone ["a1"; "b1"]%string ltac:(vm_compute; reflexivity))
      as (_ & _ & Hall & _).
    apply Hall. vm_compute; reflexivity.
  - split; [vm_compute; reflexivity|]. split; [vm_compute; reflexivity|].
    pose proof (ivt_teardown_after_loop Samples.pruning_env
                  (Samples.sample_request true 0) 2 Samples.two_pixels Job.start)
      as (_ & _ & Hdone & _).
    destruct (Hdone ["b1"%string] ltac:(vm_compute; reflexivity))
      as (_ & _ & Hall & _).
    apply Hall. vm_compute; reflexivity.
Defined.

(** *** The DAQ readiness check *)
Section DaqFacts.
Import Job.
Variable env : Env.
Variable request : Request.

Lemma ret_bind {A B} (a : A) (k : A -> M B) s : (mret a ≫= k) s = k a s.
Proof. rewrite bind_unfold. simpl. destruct (k a s) as [[r s1] ev]. reflexivity. Qed.

Lemma calibrate_never_raises : never_raises (_calibrate_spectrum env).
Proof.
  unfold never_raises, _calibrate_spectrum.
  repeat avoid_step
    ltac:(first [ apply avoids_try_except;
                  [ try (intros; reflexivity)..
                  | intros [|? ?]
                  | left; reflexivity ] ]).
Qed.

Lemma calibrate_returns s :
  exists user_aborted, res_of (_calibrate_spectrum env s) = Ok user_aborted.
Proof.
  pose proof (calibrate_never_raises s) as Hr.
  pose proof (starve_calibrate_spectrum env s) as Hf.
  destruct (res_of (_calibrate_spectrum env s)) as [b|e|];
    [eauto | discriminate Hr | discriminate Hf].
Qed.

Lemma daq_check_not_ready s :
  (exists text, daq_init_get env = inl (Exception QueueEmpty text)) \/
  (exists m, daq_init_get env = inr m /\
             getitem m "init_success" = inr (PyBool false)) ->
  daq_check env s =
    (Ok true, s,
     [PublisherEnter; Append (_log "Checking DAQ status..." INFO);
      PublisherExit; DaqInitGet]).
Proof.
  intros [[text H] | [m [H Hm]]]; unfold daq_check; rewrite bind_unfold; simpl;
    rewrite H; [reflexivity|]. rewrite Hm. reflexivity.
Qed.

(** C5, amended. DAQ readiness rendezvous.  When no readiness message
    arrives within the 30 seconds, or the message arrives with
    [init_success] false, the check marks the run user-aborted, and the
    run ends with the level-40 log "RUN ABORTED!" followed by the
    retained status "Ready"; no measurement fabric is entered and no
    instrument is connected from the check on.  A run that needs no
    spectrum calibration makes no instrument call at all; a run with
    [IV_stuff] and the solar simulator enabled has calibrated the
    spectrum before the check, which connects the light source. *)
Theorem daq_not_ready_aborts fuel s :
  (exists text, daq_init_get env = inl (Exception QueueEmpty text)) \/
  (exists m, daq_init_get env = inr m /\
             getitem m "init_success" = inr (PyBool false)) ->
  let r := _run env request fuel s in
  let c := _calibrate_spectrum env s in
  let daq_events :=
    [PublisherEnter; Append (_log "Checking DAQ status..." INFO);
     PublisherExit; DaqInitGet] in
  let abort_events :=
    [PublisherEnter; Append (_log "RUN ABORTED!" ERROR); PublisherExit;
     status_ready] in
  (forall s', daq_check env s' = (Ok true, s', daq_events)) /\
  (has_IV_stuff request && enable_solarsim (args request) = false ->
   r = (Ok tt, s, daq_events ++ abort_events)) /\
  (has_IV_stuff request && enable_solarsim (args request) = true ->
   exists user_aborted,
     res_of c = Ok user_aborted /\
     r = (Ok tt, st_of c,
          events_of c ++ (if user_aborted then [] else daq_events)
          ++ abort_events)).
Proof.
  intros Hdaq r c daq_events abort_events.
  split; [intros s'; apply daq_check_not_ready; exact Hdaq|].
  split.
  - intros Hcal. subst r. unfold _run. rewrite Hcal.
    rewrite ret_bind. cbn [negb]. rewrite bind_unfold.
    rewrite (daq_check_not_ready s Hdaq). reflexivity.
  - intros Hcal. subst r c. unfold _run. rewrite Hcal.
    destruct (calibrate_returns s) as [b Hb]. exists b. split; [exact Hb|].
    rewrite !bind_unfold.
    destruct (_calibrate_spectrum env s) as [[rc sc] evc].
    unfold res_of, st_of, events_of in *. simpl in *. subst rc.
    destruct b; cbn [negb].
    + rewrite ret_bind. simpl. reflexivity.
    + rewrite bind_unfold, (daq_check_not_ready sc Hdaq). simpl.
      reflexivity.
Qed.

End DaqFacts.

Lemma daq_not_ready_aborts_witness :
  (Job.daq_init_get (Samples.quiet_env Samples.daq_timeout)
     = inl (Exception QueueEmpty "") /\
   Job._run (Samples.quiet_env Samples.daq_timeout)
        (Samples.sample_request false 1) 1 Job.start =
     (Job.Ok tt, Job.start,
      [Job.PublisherEnter; Job.Append (_log "Checking DAQ status..." INFO);
       Job.PublisherExit; Job.DaqInitGet]
      ++ [Job.PublisherEnter; Job.Append (_log "RUN ABORTED!" ERROR);
          Job.PublisherExit; Job.status_ready])) /\
  (getitem (PyDict [("init_success", PyBool false)]) "init_success"
     = inr (PyBool false) /\
   Job._run (Samples.quiet_env Samples.daq_failed)
        (Samples.sample_request false 1) 1 Job.start =
     (Job.Ok tt, Job.start,
      [Job.PublisherEnter; Job.Append (_log "Checking DAQ status..." INFO);
       Job.PublisherExit; Job.DaqInitGet]
      ++ [Job.PublisherEnter; Job.Append (_log "RUN ABORTED!" ERROR);
          Job.PublisherExit; Job.status_ready])).
Proof.
  split; (split; [reflexivity|]).
  - apply (daq_not_ready_aborts (Samples.quiet_env Samples.daq_timeout)
             (Samples.sample_request false 1) 1 Job.start).
    + left. exists ""%string. reflexivity.
    + reflexivity.
  - apply (daq_not_ready_aborts (Samples.quiet_env Samples.daq_failed)
             (Samples.sample_request false 1) 1 Job.start).
    + right. exists (PyDict [("init_success", PyBool false)]).
      split; reflexivity.
    + reflexivity.
Defined.

(** C5, as stated, fails: with [IV_stuff] present and the solar simulator
    enabled, the spectrum calibration comes before the readiness check, so
    the run that then times out on the DAQ has already connected the light
    source and measured with it. *)
Lemma daq_timeout_after_calibration_connects :
  let r := Job._run (Samples.quiet_env Samples.daq_timeout)
             (Samples.sample_request true 1) 1 Job.start in
  Job.daq_init_get (Samples.quiet_env Samples.daq_timeout)
    = inl (Exception QueueEmpty "") /\
  Job.res_of r = Job.Ok tt /\
  List.filter Job.is_call (Job.events_of r) =
    [Job.Call (Job.ConnectInstruments false true); Job.Call Job.SetIntensity;
     Job.Call Job.MeasureSpectrum] /\
  List.last (Job.events_of r) Job.DaqInitGet = Job.status_ready.
Proof. vm_compute. repeat split. Qed.

(** * Further properties *)

(** ** The supervisor over its runs *)
Section WatchFacts.
Import Supervisor Watch.
Variable host : string.

Lemma subscribed_channel t :
  subscribed t = true -> hd EmptyString (split "/" t) = "measurement".
Proof.
  unfold subscribed. intros H. apply orb_true_iff in H. destruct H as [H|H].
  - apply String.eqb_eq in H. subst t. reflexivity.
  - do 12 (destruct t as [|c t]; [discriminate H|];
           simpl in H;
           match type of H with
           | (if ?d then _ else _) = true =>
               destruct d as [e|ne]; [subst c|discriminate H]
           end).
    simpl. destruct (split "/" t); reflexivity.
Qed.

Lemma start_process_no_daq_put w process request :
  List.filter is_daq_put (actions (snd (start_process host w process request)))
  = List.filter is_daq_put (actions w).
Proof.
  unfold start_process. destruct (negb (is_alive w process)); simpl;
    rewrite ?List.filter_app; simpl; rewrite ?app_nil_r; reflexivity.
Qed.

Lemma stop_process_no_daq_put w process :
  List.filter is_daq_put (actions (snd (stop_process host w process)))
  = List.filter is_daq_put (actions w).
Proof.
  unfold stop_process. destruct (is_alive w process); [destruct process|];
    simpl; rewrite ?List.filter_app; simpl; rewrite ?app_nil_r; reflexivity.
Qed.

Lemma subscribed_step_no_daq_put process w msg :
  subscribed (topic msg) = true ->
  List.filter is_daq_put (actions (snd (msg_handler_step host (process, w) msg)))
  = List.filter is_daq_put (actions w).
Proof.
  intros Hsub. apply subscribed_channel in Hsub.
  unfold msg_handler_step.
  destruct (dispatch host msg w process) as [e|st'] eqn:Hd.
  - simpl. rewrite List.filter_app. simpl. apply app_nil_r.
  - unfold dispatch in Hd. rewrite Hsub in Hd. simpl in Hd.
    repeat match type of Hd with
           | context [match ?x with _ => _ end] => destruct x eqn:?
           end;
      inversion Hd; subst;
      auto using start_process_no_daq_put, stop_process_no_daq_put.
Qed.

(** X1. [main] subscribes to [measurement/#] only.  Whatever messages
    arrive under that subscription, in whatever state, [msg_handler]
    hands none of them to the DAQ readiness queue: its [daq/init] branch
    is never taken. *)
Theorem daq_init_never_forwarded msgs st :
  Forall (fun m => subscribed (topic m) = true) msgs ->
  List.filter is_daq_put (actions (snd (msg_handler host msgs st)))
  = List.filter is_daq_put (actions (snd st)).
Proof.
  intros Hall. revert st. induction Hall as [|msg msgs Hsub _ IH]; intros st.
  - reflexivity.
  - unfold msg_handler in *. simpl. rewrite IH. destruct st as [process w].
    apply subscribed_step_no_daq_put. exact Hsub.
Qed.

Lemma signals_ok_app known pending a b :
  signals_ok known pending a = true ->
  signals_ok known pending (a ++ b) = signals_ok (spawned a ∪ known) None b.
Proof.
  revert known pending.
  induction a as [|x a IH]; intros known pending H; simpl in *.
  - apply bool_decide_eq_true in H. subst pending.
    f_equal. symmetry. apply leibniz_equiv. set_solver.
  - destruct x; simpl in *;
      repeat match type of H with
             | _ && _ = true => apply andb_true_iff in H; destruct H as [H ?]
             end;
      rewrite ?H; simpl;
      repeat match goal with
             | E : bool_decide _ = true |- _ => rewrite E; clear E
             | E : signals_ok _ _ _ = true |- _ => rewrite (IH _ _ E); clear E
             end;
      simpl; try reflexivity.
    f_equal. apply leibniz_equiv. set_solver.
Qed.

Lemma spawned_app a b : spawned (a ++ b) = spawned a ∪ spawned b.
Proof.
  induction a as [|x a IH]; simpl.
  - apply leibniz_equiv. set_solver.
  - destruct x; simpl; rewrite ?IH; try reflexivity.
    apply leibniz_equiv. set_solver.
Qed.

Lemma orderly_act st a :
  orderly st ->
  signals_ok (spawned (actions (snd st))) None a = true ->
  spawned a = ∅ ->
  orderly (fst st, act a (snd st)).
Proof.
  intros [Hok Hh] Ha Hs. split; simpl.
  - rewrite (signals_ok_app _ _ _ _ Hok).
    replace (spawned (actions st.2) ∪ ∅) with (spawned (actions st.2))
      by (apply leibniz_equiv; set_solver).
    exact Ha.
  - intros pid Hp. rewrite spawned_app, Hs. apply Hh in Hp. set_solver.
Qed.

Lemma start_process_orderly process w request :
  orderly (process, w) -> orderly (start_process host w process request).
Proof.
  intros Hinv. unfold start_process.
  destruct (negb (is_alive w process)).
  - destruct Hinv as [Hok Hh]. simpl in *. split; simpl.
    + rewrite <- app_assoc. rewrite (signals_ok_app _ _ _ _ Hok). reflexivity.
    + intros pid [= <-]. rewrite <- app_assoc, spawned_app. simpl. set_solver.
  - apply (orderly_act (process, w)); [exact Hinv|reflexivity|reflexivity].
Qed.

Lemma stop_process_orderly process w :
  orderly (process, w) -> orderly (stop_process host w process).
Proof.
  intros Hinv. unfold stop_process.
  destruct (is_alive w process).
  - destruct process as [|pid]; [exact Hinv|].
    destruct Hinv as [Hok Hh]. simpl in *.
    pose proof (Hh pid eq_refl) as Hin. split; simpl.
    + rewrite <- !app_assoc. rewrite (signals_ok_app _ _ _ _ Hok).
      cbn [signals_ok app].
      rewrite (bool_decide_eq_true_2 (pid ∈ spawned (actions w) ∪ ∅))
        by set_solver.
      rewrite !bool_decide_eq_true_2 by reflexivity. reflexivity.
    + intros pid' [= <-]. rewrite !spawned_app. set_solver.
  - apply (orderly_act (process, w)); [exact Hinv|reflexivity|reflexivity].
Qed.

Lemma step_orderly st st' : orderly st -> step host st st' -> orderly st'.
Proof.
  intros Hinv Hstep. destruct Hstep as [[process w] msg | process w pid].
  - unfold msg_handler_step.
    destruct (dispatch host msg w process) as [e|st'] eqn:Hd.
    + apply (orderly_act (process, w)); [exact Hinv|reflexivity|reflexivity].
    + apply dispatch_cases in Hd.
      destruct Hd as [[rq ->] | [-> | [[rq ->] | ->]]];
        auto using start_process_orderly, stop_process_orderly.
      apply (orderly_act (process, w)); [exact Hinv|reflexivity|reflexivity].
  - exact Hinv.
Qed.

(** X2. The supervisor signals only its own children.  Over every
    sequence of messages and child exits from the initial state, each
    SIGINT the supervisor has sent went to a child it had started
    before, and was followed at once by the join of that same child;
    it joined nothing else. *)
Theorem supervisor_signals_own_child st :
  rtc (step host) initial st -> signals_ok ∅ None (actions (snd st)) = true.
Proof.
  intros Hr. enough (orderly st) as [H _] by exact H.
  revert st Hr. apply (rtc_ind_r orderly).
  - split; [reflexivity|]. intros pid H. discriminate H.
  - intros mid st _ Hlast IH. eapply step_orderly; eauto.
Qed.

Lemma last_status_app a b seen :
  last_status (a ++ b) seen = last_status b (last_status a seen).
Proof.
  revert seen. induction a as [|x a IH]; intros seen; simpl; [reflexivity|].
  destruct x; simpl; auto.
  destruct (String.eqb tpc "measurement/status"); auto.
Qed.

Lemma start_process_busy_shown process w request :
  handle_owns_alive (process, w) -> busy_shown (process, w) ->
  busy_shown (start_process host w process request).
Proof.
  intros Hown Hinv. unfold start_process.
  destruct (is_alive w process) eqn:Halive; simpl.
  - intros pid Hin. simpl in *. rewrite last_status_app. simpl.
    apply (Hinv pid Hin).
  - intros pid Hin. simpl in *. rewrite !last_status_app. reflexivity.
Qed.

Lemma stop_process_busy_shown process w :
  handle_owns_alive (process, w) -> busy_shown (process, w) ->
  busy_shown (stop_process host w process).
Proof.
  intros Hown Hinv. unfold stop_process.
  destruct (is_alive w process) eqn:Halive.
  - destruct process as [|p]; [exact Hinv|].
    intros pid Hin. simpl in *.
    assert (pid ∈ alive w) as Hin' by set_solver.
    pose proof (Hown pid Hin') as E. simpl in E. injection E as ->.
    set_solver.
  - intros pid Hin. simpl in *.
    rewrite (not_alive_owns_nothing _ _ Hown Halive) in Hin. set_solver.
Qed.

Lemma step_busy_shown st st' :
  handle_owns_alive st -> busy_shown st -> step host st st' -> busy_shown st'.
Proof.
  intros Hown Hinv Hstep. destruct Hstep as [[process w] msg | process w pid].
  - unfold msg_handler_step.
    destruct (dispatch host msg w process) as [e|st'] eqn:Hd.
    + intros pid Hin. simpl in *. rewrite last_status_app. simpl.
      apply (Hinv pid Hin).
    + apply dispatch_cases in Hd.
      destruct Hd as [[rq ->] | [-> | [[rq ->] | ->]]];
        auto using start_process_busy_shown, stop_process_busy_shown.
      intros pid Hin. simpl in *. rewrite last_status_app. simpl.
      apply (Hinv pid Hin).
  - intros q Hin. simpl in *. apply (Hinv q). simpl. set_solver.
Qed.

(** X3. Status while a job runs.  Over every sequence of messages and
    child exits from the initial state: whenever a child process is
    running, the last status the supervisor published is "Busy", and it
    was published retained. *)
Theorem busy_while_child_runs st pid :
  rtc (step host) initial st ->
  pid ∈ alive (snd st) ->
  last_status (actions (snd st)) None = Some (PyStr "Busy", true).
Proof.
  intros Hr. revert pid.
  enough (handle_owns_alive st /\ busy_shown st) as [_ H] by exact H.
  revert st Hr. apply (rtc_ind_r (fun st => handle_owns_alive st /\ busy_shown st)).
  - split; intros pid Hin; simpl in Hin; set_solver.
  - intros mid st _ Hlast [Hown Hbusy]. split.
    + eapply step_owns; eauto.
    + eapply step_busy_shown; eauto.
Qed.

(** X4. A run request without the [enable_eqe] key.  The test of
    [msg_handler] reads [request["args"]["enable_eqe"]] first: when the
    key is absent the message is reported as invalid with one level-40
    log and nothing is started, whatever [enable_iv] says. *)
Theorem run_without_enable_eqe_key_invalid process w request a :
  getitem request "args" = inr (PyDict a) ->
  dict_get a "enable_eqe" = None ->
  msg_handler_step host (process, w)
    {| topic := "measurement/run"; payload := Pickle request |}
  = (process,
     act [AppendPayload host
            (_log "Invalid message payload on topic: measurement/run!" 40)] w).
Proof.
  intros Ha He. unfold msg_handler_step, dispatch. simpl.
  rewrite Ha. simpl. rewrite He. reflexivity.
Qed.

(** X5. A run followed by a stop.  From a state in which no child is
    running, an accepted run request followed by a stop message with any
    payload that unpickles starts one child, interrupts and joins it:
    afterwards no child is running, and the supervisor has published, in
    this order, retained "Busy", the level-20 log "Request to stop
    completed!", retained "Ready" and the unretained empty live-device
    list. *)
Theorem run_then_stop_round_trip process w request args eqe v :
  handle_owns_alive (process, w) ->
  is_alive w process = false ->
  getitem request "args" = inr args ->
  getitem args "enable_eqe" = inr eqe ->
  is_True eqe = true \/
    (exists iv, getitem args "enable_iv" = inr iv /\ is_True iv = true) ->
  msg_handler host
    [ {| topic := "measurement/run"; payload := Pickle request |};
      {| topic := "measurement/stop"; payload := Pickle v |} ] (process, w)
  = (Started (next_pid w),
     {| alive := ∅; next_pid := S (next_pid w);
        actions := actions w ++
          [Spawn (next_pid w) request host;
           PublishSingle host "measurement/status" (PyStr "Busy") 2 true;
           Kill (next_pid w) SIGINT;
           Join (next_pid w);
           PublishSingle host "measurement/log"
             (log_payload 20 "Request to stop completed!") 2 false;
           PublishSingle host "measurement/status" (PyStr "Ready") 2 true;
           PublishSingle host "plotter/live_devices" (PyList []) 2 false] |}).
Proof.
  intros Hown Hdead Ha He Hflag. unfold msg_handler. cbn [fold_left].
  rewrite (run_message_starts host process w
             {| topic := "measurement/run"; payload := Pickle request |}
             request args eqe eq_refl eq_refl Ha He Hflag).
  unfold start_process. rewrite Hdead. simpl.
  unfold msg_handler_step, dispatch. simpl.
  unfold stop_process. simpl.
  rewrite bool_decide_eq_true_2 by set_solver.
  unfold act, child_exit. simpl. f_equal. f_equal.
  - rewrite (not_alive_owns_nothing _ _ Hown Hdead).
    apply leibniz_equiv. set_solver.
  - rewrite <- !app_assoc. reflexivity.
Qed.

End WatchFacts.

Section WatchWitnesses.
Import Supervisor Samples Watch Cases.

Lemma daq_init_never_forwarded_witness :
  Forall (fun m => subscribed (topic m) = true)
    [run_msg false true; stop_msg; run_msg true false] /\
  List.filter is_daq_put
    (actions (snd (msg_handler mqtthost
                     [run_msg false true; stop_msg; run_msg true false] initial)))
  = List.filter is_daq_put (actions (snd initial)).
Proof.
  assert (Forall (fun m => subscribed (topic m) = true)
            [run_msg false true; stop_msg; run_msg true false]) as H
    by (repeat constructor).
  split; [exact H|].
  apply (daq_init_never_forwarded mqtthost
           [run_msg false true; stop_msg; run_msg true false] initial H).
Defined.

Lemma supervisor_signals_own_child_witness :
  rtc (step mqtthost) initial stopped /\
  signals_ok ∅ None (actions (snd stopped)) = true.
Proof.
  assert (rtc (step mqtthost) initial stopped) as H.
  { eapply rtc_l; [apply (step_msg mqtthost initial (run_msg false true))|].
    eapply rtc_l; [apply (step_msg mqtthost _ stop_msg)|].
    apply rtc_refl. }
  split; [exact H|].
  apply (supervisor_signals_own_child mqtthost stopped H).
Defined.

Lemma busy_while_child_runs_witness :
  rtc (step mqtthost) initial busy /\
  1%nat ∈ alive (snd busy) /\
  last_status (actions (snd busy)) None = Some (PyStr "Busy", true).
Proof.
  assert (rtc (step mqtthost) initial busy) as H.
  { eapply rtc_l; [apply (step_msg mqtthost initial (run_msg false true))|].
    apply rtc_refl. }
  assert (1%nat ∈ alive (snd busy)) as Hin by (vm_compute; reflexivity).
  split; [exact H|]. split; [exact Hin|].
  apply (busy_while_child_runs mqtthost busy 1%nat H Hin).
Defined.

Lemma run_without_enable_eqe_key_invalid_witness :
  getitem iv_only_request "args" = inr (PyDict [("enable_iv", PyBool true)]) /\
  dict_get [("enable_iv", PyBool true)] "enable_eqe" = None /\
  msg_handler_step mqtthost initial
    {| topic := "measurement/run"; payload := Pickle iv_only_request |}
  = (fst initial,
     act [AppendPayload mqtthost
            (_log "Invalid message payload on topic: measurement/run!" 40)]
       (snd initial)).
Proof.
  split; [reflexivity|]. split; [reflexivity|].
  apply (run_without_enable_eqe_key_invalid mqtthost (fst initial) (snd initial)
           iv_only_request [("enable_iv", PyBool true)]); reflexivity.
Defined.

Lemma run_then_stop_round_trip_witness :
  handle_owns_alive initial /\
  alive (snd stopped) = ∅ /\
  fst stopped = Started 1.
Proof.
  assert (handle_owns_alive initial) as Hown.
  { intros pid Hin. simpl in Hin. set_solver. }
  pose proof (run_then_stop_round_trip mqtthost (fst initial) (snd initial)
                (run_request false true)
                (PyDict [("enable_eqe", PyBool false); ("enable_iv", PyBool true)])
                (PyBool false) (PyStr "") Hown eq_refl eq_refl eq_refl
                (or_intror (ex_intro _ (PyBool true) (conj eq_refl eq_refl)))) as H.
  split; [exact Hown|].
  unfold stopped, stop_msg, run_msg.
  split; [exact (f_equal (fun st => alive (snd st)) H)
         | exact (f_equal fst H)].
Defined.

End WatchWitnesses.

(** ** The pixel queue built by [_build_q] *)
Section RowFacts.
Import Job Rows.
Variable request : Request.

Lemma add_pixel_eq center d things :
  add_pixel request center d things =
    match channel_of request things with
    | None => inl (Exception ValueError
                     ("'" +:+ lower (t_sort_string things) +:+ "' is not in list"))
    | Some c => inr (dict_set d (Z.of_nat c) (pixel_of request center things))
    end.
Proof. reflexivity. Qed.

Lemma index_of_Some x l n :
  index_of x l = Some n -> In x l /\ (n < length l)%nat.
Proof.
  revert n. induction l as [|y l IH]; intros n H; simpl in *; [discriminate|].
  destruct (String.eqb y x) eqn:E.
  - apply String.eqb_eq in E. injection H as <-. split; [auto|lia].
  - destruct (index_of x l) as [m|]; [|discriminate].
    injection H as <-. destruct (IH m eq_refl). split; [auto|lia].
Qed.

Lemma index_of_In x l : In x l -> exists n, index_of x l = Some n.
Proof.
  induction l as [|y l IH]; intros H; simpl in *; [contradiction|].
  destruct (String.eqb y x) eqn:E; [eauto|].
  apply String.eqb_neq in E. destruct H as [H|H]; [congruence|].
  destruct (IH H) as [n ->]. simpl. eauto.
Qed.

Lemma channel_of_mapped things :
  mapped request things <-> exists c, channel_of request things = Some c.
Proof.
  unfold mapped, channel_of. split.
  - apply index_of_In.
  - intros [c H]. apply index_of_Some in H. tauto.
Qed.

Lemma channel_of_bound things c :
  channel_of request things = Some c ->
  (c < length (channel_mapping (config request)))%nat.
Proof.
  unfold channel_of. intros H. apply index_of_Some in H.
  rewrite length_map in H. tauto.
Qed.

Lemma add_pixels_mapped center rows d :
  Forall (mapped request) rows ->
  exists q, add_pixels request center d rows = inr q.
Proof.
  intros H. revert d. induction H as [|t rows Ht _ IH]; intros d; simpl.
  - eauto.
  - rewrite add_pixel_eq. apply channel_of_mapped in Ht. destruct Ht as [c ->].
    apply IH.
Qed.

Lemma add_pixels_unmapped center pre t post d :
  Forall (mapped request) pre ->
  ~ mapped request t ->
  add_pixels request center d (pre ++ t :: post) =
    inl (Exception ValueError
           ("'" +:+ lower (t_sort_string t) +:+ "' is not in list")).
Proof.
  intros H Ht. revert d. induction H as [|t' pre Ht' _ IH]; intros d; simpl.
  - rewrite add_pixel_eq. destruct (channel_of request t) as [c|] eqn:E.
    + exfalso. apply Ht. apply channel_of_mapped. eauto.
    + reflexivity.
  - rewrite add_pixel_eq. apply channel_of_mapped in Ht'. destruct Ht' as [c ->].
    apply IH.
Qed.

(** X6. Outcome of [_build_q] for the I-V experiment.  When every row
    of the layout table has its sort string in the channel mapping
    (compared in lower case) the queue is built.  Otherwise the first
    row that has not makes the whole call fail with the [ValueError] of
    [list.index] that names its lowercased sort string: no partial queue
    is returned. *)
Theorem build_q_outcome rows center :
  IV_stuff (args request) = Some rows ->
  assoc "solarsim" (experiment_positions (config request)) = Some center ->
  (Forall (mapped request) rows ->
   exists q, _build_q request "solarsim" = inr q) /\
  (forall pre t post,
      rows = pre ++ t :: post ->
      Forall (mapped request) pre ->
      ~ mapped request t ->
      _build_q request "solarsim" =
        inl (Exception ValueError
               ("'" +:+ lower (t_sort_string t) +:+ "' is not in list"))).
Proof.
  intros Hrows Hcenter. unfold _build_q. simpl. rewrite Hrows, Hcenter. split.
  - apply add_pixels_mapped.
  - intros pre t post -> Hpre Ht. apply add_pixels_unmapped; assumption.
Qed.

Lemma dict_lookup_set {V} (d : list (Z * V)) k v k' :
  dict_lookup (dict_set d k v) k' =
    if Z.eqb k k' then Some v else dict_lookup d k'.
Proof.
  induction d as [|[k0 v0] d IH]; simpl.
  - destruct (Z.eqb k k'); reflexivity.
  - destruct (Z.eqb k0 k) eqn:E0; simpl.
    + apply Z.eqb_eq in E0. subst k0. destruct (Z.eqb k k'); reflexivity.
    + rewrite IH. destruct (Z.eqb k k') eqn:E; [|reflexivity].
      apply Z.eqb_eq in E. subst k'. rewrite E0. reflexivity.
Qed.

Lemma dict_set_keys {V} (d : list (Z * V)) k v :
  map fst (dict_set d k v) =
    if bool_decide (k ∈ map fst d) then map fst d else map fst d ++ [k].
Proof.
  induction d as [|[k0 v0] d IH]; simpl; [reflexivity|].
  destruct (Z.eqb k0 k) eqn:E0; simpl.
  - apply Z.eqb_eq in E0. subst k0.
    rewrite bool_decide_eq_true_2 by (left). reflexivity.
  - apply Z.eqb_neq in E0. rewrite IH.
    destruct (bool_decide (k ∈ map fst d)) eqn:E.
    + apply bool_decide_eq_true in E.
      rewrite bool_decide_eq_true_2 by (right; exact E). reflexivity.
    + apply bool_decide_eq_false in E.
      rewrite bool_decide_eq_false_2; [reflexivity|].
      intros H. apply elem_of_cons in H. destruct H; [congruence|contradiction].
Qed.

Lemma dict_set_keyed n d k v :
  keyed n d -> 0 <= k < Z.of_nat n -> keyed n (dict_set d k v).
Proof.
  intros [Hnd Hb] Hk. unfold keyed. rewrite dict_set_keys.
  destruct (bool_decide (k ∈ map fst d)) eqn:E; [split; assumption|].
  apply bool_decide_eq_false in E. split.
  - apply NoDup_app. split; [exact Hnd|]. split.
    + intros x Hx Hx'. apply list_elem_of_singleton in Hx'. subst x. contradiction.
    + apply NoDup_singleton.
  - apply Forall_app. split; [exact Hb|]. constructor; [exact Hk|constructor].
Qed.

Lemma dict_set_length {V} (d : list (Z * V)) k v :
  (length d <= length (dict_set d k v) <= S (length d))%nat.
Proof.
  induction d as [|[k0 v0] d IH]; simpl; [lia|].
  destruct (Z.eqb k0 k); simpl; lia.
Qed.

Lemma add_pixels_keyed center rows d q :
  add_pixels request center d rows = inr q ->
  keyed (length (channel_mapping (config request))) d ->
  keyed (length (channel_mapping (config request))) q /\
  (length q <= length d + length rows)%nat.
Proof.
  revert d. induction rows as [|t rows IH]; intros d H Hd; simpl in *.
  - injection H as <-. split; [exact Hd|lia].
  - rewrite add_pixel_eq in H.
    destruct (channel_of request t) as [c|] eqn:Hc; [|discriminate].
    apply IH in H.
    + destruct H as [Hk Hl]. split; [exact Hk|].
      pose proof (dict_set_length d (Z.of_nat c) (pixel_of request center t)).
      lia.
    + apply dict_set_keyed; [exact Hd|].
      apply channel_of_bound in Hc. lia.
Qed.

(** X7. Keys of the pixel queue.  A queue built by [_build_q] has
    distinct keys, each the index of a channel of the channel mapping,
    and no more entries than the layout table has rows. *)
Theorem build_q_keys rows q :
  IV_stuff (args request) = Some rows ->
  _build_q request "solarsim" = inr q ->
  NoDup (map fst q) /\
  Forall (fun k => 0 <= k < Z.of_nat (length (channel_mapping (config request))))
    (map fst q) /\
  (length q <= length rows)%nat.
Proof.
  intros Hrows H. unfold _build_q in H. simpl in H. rewrite Hrows in H.
  destruct (assoc "solarsim" (experiment_positions (config request)))
    as [center|]; [|discriminate].
  apply add_pixels_keyed in H.
  - destruct H as [[Hnd Hb] Hl]. simpl in Hl. auto.
  - split; constructor.
Qed.

Lemma find_app_first {A} (f : A -> bool) l l' :
  find f (l ++ l') =
    match find f l with Some x => Some x | None => find f l' end.
Proof.
  induction l as [|x l IH]; simpl; [reflexivity|].
  destruct (f x); [reflexivity|exact IH].
Qed.

Lemma add_pixels_lookup center rows d q c :
  add_pixels request center d rows = inr q ->
  dict_lookup q (Z.of_nat c) =
    match find (fun t => bool_decide (channel_of request t = Some c)) (rev rows) with
    | Some t => Some (pixel_of request center t)
    | None => dict_lookup d (Z.of_nat c)
    end.
Proof.
  revert d. induction rows as [|t rows IH]; intros d H; simpl in *.
  - injection H as <-. reflexivity.
  - rewrite add_pixel_eq in H.
    destruct (channel_of request t) as [c'|] eqn:Hc; [|discriminate].
    rewrite (IH _ H). rewrite find_app_first.
    destruct (find _ (rev rows)) as [t'|]; [reflexivity|].
    simpl. rewrite dict_lookup_set, Hc.
    destruct (Z.eqb (Z.of_nat c') (Z.of_nat c)) eqn:E.
    + apply Z.eqb_eq in E. apply Nat2Z.inj in E. subst c'.
      rewrite bool_decide_eq_true_2 by reflexivity. reflexivity.
    + apply Z.eqb_neq in E.
      rewrite bool_decide_eq_false_2; [reflexivity|].
      intros [= ->]. contradiction.
Qed.

(** X8. The last row of a channel wins.  In the queue built by
    [_build_q], the entry of SMU channel [c] is the pixel of the last
    row of the layout table whose sort string maps to [c] (earlier rows
    of the same channel are replaced without notice), with the stage
    position moved by the experiment centre and the area override
    applied; a channel no row maps to has no entry. *)
Theorem build_q_last_row_wins rows center q c :
  IV_stuff (args request) = Some rows ->
  assoc "solarsim" (experiment_positions (config request)) = Some center ->
  _build_q request "solarsim" = inr q ->
  dict_lookup q (Z.of_nat c) =
    option_map (pixel_of request center)
      (find (fun t => bool_decide (channel_of request t = Some c)) (rev rows)).
Proof.
  intros Hrows Hcenter H. unfold _build_q in H. simpl in H.
  rewrite Hrows, Hcenter in H.
  rewrite (add_pixels_lookup _ _ _ _ c H).
  destruct (find _ (rev rows)); reflexivity.
Qed.

End RowFacts.

Section RowWitnesses.
Import Job Samples Rows RowCases.

Lemma build_q_outcome_witness :
  (exists q, _build_q (with_rows [row "a1"; row "b1"]) "solarsim" = inr q) /\
  _build_q (with_rows [row "a1"; row "z9"; row "b1"]) "solarsim"
  = inl (Exception ValueError "'z9' is not in list").
Proof.
  split.
  - apply (build_q_outcome (with_rows [row "a1"; row "b1"])
             [row "a1"; row "b1"] [0; 0] eq_refl eq_refl).
    repeat (apply List.Forall_cons; [vm_compute; auto 6|]); apply List.Forall_nil.
  - apply (proj2 (build_q_outcome (with_rows [row "a1"; row "z9"; row "b1"])
                    [row "a1"; row "z9"; row "b1"] [0; 0] eq_refl eq_refl)
             [row "a1"] (row "z9") [row "b1"] eq_refl).
    + repeat (apply List.Forall_cons; [vm_compute; auto 6|]); apply List.Forall_nil.
    + intros H. vm_compute in H. destruct H as [H|[H|H]];
        [discriminate H|discriminate H|contradiction].
Defined.

Lemma build_q_keys_witness :
  NoDup (map fst two_pixels) /\
  Forall (fun k => 0 <= k < 2) (map fst two_pixels) /\
  (length two_pixels <= 2)%nat.
Proof.
  apply (build_q_keys (with_rows [row "a1"; row "b1"])
           [row "a1"; row "b1"] two_pixels eq_refl eq_refl).
Defined.

Lemma build_q_last_row_wins_witness :
  exists q,
    _build_q (with_rows [row "a1"; row "b1"; again]) "solarsim" = inr q /\
    length q = 2%nat /\
    dict_lookup q 0 =
      Some (pixel_of (with_rows [row "a1"; row "b1"; again]) [0; 0] again) /\
    option_map area (dict_lookup q 0) = Some 7.
Proof.
  eexists. split; [reflexivity|]. split; [reflexivity|].
  split; [|reflexivity].
  apply (build_q_last_row_wins (with_rows [row "a1"; row "b1"; again])
           [row "a1"; row "b1"; again] [0; 0] _ 0%nat eq_refl eq_refl eq_refl).
Defined.

End RowWitnesses.

(** ** The data handler *)
Section RecordFacts.
Import Job Records.

Lemma insert_by_key_perm {V} (x : Z * V) l :
  Permutation (insert_by_key x l) (x :: l).
Proof.
  induction l as [|y l IH]; simpl; [reflexivity|].
  destruct (Z.leb (fst x) (fst y)); [reflexivity|].
  rewrite IH. apply perm_swap.
Qed.

Lemma sorted_items_perm {V} (d : list (Z * V)) : Permutation (sorted_items d) d.
Proof.
  unfold sorted_items. induction d as [|x d IH]; simpl; [reflexivity|].
  rewrite insert_by_key_perm, IH. reflexivity.
Qed.

Lemma insert_by_key_sorted (x : Z * PyVal) l :
  StronglySorted by_channel l -> StronglySorted by_channel (insert_by_key x l).
Proof.
  induction 1 as [|y l Hs IH Hy]; simpl.
  - constructor; constructor.
  - destruct (Z.leb (fst x) (fst y)) eqn:E.
    + apply Z.leb_le in E. constructor; [constructor; assumption|].
      constructor; [exact E|].
      eapply List.Forall_impl; [|exact Hy]. intros z Hz. unfold by_channel in *. lia.
    + apply Z.leb_gt in E. constructor; [exact IH|].
      eapply Permutation_Forall; [symmetry; apply insert_by_key_perm|].
      constructor; [unfold by_channel; lia|exact Hy].
Qed.

Lemma sorted_items_sorted (d : list (Z * PyVal)) :
  StronglySorted by_channel (sorted_items d).
Proof.
  unfold sorted_items. induction d as [|x d IH]; simpl; [constructor|].
  apply insert_by_key_sorted, IH.
Qed.

(** X20. What the data handler publishes.  [handle_data] never fails
    and does not touch the job state.  It publishes, in ascending order
    of the SMU channel, one unretained record on [data/raw/<kind>] for
    every channel of the data that is in the pixel queue, and nothing for
    a channel that is not: data of a device that has been pruned from the
    queue is dropped without notice. *)
Theorem handle_data_sorted_and_filtered dh data s :
  exists l,
    Permutation l data /\
    StronglySorted by_channel l /\
    handle_data dh data s = (Ok tt, s, omap (record_of dh (pixels s)) l).
Proof.
  exists (sorted_items data).
  split; [apply sorted_items_perm|]. split; [apply sorted_items_sorted|].
  unfold handle_data. f_equal.
  induction (sorted_items data) as [|[ch d] l IH]; simpl; [reflexivity|].
  rewrite IH. unfold record_of. simpl.
  destruct (dict_lookup (pixels s) ch); reflexivity.
Qed.

End RecordFacts.

(** ** Calibration, readiness and the start of a run *)
Section RunFacts.
Import Job Trace.
Variable env : Env.
Variable request : Request.

Lemma with_events {A} enter leave (body : M A) s :
  events_of (with_ enter leave body s) = enter :: events_of (body s) ++ [leave].
Proof. unfold with_. destruct (body s) as [[r s1] ev]. reflexivity. Qed.

Lemma try_except_events {A} (body : M A) catches handler s :
  exists rest,
    events_of (try_except body catches handler s) = events_of (body s) ++ rest.
Proof.
  unfold try_except. destruct (body s) as [[[a|e|] s1] ev].
  - exists []. symmetry. apply app_nil_r.
  - destruct (catches e).
    + destruct (handler e s1) as [[r s2] ev2]. exists ev2. reflexivity.
    + exists []. symmetry. apply app_nil_r.
  - exists []. symmetry. apply app_nil_r.
Qed.

Lemma emit_bind_events {A} ev (k : M A) s :
  events_of ((emit ev;; k) s) = ev ++ events_of (k s).
Proof.
  rewrite bind_unfold. simpl. destruct (k s) as [[r s1] ev1]. reflexivity.
Qed.

Lemma interrupt_call c : uninterrupted env -> avoids is_interrupt (call env c).
Proof.
  intros H s. rewrite call_run. unfold res_of. simpl.
  destruct (raises env (ncalls s) c) as [[|cls text]|] eqn:E; try reflexivity.
  exfalso. exact (H _ _ E).
Qed.

(** The body of the [with fabric()] block of [_calibrate_spectrum]. *)
Lemma calibration_body_results :
  let inner :=
    (log "Calibrating solar simulator spectrum..." 20;;
     call env (ConnectInstruments false true);;
     when (has_le env true) (call env SetIntensity);;
     call env MeasureSpectrum;;
     append_payload "calibration/spectrum"
       (PyDict [("data", spectrum env); ("timestamp", timestamp env)]) true;;
     log "Finished calibrating solar simulator spectrum!" 20) in
  never_starves inner /\ (uninterrupted env -> avoids is_interrupt inner).
Proof.
  intros inner. subst inner. split.
  - unfold never_starves.
    repeat avoid_step ltac:(apply starve_call).
  - intros H.
    repeat avoid_step ltac:(apply interrupt_call; exact H).
Qed.

(** X9. Outcome of the spectrum calibration.  [_calibrate_spectrum]
    always returns.  It enters the publisher and the fabric, leaves the
    fabric again however the calibration went, and its last publication
    is the retained status "Ready".  When no instrument call is
    interrupted by KeyboardInterrupt it returns [user_aborted = False],
    also after an instrument fault: the fault is logged and the run goes
    on. *)
Theorem calibration_outcome s :
  exists user_aborted st' evs,
    _calibrate_spectrum env s =
      (Ok user_aborted, st',
       PublisherEnter :: FabricEnter :: evs ++ [status_ready; PublisherExit]) /\
    In FabricExit evs /\
    (uninterrupted env -> user_aborted = false).
Proof.
  destruct calibration_body_results as [Hfuel Hint].
  unfold _calibrate_spectrum.
  match goal with
  | |- context [with_ FabricEnter FabricExit ?m] => set (inner := m) in *
  end.
  unfold with_, try_except. rewrite !bind_unfold.
  specialize (Hfuel s). unfold res_of in Hfuel.
  assert (uninterrupted env -> is_interrupt _ (res_of (inner s)) = false) as Hint'
    by (intros H; apply (Hint H s)).
  unfold res_of in Hint'.
  destruct (inner s) as [[[[]|[|cls text]|] s1] ev]; simpl in *;
    try discriminate Hfuel.
  - exists false, s1, (ev ++ [FabricExit]).
    split; [rewrite <- !app_assoc; reflexivity|].
    split; [apply in_or_app; right; left; reflexivity|auto].
  - exists true, s1, (ev ++ [FabricExit]).
    split; [rewrite <- !app_assoc; reflexivity|].
    split; [apply in_or_app; right; left; reflexivity|].
    intros H. specialize (Hint' H). discriminate Hint'.
  - exists false, s1,
      (ev ++ [FabricExit;
              Append (_log ("SPECTRUM CALIBRATION ABORTED! " +:+ text) 40)]).
    split; [rewrite <- !app_assoc; reflexivity|].
    split; [apply in_or_app; right; left; reflexivity|auto].
Qed.

(** Without an interrupt the calibration does not abort the run. *)
Lemma calibration_uninterrupted s :
  uninterrupted env ->
  exists s0 evs,
    _calibrate_spectrum env s =
      (Ok false, s0,
       PublisherEnter :: FabricEnter :: evs ++ [status_ready; PublisherExit]).
Proof.
  intros Hun. destruct calibration_body_results as [Hfuel Hint].
  specialize (Hint Hun). unfold _calibrate_spectrum.
  match goal with
  | |- context [with_ FabricEnter FabricExit ?m] => set (inner := m) in *
  end.
  unfold with_, try_except. rewrite !bind_unfold.
  specialize (Hfuel s). specialize (Hint s). unfold res_of in Hfuel, Hint.
  destruct (inner s) as [[[[]|[|cls text]|] s1] ev]; simpl in *;
    try discriminate Hfuel; try discriminate Hint.
  - exists s1, (ev ++ [FabricExit]). rewrite <- !app_assoc. reflexivity.
  - exists s1,
      (ev ++ [FabricExit;
              Append (_log ("SPECTRUM CALIBRATION ABORTED! " +:+ text) 40)]).
    rewrite <- !app_assoc. reflexivity.
Qed.

Lemma daq_check_ready s msg v :
  daq_init_get env = inr msg ->
  getitem msg "init_success" = inr v ->
  is_False v = false ->
  daq_check env s = (Ok false, s, daq_events).
Proof.
  intros Hq Hm Hv. unfold daq_check. rewrite bind_unfold. simpl.
  rewrite Hq, Hm, Hv. reflexivity.
Qed.

(** The measuring branch of [_run] opens with the publisher, the fabric
    and the log "Starting run...". *)
Lemma run_after_daq_ready fuel s s0 ev0 msg v :
  daq_init_get env = inr msg ->
  getitem msg "init_success" = inr v ->
  is_False v = false ->
  (if has_IV_stuff request && enable_solarsim (args request)
   then _calibrate_spectrum env else mret false) s = (Ok false, s0, ev0) ->
  exists rest,
    events_of (_run env request fuel s) =
      ev0 ++ daq_events
      ++ [PublisherEnter; FabricEnter; Append (_log "Starting run..." 20)]
      ++ rest.
Proof.
  intros Hq Hm Hv Hcal. unfold _run.
  rewrite bind_unfold, Hcal. cbn [negb].
  rewrite bind_unfold, (daq_check_ready s0 msg v Hq Hm Hv). cbn [negb].
  rewrite bind_unfold.
  match goal with
  | |- context [with_ PublisherEnter PublisherExit ?b s0] =>
      pose proof (with_events PublisherEnter PublisherExit b s0) as Hw;
      destruct (with_ PublisherEnter PublisherExit b s0) as [[r1 s1] ev1];
      match type of Hw with
      | context [try_except ?body ?c ?h s0] =>
          destruct (try_except_events body c h s0) as [rest Ht];
          rewrite Ht in Hw
      end
  end.
  rewrite with_events in Hw. unfold log in Hw. rewrite emit_bind_events in Hw.
  unfold events_of in Hw at 1. simpl in Hw. subst ev1.
  destruct r1 as [[]|e|]; unfold events_of; simpl; eexists;
    rewrite <- ?app_assoc; simpl; reflexivity.
Qed.

(** X10. A ready DAQ lets the run start.  When the readiness message
    arrives and its [init_success] is anything but the object [False]
    ([None] and [0] included), and the spectrum calibration, if any, was
    not interrupted, [_run] goes on after the check: it connects the
    publisher, enters the fabric and logs "Starting run...". *)
Theorem daq_ready_starts_run fuel s msg v :
  daq_init_get env = inr msg ->
  getitem msg "init_success" = inr v ->
  is_False v = false ->
  uninterrupted env ->
  exists before rest,
    events_of (_run env request fuel s) =
      before ++ daq_events
      ++ [PublisherEnter; FabricEnter; Append (_log "Starting run..." 20)]
      ++ rest /\
    (has_IV_stuff request && enable_solarsim (args request) = false ->
     before = []).
Proof.
  intros Hq Hm Hv Hint.
  destruct (has_IV_stuff request && enable_solarsim (args request)) eqn:Hcal.
  - destruct (calibration_uninterrupted s Hint) as (s0 & evs & Hrun).
    destruct (run_after_daq_ready fuel s s0
                (PublisherEnter :: FabricEnter :: evs
                 ++ [status_ready; PublisherExit]) msg v Hq Hm Hv)
      as [rest Hev].
    { rewrite Hcal. exact Hrun. }
    eexists _, rest. split; [exact Hev|discriminate].
  - destruct (run_after_daq_ready fuel s s [] msg v Hq Hm Hv) as [rest Hev].
    { rewrite Hcal. reflexivity. }
    exists [], rest. split; [exact Hev|reflexivity].
Qed.

(** X11. "Ready" before the run has started.  In a run that calibrates
    the spectrum ([IV_stuff] present, solar simulator enabled) with a
    ready DAQ and no interrupt, the retained status "Ready" is published
    at the end of the calibration, before the readiness check and before
    the log "Starting run...": the status says "Ready" while the job is
    still going to measure. *)
Theorem ready_published_before_run_starts fuel s msg v :
  has_IV_stuff request && enable_solarsim (args request) = true ->
  daq_init_get env = inr msg ->
  getitem msg "init_success" = inr v ->
  is_False v = false ->
  uninterrupted env ->
  exists before rest,
    events_of (_run env request fuel s) =
      before ++ [status_ready; PublisherExit] ++ daq_events
      ++ [PublisherEnter; FabricEnter; Append (_log "Starting run..." 20)]
      ++ rest.
Proof.
  intros Hcal Hq Hm Hv Hint.
  destruct (calibration_uninterrupted s Hint) as (s0 & evs & Hrun).
  destruct (run_after_daq_ready fuel s s0
              (PublisherEnter :: FabricEnter :: evs
               ++ [status_ready; PublisherExit]) msg v Hq Hm Hv)
    as [rest Hev].
  { rewrite Hcal. exact Hrun. }
  exists (PublisherEnter :: FabricEnter :: evs), rest.
  rewrite Hev. simpl. rewrite <- !app_assoc. reflexivity.
Qed.

(** X12. A request without [IV_stuff].  [_run] builds a queue only for
    the I-V experiment: when the request has no [IV_stuff] (an EQE-only
    request) the run returns without a single call on the instruments,
    whatever the DAQ answers, and leaves the job state as it was. *)
Theorem run_without_iv_stuff_measures_nothing fuel s :
  has_IV_stuff request = false ->
  res_of (_run env request fuel s) = Ok tt /\
  st_of (_run env request fuel s) = s /\
  List.filter is_call (events_of (_run env request fuel s)) = [].
Proof.
  intros Hiv. unfold _run, daq_check. rewrite Hiv. simpl.
  rewrite ret_bind. cbn [negb]. rewrite !bind_unfold. simpl.
  destruct (daq_init_get env) as [e|m]; simpl; [auto|].
  destruct (getitem m "init_success") as [e|v]; simpl; [auto|].
  destruct (is_False v); simpl; auto.
Qed.

(** X13. An empty pixel queue.  When [_ivt] is given an empty queue and
    the loop is entered (a positive cycle count, or zero for an endless
    run), the instruments are connected, [daq/start] and an empty
    live-device list are published, and the first cycle fails on
    [list(pixels.values())[0]] with IndexError right after its
    announcement: nothing is measured and the teardown is not run. *)
Theorem ivt_empty_queue fuel s :
  let le := has_le env (enable_solarsim (args request)) in
  raises env (ncalls s)
    (ConnectInstruments true (enable_solarsim (args request))) = None ->
  (le = true -> raises env (S (ncalls s)) SetIntensity = None) ->
  0 <= cycles (args request) ->
  (0 < fuel)%nat ->
  res_of (_ivt env request fuel [] s) =
    Raise (Exception IndexError "list index out of range") /\
  events_of (_ivt env request fuel [] s) =
    [Call (ConnectInstruments true (enable_solarsim (args request)))]
    ++ (if le then [Call SetIntensity] else [])
    ++ [Append {| pub_topic := "daq/start"; pub_payload := PyStr "";
                  pub_retain := false |};
        Append (live_devices []);
        Append (_log "### Loop 1 ###" 20)].
Proof.
  intros le Hc Hi Hcy Hf. destruct fuel as [|fuel]; [lia|].
  assert ((0 <? cycles (args request)) || (cycles (args request) =? 0) = true)
    as Hloop.
  { destruct (0 <? cycles (args request)) eqn:E; [reflexivity|].
    apply Z.ltb_ge in E. simpl. apply Z.eqb_eq. lia. }
  unfold _ivt, ivt_body, ivt_teardown. fold le.
  unfold ivt_loop. rewrite Hloop. unfold ivt_cycle.
  unfold when, log, append_payload, emit, gets, set_pixels, raise.
  unfold mbind, M_bind, bind, mret, M_ret, ret.
  rewrite !call_run. simpl. rewrite Hc. simpl.
  destruct le; simpl.
  - rewrite call_run. simpl. rewrite (Hi eq_refl). simpl. split; reflexivity.
  - split; reflexivity.
Qed.

End RunFacts.

(** ** The loops of [_ivt] *)
Section LoopFacts.
Import Job Trace.
Variable env : Env.
Variable request : Request.

Lemma loop_headers_app a b :
  loop_headers (a ++ b) = loop_headers a ++ loop_headers b.
Proof. apply omap_app. Qed.

Lemma loop_headers_quiet ev : Forall quiet ev -> loop_headers ev = [].
Proof.
  induction 1 as [|e ev He _ IH]; [reflexivity|].
  unfold loop_headers in *. simpl. rewrite He. exact IH.
Qed.

Lemma quiet_call c : emits_only quiet (call env c).
Proof. intros s. rewrite call_run. repeat constructor. Qed.

Lemma quiet_handle_data dh data : emits_only quiet (handle_data dh data).
Proof.
  intros s. unfold handle_data, events_of. simpl.
  apply Forall_flat_map. intros [channel ch_data].
  destruct (dict_lookup (pixels s) channel); repeat constructor.
Qed.

Lemma quiet_for_vt dh vt : emits_only quiet (for_vt dh vt).
Proof.
  induction vt as [|d vt IH]; simpl.
  - apply (emits_ret quiet tt).
  - apply emits_bind; [apply quiet_handle_data | intros; exact IH].
Qed.

Ltac quiet_leaf :=
  first [ apply quiet_call | apply quiet_for_vt | apply quiet_handle_data
        | intros ?; repeat constructor ].

Lemma quiet_steady_state sv : emits_only quiet (steady_state env sv).
Proof. unfold steady_state. repeat emits_step quiet_leaf. Qed.

Lemma quiet_track_max_power : emits_only quiet (track_max_power env).
Proof. unfold track_max_power. repeat emits_step quiet_leaf. Qed.

Lemma quiet_voc_phase le dh : emits_only quiet (voc_phase env request le dh).
Proof.
  unfold voc_phase.
  repeat emits_step ltac:(first [apply quiet_steady_state | quiet_leaf]).
Qed.

Lemma quiet_sweep_body le dh sw :
  emits_only quiet (sweep_body env request le dh sw).
Proof. unfold sweep_body. repeat emits_step quiet_leaf. Qed.

Lemma quiet_for_sweeps le dh l : emits_only quiet (for_sweeps env request le dh l).
Proof.
  revert dh. induction l as [|sw l IH]; intros dh; simpl.
  - apply (emits_ret quiet dh).
  - apply emits_bind; [apply quiet_sweep_body | intros; apply IH].
Qed.

Lemma quiet_mppt_phase le dh ld ssvocs :
  emits_only quiet (mppt_phase env le dh ld ssvocs).
Proof.
  unfold mppt_phase, mppt_reconcile.
  repeat emits_step ltac:(first [apply quiet_track_max_power | quiet_leaf]).
Qed.

Lemma quiet_jsc_phase le dh : emits_only quiet (jsc_phase env request le dh).
Proof.
  unfold jsc_phase.
  repeat emits_step ltac:(first [apply quiet_steady_state | quiet_leaf]).
Qed.

Lemma ivt_cycle_rest le loop ld :
  ivt_cycle env request le loop ld =
    (log (header loop) 20;; cycle_rest env request le ld).
Proof. reflexivity. Qed.

Lemma quiet_cycle_rest le ld : emits_only quiet (cycle_rest env request le ld).
Proof.
  unfold cycle_rest.
  repeat emits_step
    ltac:(first [ apply quiet_voc_phase | apply quiet_for_sweeps
                | apply quiet_mppt_phase | apply quiet_jsc_phase
                | quiet_leaf ]).
Qed.

Lemma prefix_app p s : String.prefix p (p +:+ s) = true.
Proof.
  induction p as [|c p IH]; simpl; [destruct s; reflexivity|].
  destruct (ascii_dec c c); [exact IH|contradiction].
Qed.

(** A cycle announces itself once, first. *)
Lemma ivt_cycle_headers le loop ld s :
  loop_headers (events_of (ivt_cycle env request le loop ld s)) = [header loop].
Proof.
  rewrite ivt_cycle_rest. unfold log. rewrite emit_bind_events.
  rewrite loop_headers_app, (loop_headers_quiet _ (quiet_cycle_rest le ld s)).
  unfold loop_headers, header. cbn. rewrite prefix_app. reflexivity.
Qed.

Lemma ends_bind {A B} (R : A -> St -> Prop) (Q : B -> St -> Prop)
    (m : M A) (k : A -> M B) :
  ends_with R m ->
  (forall a s1, R a s1 ->
     match k a s1 with (Ok b, s2, _) => Q b s2 | _ => True end) ->
  ends_with Q (m ≫= k).
Proof.
  intros Hm Hk s. rewrite bind_unfold. specialize (Hm s).
  destruct (m s) as [[[a|e|] s1] ev1]; try exact I.
  specialize (Hk a s1 Hm). destruct (k a s1) as [[[b|e|] s2] ev2]; auto.
Qed.

(** The last computation of a sequence decides. *)
Lemma ends_last {A B} (Q : B -> St -> Prop) (m : M A) (k : A -> M B) :
  (forall a, ends_with Q (k a)) -> ends_with Q (m ≫= k).
Proof.
  intros Hk. apply (ends_bind (fun _ _ => True)).
  - intros s. destruct (m s) as [[[a|e|] s1] ev1]; exact I.
  - intros a s1 _. apply Hk.
Qed.

Lemma ends_ret {A} (Q : A -> St -> Prop) (a : A) :
  (forall s, Q a s) -> ends_with Q (mret a : M A).
Proof. intros H s. apply H. Qed.

Lemma mppt_reconcile_break dh ld :
  ends_with (fun r s => break_on_empty (fst r) s) (mppt_reconcile env dh ld).
Proof.
  intros s.
  destruct (raises env (ncalls s) TrackMaxPower) as [e|] eqn:Hr.
  - rewrite (mppt_reconcile_raises env dh ld s e Hr). exact I.
  - pose proof (mppt_reconcile_live env dh ld s Hr) as (Hpix & Hsame & Hshrink & Hzero).
    unfold res_of, st_of, events_of in *.
    destruct (mppt_reconcile env dh ld s) as [[[[[c dh'] ld']|e|] s1] ev];
      try exact I.
    simpl in *. intros Hb. simpl in Hb. subst c.
    set (post := queue_after env (ncalls s) TrackMaxPower (pixels s)) in *.
    destruct (Nat.eq_dec (length post) (length (pixels s))) as [E|E].
    + destruct (Hsame E) as [_ [dh2 H]]. discriminate H.
    + destruct (Nat.eq_dec (length post) 0%nat) as [Hz|Hz].
      * rewrite Hpix. destruct post; [reflexivity|discriminate Hz].
      * destruct (Hshrink E Hz) as [_ [dh2 H]]. discriminate H.
Qed.

Lemma ivt_cycle_break le loop ld :
  ends_with break_on_empty (ivt_cycle env request le loop ld).
Proof.
  unfold ivt_cycle.
  do 3 (apply ends_last; intros).
  apply ends_last. intros [dh ssvocs].
  apply ends_last. intros dh1.
  apply (ends_bind (fun r s => break_on_empty (fst r) s)).
  - destruct (0 <? mppt_dwell (args request)).
    + unfold mppt_phase. do 3 (apply ends_last; intros).
      apply mppt_reconcile_break.
    + apply ends_ret. intros s H. discriminate H.
  - intros [[[|] dh'] ld'] s1 H.
    + pose proof (ends_last (@break_on_empty (list string))
                    (jsc_phase env request le dh')
                    (fun _ => log "" 20;; mret (Continue, ld'))) as Hj.
      apply Hj. intros _. apply ends_last. intros _.
      apply ends_ret. intros s H'. discriminate H'.
    + exact H.
Qed.

Lemma header_seq loop k :
  header (loop + 1) :: map (fun i => header (loop + 1 + Z.of_nat i)) (seq 1 k)
  = map (fun i => header (loop + Z.of_nat i)) (seq 1 (S k)).
Proof.
  cbn [seq map]. f_equal.
  rewrite <- (seq_shift k 1), List.map_map. apply List.map_ext. intros i.
  f_equal. lia.
Qed.

(** The announcements of the loop of [_ivt] from loop counter [loop]
    on. *)
Lemma ivt_loop_headers fuel le loop ld s :
  let x := ivt_loop env request fuel le loop ld s in
  exists k,
    loop_headers (events_of x)
      = map (fun i => header (loop + Z.of_nat i)) (seq 1 k) /\
    (k <= fuel)%nat /\
    (cycles (args request) <> 0 ->
     (k <= Z.to_nat (cycles (args request) - loop))%nat) /\
    (forall ld', res_of x = Ok ld' ->
       pixels (st_of x) = [] \/
       (cycles (args request) <> 0 /\
        k = Z.to_nat (cycles (args request) - loop))).
Proof.
  revert loop ld s. induction fuel as [|fuel IH]; intros loop ld s; simpl.
  - destruct ((loop <? cycles (args request)) || (cycles (args request) =? 0))
      eqn:Hc.
    + exists 0%nat. repeat split; try lia; intros ld' H; discriminate H.
    + apply orb_false_iff in Hc. destruct Hc as [Hlt Hz].
      apply Z.ltb_ge in Hlt. apply Z.eqb_neq in Hz.
      exists 0%nat.
      repeat split; try lia.
  - destruct ((loop <? cycles (args request)) || (cycles (args request) =? 0))
      eqn:Hc.
    + assert (cycles (args request) <> 0 -> loop < cycles (args request)) as Hlt.
      { intros Hz. apply orb_true_iff in Hc. destruct Hc as [H|H].
        - apply Z.ltb_lt in H. exact H.
        - apply Z.eqb_eq in H. contradiction. }
      rewrite bind_unfold.
      pose proof (ivt_cycle_headers le (loop + 1) ld s) as Hh.
      pose proof (ivt_cycle_break le (loop + 1) ld s) as Hb.
      destruct (ivt_cycle env request le (loop + 1) ld s)
        as [[[[[|] ld1]|e|] s1] ev1]; unfold events_of in Hh; simpl in Hh.
      * destruct (IH (loop + 1) ld1 s1) as (k & Hk & Hf & Hbound & Hok).
        destruct (ivt_loop env request fuel le (loop + 1) ld1 s1)
          as [[r2 s2] ev2]. unfold res_of, st_of, events_of in *. simpl in *.
        exists (S k). split; [|split; [|split]].
        -- rewrite loop_headers_app, Hh, Hk. apply header_seq.
        -- lia.
        -- intros Hz. specialize (Hbound Hz). specialize (Hlt Hz). lia.
        -- intros ld' Hr. destruct (Hok ld' Hr) as [He|[Hz Hk']];
             [left; exact He|right].
           split; [exact Hz|]. specialize (Hlt Hz). lia.
      * exists 1%nat. unfold res_of, st_of, events_of. simpl.
        split; [|split; [|split]].
        -- rewrite app_nil_r, Hh. cbn [seq map]. do 2 f_equal.
        -- lia.
        -- intros Hz. specialize (Hlt Hz). lia.
        -- intros ld' _. left. apply Hb. reflexivity.
      * exists 1%nat. unfold res_of, st_of, events_of. simpl.
        split; [|split; [|split]].
        -- rewrite Hh. cbn [seq map]. do 2 f_equal.
        -- lia.
        -- intros Hz. specialize (Hlt Hz). lia.
        -- intros ld' H. discriminate H.
      * exists 1%nat. unfold res_of, st_of, events_of. simpl.
        split; [|split; [|split]].
        -- rewrite Hh. cbn [seq map]. do 2 f_equal.
        -- lia.
        -- intros Hz. specialize (Hlt Hz). lia.
        -- intros ld' H. discriminate H.
    + apply orb_false_iff in Hc. destruct Hc as [Hlt Hz].
      apply Z.ltb_ge in Hlt. apply Z.eqb_neq in Hz.
      exists 0%nat. unfold res_of, st_of, events_of. simpl.
      repeat split; try lia.
Qed.

End LoopFacts.

Section IvtLoopFacts.
Import Job Trace.
Variable env : Env.
Variable request : Request.

(** [_ivt] around its loop: either the loop is not reached, or the
    announcements of [_ivt] are those of the loop, and [_ivt] returns only
    if the loop does, with the queue the loop left. *)
Lemma ivt_around_loop fuel q s :
  let r := _ivt env request fuel q s in
  (loop_headers (events_of r) = [] /\ res_of r <> Ok tt) \/
  exists s0,
    let x := ivt_loop env request fuel
               (has_le env (enable_solarsim (args request))) 0 (labels q) s0 in
    loop_headers (events_of r) = loop_headers (events_of x) /\
    (res_of r = Ok tt ->
     exists ld', res_of x = Ok ld' /\ pixels (st_of r) = pixels (st_of x)).
Proof.
  unfold _ivt, ivt_body, ivt_teardown, when, append_payload, emit, gets, set_pixels.
  unfold mbind, M_bind, bind, mret, M_ret, ret.
  rewrite !call_run. simpl.
  destruct (raises env (ncalls s)
              (ConnectInstruments true (enable_solarsim (args request)))) as [e|];
    simpl; [left; split; [reflexivity|discriminate]|].
  destruct (has_le env (enable_solarsim (args request))) eqn:Hle; simpl.
  - rewrite call_run. simpl.
    destruct (raises env (S (ncalls s)) SetIntensity) as [e|]; simpl;
      [left; split; [reflexivity|discriminate]|].
    right. exists {| pixels := q; ncalls := S (S (ncalls s)) |}.
    match goal with
    | |- context [ivt_loop env request fuel true 0 (labels q) ?s0] =>
        destruct (ivt_loop env request fuel true 0 (labels q) s0)
          as [[[ld'|e|] s1] ev]
    end; unfold res_of, st_of, events_of; simpl.
    + rewrite ?call_run. simpl.
      destruct (raises env (ncalls s1) (EnableOutput false)) as [e|]; simpl.
      * split; [|discriminate].
        unfold loop_headers. rewrite omap_app. simpl. apply app_nil_r.
      * rewrite ?call_run. simpl.
        destruct (raises env (S (ncalls s1)) LeOff) as [e|]; simpl.
        -- split; [|discriminate].
           unfold loop_headers. rewrite omap_app. simpl. apply app_nil_r.
        -- split; [|eauto].
           unfold loop_headers. rewrite omap_app. simpl. apply app_nil_r.
    + split; [reflexivity|discriminate].
    + split; [reflexivity|discriminate].
  - right. exists {| pixels := q; ncalls := S (ncalls s) |}.
    match goal with
    | |- context [ivt_loop env request fuel false 0 (labels q) ?s0] =>
        destruct (ivt_loop env request fuel false 0 (labels q) s0)
          as [[[ld'|e|] s1] ev]
    end; unfold res_of, st_of, events_of; simpl.
    + rewrite ?call_run. simpl.
      destruct (raises env (ncalls s1) (EnableOutput false)) as [e|]; simpl.
      * split; [|discriminate].
        unfold loop_headers. rewrite omap_app. simpl. apply app_nil_r.
      * split; [|eauto].
        unfold loop_headers. rewrite omap_app. simpl. apply app_nil_r.
    + split; [reflexivity|discriminate].
    + split; [reflexivity|discriminate].
Qed.

(** X14. Loop announcements of [_ivt].  Whatever the instruments do,
    the loops [_ivt] announces are numbered 1, 2, ..., k without gap or
    repetition, every announcement is "### Loop n ###", and k is at most
    the cycle count when that is not zero (none at all for a negative
    count). *)
Theorem ivt_loops_numbered fuel q s :
  exists k,
    loop_headers (events_of (_ivt env request fuel q s))
      = map (fun i => header (Z.of_nat i)) (seq 1 k) /\
    (k <= fuel)%nat /\
    (cycles (args request) <> 0 ->
     (k <= Z.to_nat (cycles (args request)))%nat).
Proof.
  destruct (ivt_around_loop fuel q s) as [[Hnone _] | [s0 [Hev _]]].
  - exists 0%nat. split; [exact Hnone|]. split; lia.
  - destruct (ivt_loop_headers env request fuel
                (has_le env (enable_solarsim (args request))) 0 (labels q) s0)
      as (k & Hk & Hf & Hb & _).
    exists k. split; [|split; [exact Hf|]].
    + rewrite Hev, Hk. apply List.map_ext. intros i. reflexivity.
    + intros Hz. specialize (Hb Hz). rewrite Z.sub_0_r in Hb. exact Hb.
Qed.

(** X15. When [_ivt] returns.  If [_ivt] returns normally, either the
    pixel queue is empty, or the cycle count is not zero and exactly that
    many loops (none for a negative count) were announced.  So an
    endless run ([cycles = 0]) returns only once every device has been
    pruned from the queue. *)
Theorem ivt_returns_after_all_cycles fuel q s :
  res_of (_ivt env request fuel q s) = Ok tt ->
  pixels (st_of (_ivt env request fuel q s)) = [] \/
  (cycles (args request) <> 0 /\
   length (loop_headers (events_of (_ivt env request fuel q s)))
     = Z.to_nat (cycles (args request))).
Proof.
  intros Hok.
  destruct (ivt_around_loop fuel q s) as [[_ Hno] | [s0 [Hev Hres]]];
    [contradiction|].
  destruct (Hres Hok) as (ld' & Hx & Hpix).
  destruct (ivt_loop_headers env request fuel
              (has_le env (enable_solarsim (args request))) 0 (labels q) s0)
    as (k & Hk & _ & _ & Hdone).
  destruct (Hdone ld' Hx) as [Hempty | [Hz Hcount]].
  - left. rewrite Hpix. exact Hempty.
  - right. split; [exact Hz|].
    rewrite Hev, Hk, length_map, length_seq, Hcount, Z.sub_0_r. reflexivity.
Qed.

End IvtLoopFacts.

Section RunWitnesses.
Import Job Samples RunCases Trace.

Lemma quiet_env_uninterrupted daq : uninterrupted (quiet_env daq).
Proof. intros n c H. discriminate H. Qed.

Lemma daq_ready_starts_run_witness :
  is_False (PyInt 0) = false /\
  exists before rest,
    events_of (_run (quiet_env daq_zero) (sample_request false 1) 1 start) =
      before ++ daq_events
      ++ [PublisherEnter; FabricEnter; Append (_log "Starting run..." 20)]
      ++ rest /\
    (has_IV_stuff (sample_request false 1)
     && enable_solarsim (args (sample_request false 1)) = false ->
     before = []).
Proof.
  split; [reflexivity|].
  apply (daq_ready_starts_run (quiet_env daq_zero) (sample_request false 1) 1 start
           (PyDict [("init_success", PyInt 0)]) (PyInt 0)
           eq_refl eq_refl eq_refl (quiet_env_uninterrupted daq_zero)).
Defined.

Lemma ready_published_before_run_starts_witness :
  exists before rest,
    events_of (_run (quiet_env daq_ok) (sample_request true 1) 1 start) =
      before ++ [status_ready; PublisherExit] ++ daq_events
      ++ [PublisherEnter; FabricEnter; Append (_log "Starting run..." 20)]
      ++ rest.
Proof.
  apply (ready_published_before_run_starts (quiet_env daq_ok)
           (sample_request true 1) 1 start
           (PyDict [("init_success", PyBool true)]) (PyBool true)
           eq_refl eq_refl eq_refl eq_refl (quiet_env_uninterrupted daq_ok)).
Defined.

Lemma run_without_iv_stuff_measures_nothing_witness :
  has_IV_stuff eqe_request = false /\
  res_of (_run (quiet_env daq_ok) eqe_request 1 start) = Ok tt /\
  st_of (_run (quiet_env daq_ok) eqe_request 1 start) = start /\
  List.filter is_call (events_of (_run (quiet_env daq_ok) eqe_request 1 start)) = [].
Proof.
  split; [reflexivity|].
  apply (run_without_iv_stuff_measures_nothing (quiet_env daq_ok) eqe_request 1
           start eq_refl).
Defined.

Lemma ivt_empty_queue_witness :
  res_of (_ivt (quiet_env daq_ok) (sample_request true 1) 1 [] start) =
    Raise (Exception IndexError "list index out of range") /\
  events_of (_ivt (quiet_env daq_ok) (sample_request true 1) 1 [] start) =
    [Call (ConnectInstruments true true); Call SetIntensity;
     Append {| pub_topic := "daq/start"; pub_payload := PyStr "";
               pub_retain := false |};
     Append (live_devices []);
     Append (_log "### Loop 1 ###" 20)].
Proof.
  apply (ivt_empty_queue (quiet_env daq_ok) (sample_request true 1) 1 start
           eq_refl (fun _ => eq_refl)); [simpl; lia | lia].
Defined.

Lemma ivt_returns_after_all_cycles_witness :
  res_of (_ivt (quiet_env daq_ok) (sample_request false 2) 2 two_pixels start)
    = Ok tt /\
  (pixels (st_of (_ivt (quiet_env daq_ok) (sample_request false 2) 2
                    two_pixels start)) = [] \/
   (cycles (args (sample_request false 2)) <> 0 /\
    length (loop_headers
              (events_of (_ivt (quiet_env daq_ok) (sample_request false 2) 2
                            two_pixels start)))
      = Z.to_nat (cycles (args (sample_request false 2))))).
Proof.
  assert (res_of (_ivt (quiet_env daq_ok) (sample_request false 2) 2
                    two_pixels start) = Ok tt) as H by (vm_compute; reflexivity).
  split; [exact H|].
  apply (ivt_returns_after_all_cycles (quiet_env daq_ok) (sample_request false 2)
           2 two_pixels start H).
Defined.

End RunWitnesses.

(** ** The readiness rendezvous across the two processes *)
Section RendezvousFacts.
Import Supervisor Job Watch Trace Rendezvous.
Variable host : string.
Variable env : Env.
Variable request : Request.

Lemma daq_check_fails s e :
  daq_init_get env = inl e -> daq_check env s = (Ok true, s, daq_events).
Proof.
  intros H. unfold daq_check. rewrite bind_unfold. simpl. rewrite H. reflexivity.
Qed.

Lemma no_daq_put_no_message acts :
  List.filter is_daq_put acts = [] ->
  fed_by acts env ->
  exists e, daq_init_get env = inl e.
Proof.
  intros Hnone Hfed. destruct (daq_init_get env) as [e|m] eqn:Hq; [eauto|].
  specialize (Hfed m Hq).
  assert (In (DaqInitPut m) (List.filter is_daq_put acts)) as Hin
    by (apply List.filter_In; split; [exact Hfed|reflexivity]).
  rewrite Hnone in Hin. contradiction.
Qed.

(** X22. No run gets past the readiness check.  [main] subscribes to
    [measurement/#] only, so no [daq/init] message reaches [msg_handler]
    and the readiness queue stays empty.  Hence for every sequence of
    messages the server receives and every job it starts, the wait on
    the readiness queue fails: the job makes no instrument call after
    the check, logs "RUN ABORTED!" at level 40 and ends with the retained
    status "Ready"; a job that needs no calibration does nothing but the
    check and the abort. *)
Theorem subscribed_server_aborts_every_run msgs fuel s :
  Forall (fun m => subscribed (topic m) = true) msgs ->
  fed_by (actions (snd (msg_handler host msgs initial))) env ->
  exists before,
    _run env request fuel s
      = (Ok tt, st_of (_run env request fuel s), before ++ abort_events) /\
    (has_IV_stuff request && enable_solarsim (args request) = false ->
     before = daq_events /\ st_of (_run env request fuel s) = s) /\
    (has_IV_stuff request && enable_solarsim (args request) = true ->
     exists rest,
       before = events_of (_calibrate_spectrum env s) ++ rest /\
       (rest = [] \/ rest = daq_events)).
Proof.
  intros Hsub.
  assert (List.filter is_daq_put (actions (snd (msg_handler host msgs initial)))
          = []) as Hnone.
  { change [] with (List.filter is_daq_put (actions (snd initial))).
    generalize initial. induction Hsub as [|msg l Hm _ IH]; intros st.
    - reflexivity.
    - unfold msg_handler in *. simpl. rewrite IH. destruct st as [process w].
      apply subscribed_step_no_daq_put. exact Hm. }
  intros Hfed.
  destruct (no_daq_put_no_message _ Hnone Hfed) as [e He].
  unfold _run.
  destruct (has_IV_stuff request && enable_solarsim (args request)) eqn:Hcal.
  - destruct (calibrate_returns env s) as [b Hb].
    rewrite !bind_unfold.
    destruct (_calibrate_spectrum env s) as [[rc sc] evc].
    unfold res_of, st_of, events_of in *. simpl in *. subst rc.
    destruct b; cbn [negb].
    + rewrite ret_bind. simpl. exists evc.
      split; [reflexivity|]. split; [discriminate|].
      intros _. exists []. split; [symmetry; apply app_nil_r|left; reflexivity].
    + rewrite bind_unfold, (daq_check_fails sc e He). simpl.
      exists (evc ++ daq_events).
      split; [rewrite <- app_assoc; reflexivity|]. split; [discriminate|].
      intros _. exists daq_events. split; [reflexivity|right; reflexivity].
  - rewrite ret_bind. cbn [negb]. rewrite bind_unfold.
    rewrite (daq_check_fails s e He). simpl.
    exists daq_events. split; [reflexivity|]. split; [auto|discriminate].
Qed.

End RendezvousFacts.

Section RendezvousWitnesses.
Import Supervisor Job Samples Watch Cases Rendezvous.

Lemma subscribed_server_aborts_every_run_witness :
  Forall (fun m => subscribed (topic m) = true) [run_msg false true] /\
  fed_by (actions (snd busy)) (quiet_env daq_timeout) /\
  exists before,
    _run (quiet_env daq_timeout) (sample_request false 1) 1 start
      = (Ok tt,
         st_of (_run (quiet_env daq_timeout) (sample_request false 1) 1 start),
         before ++ abort_events).
Proof.
  assert (Forall (fun m => subscribed (topic m) = true) [run_msg false true])
    as Hsub by (repeat constructor).
  assert (fed_by (actions (snd busy)) (quiet_env daq_timeout)) as Hfed
    by (intros m H; discriminate H).
  split; [exact Hsub|]. split; [exact Hfed|].
  destruct (subscribed_server_aborts_every_run mqtthost (quiet_env daq_timeout)
              (sample_request false 1) [run_msg false true] 1 start Hsub Hfed)
    as (before & Hrun & _).
  exists before. exact Hrun.
Defined.

End RendezvousWitnesses.

(** ** The manager and the worker side by side *)
Section ThreadFacts.
Import UtilityHandler Threads.
Variable estop_outcome : bool -> PyVal -> option Exc.
Variable task_outcome : string -> PyVal -> State -> option Exc * State.

(** The two steps of the worker make up its turn. *)
Lemma worker_split s :
  worker task_outcome s =
    match worker_take s with
    | None => None
    | Some (_, inl e) => Some (inl e)
    | Some (task, inr (cmd, s1)) => Some (worker_finish task_outcome task cmd s1)
    end.
Proof.
  unfold worker, worker_take, worker_finish.
  destruct (taskq s) as [|task rest]; [reflexivity|].
  destruct (getitem task "cmd") as [e|cmd]; reflexivity.
Qed.





(** X17. The emergency stop is served at once.  An emergency stop that
    names 'pcb_virt' and 'pcb' is carried out by the manager itself,
    whether or not a task is waiting or in work: the task queue and its
    counter are untouched, the stop is sent to the controller, and the
    manager reports the outcome, at info level when the controller
    answered and at warning level when it failed. *)
Theorem estop_bypasses_queue mqtt_msg d cmd virt pcb s :
  filter_cmd mqtt_msg = inr (PyDict d) ->
  dict_get d "cmd" = Some cmd -> eq_str cmd "estop" = true ->
  dict_get d "pcb_virt" = Some virt -> dict_get d "pcb" = Some pcb ->
  estop_outcome (eq_True virt) pcb <> Some KeyboardInterrupt ->
  exists s',
    manager estop_outcome mqtt_msg s = inr s' /\
    taskq s' = taskq s /\ unfinished_tasks s' = unfinished_tasks s /\
    effects s' = effects s ++ [EStop (eq_True virt) pcb] /\
    outputq s' = outputq s ++
      [LogOutput DEBUG [Lit "New command message!"];
       match estop_outcome (eq_True virt) pcb with
       | None =>
           LogOutput INFO
             [Lit "Emergency stop command issued. Re-Homing required before any further movements."]
       | Some _ => LogOutput WARNING [Lit "Unable to emergency stop."]
       end].
Proof.
  intros Hf Hc He Hv Hp Hk. unfold manager. rewrite Hf. simpl.
  rewrite Hc, He, Hv, Hp.
  destruct (estop_outcome (eq_True virt) pcb) as [[|cls text]|];
    [contradiction| |]; eexists; (split; [reflexivity|]); simpl;
    rewrite <- app_assoc; auto.
Qed.

(** A turn of the manager leaves the task queue alone, or finds no task
    unfinished and adds one. *)
Lemma manager_counts mqtt_msg s s' :
  manager estop_outcome mqtt_msg s = inr s' ->
  (taskq s' = taskq s /\ unfinished_tasks s' = unfinished_tasks s) \/
  (unfinished_tasks s = 0%nat /\ unfinished_tasks s' = 1%nat /\
   exists task, taskq s' = taskq s ++ [task]).
Proof.
  unfold manager.
  destruct (filter_cmd mqtt_msg) as [e|cmd_msg]; [discriminate|].
  destruct (getitem cmd_msg "cmd") as [e|cmd]; [discriminate|].
  destruct (eq_str cmd "estop").
  - destruct (getitem cmd_msg "pcb_virt") as [e|virt];
      [discriminate|].
    destruct (getitem cmd_msg "pcb") as [e|pcb].
    + intros [= <-]. left. split; reflexivity.
    + destruct (estop_outcome (eq_True virt) pcb) as [[|cls text]|];
        [discriminate| |]; intros [= <-]; left; split; reflexivity.
  - simpl. destruct (unfinished_tasks s) as [|n] eqn:Hn; simpl.
    + intros [= <-]. right. simpl. rewrite Hn. eauto.
    + intros [= <-]. left. simpl. auto.
Qed.

Lemma worker_finish_counts task cmd s s' :
  frames_queue task_outcome ->
  worker_finish task_outcome task cmd s = inr s' ->
  taskq s' = taskq s /\
  unfinished_tasks s' = Nat.pred (unfinished_tasks s).
Proof.
  intros Hframe. unfold worker_finish.
  assert (forall r : Exc + State,
             (forall s1, r = inr s1 ->
                taskq s1 = taskq s /\ unfinished_tasks s1 = unfinished_tasks s) ->
             match r with
             | inl e => inl e
             | inr s1 =>
                 if eq_str cmd "check_health" then
                   match task_outcome "check_health" task
                           (add_effect (RunTask "check_health" task) s1) with
                   | (None, s2) => inr (task_done s2)
                   | (Some e, _) => inl e
                   end
                 else inr (task_done s1)
             end = inr s' ->
             taskq s' = taskq s /\
             unfinished_tasks s' = Nat.pred (unfinished_tasks s)) as Hrest.
  { intros [e|s1] Hs1; [discriminate|]. destruct (Hs1 s1 eq_refl) as [Hq Hu].
    destruct (eq_str cmd "check_health").
    - pose proof (Hframe "check_health" task
                    (add_effect (RunTask "check_health" task) s1)) as [Fq Fu].
      destruct (task_outcome "check_health" task
                  (add_effect (RunTask "check_health" task) s1))
        as [[e|] s2]; [discriminate|].
      intros [= <-]. simpl in *. rewrite Fq, Fu, Hq, Hu. auto.
    - intros [= <-]. simpl. rewrite Hq, Hu. auto. }
  apply Hrest. intros s1.
  destruct (try_branch cmd) as [c|].
  - pose proof (Hframe c task (add_effect (RunTask c task) s)) as [Fq Fu].
    destruct (task_outcome c task (add_effect (RunTask c task) s))
      as [[[|cls text]|] s2]; [discriminate| |];
      intros [= <-]; simpl in *; auto.
  - intros [= <-]. auto.
Qed.

Lemma step_one_in_flight y y' :
  frames_queue task_outcome ->
  one_in_flight y -> step estop_outcome task_outcome y y' -> one_in_flight y'.
Proof.
  intros Hframe [Hcount Hone] Hstep. unfold one_in_flight.
  destruct Hstep as [y msg s' Hm | y task cmd s' Hcur Ht | y task cmd s' Hcur Hf];
    simpl.
  - apply manager_counts in Hm.
    destruct Hm as [[-> ->] | (Hz & -> & task & ->)]; [auto|].
    rewrite Hz in Hcount. rewrite length_app. simpl.
    destruct (current y); lia.
  - unfold worker_take in Ht.
    destruct (taskq (shared y)) as [|t rest] eqn:Hq; [discriminate|].
    destruct (getitem t "cmd") as [e|c]; [discriminate|].
    injection Ht as <- <- <-. simpl in *. rewrite Hcur in Hcount. lia.
  - apply (worker_finish_counts _ _ _ _ Hframe) in Hf. destruct Hf as [-> ->].
    rewrite Hcur in Hcount. lia.
Qed.

(** X18. One task at a time.  With the manager and the worker taking
    turns in any order from the idle state: the tasks put and not yet
    done are exactly the ones waiting in the queue and the one the worker
    is busy with, and there is never more than one of them, so a task
    never waits behind another one. *)
Theorem one_task_in_flight y :
  frames_queue task_outcome ->
  rtc (step estop_outcome task_outcome) idle y ->
  one_in_flight y.
Proof.
  intros Hframe Hr. revert y Hr. apply (rtc_ind_r one_in_flight).
  - split; simpl; lia.
  - intros mid y _ Hlast IH. eapply step_one_in_flight; eauto.
Qed.

(** X19. Commands that arrive during a task.  While the worker is busy
    with a task (and stays so during the manager's turn), whatever has
    happened before, the manager turns down every command other than the
    emergency stop: the command is not queued, and "Backend busy (task
    queue size = 1). Command rejected." is posted at warning level after
    the debug event. *)
Theorem command_rejected_while_working y job mqtt_msg d cmd :
  frames_queue task_outcome ->
  rtc (step estop_outcome task_outcome) idle y ->
  current y = Some job ->
  filter_cmd mqtt_msg = inr (PyDict d) ->
  dict_get d "cmd" = Some cmd ->
  eq_str cmd "estop" = false ->
  manager estop_outcome mqtt_msg (shared y) =
    inr (log_msg [Lit "Backend busy (task queue size = "; Fmt (PyInt 1);
                  Lit "). Command rejected."] WARNING
           (log_msg [Lit "New command message!"] DEBUG (shared y))).
Proof.
  intros Hframe Hr.
  assert (one_in_flight y) as [Hcount Hone].
  { revert y Hr. apply (rtc_ind_r one_in_flight).
    - split; simpl; lia.
    - intros mid y _ Hlast IH. eapply step_one_in_flight; eauto. }
  intros Hcur Hf Hc He. rewrite Hcur in Hcount.
  assert (unfinished_tasks (shared y) = 1%nat) as Hu by lia.
  rewrite (manager_not_estop estop_outcome mqtt_msg d cmd _ Hf Hc He).
  rewrite Hu. reflexivity.
Qed.

(** X21. A task that kills the worker.  When the task in work is one
    whose execution ends with an exception that leaves the worker's loop
    (a KeyboardInterrupt, or any exception of the health check), the
    worker never calls [task_done]: from then on, whatever messages
    arrive, that task stays the one unfinished task and the task queue
    stays empty, so nothing is queued any more. *)
Theorem failed_task_wedges_handler y y' task cmd :
  frames_queue task_outcome ->
  rtc (step estop_outcome task_outcome) idle y ->
  current y = Some (task, cmd) ->
  (forall s s', worker_finish task_outcome task cmd s <> inr s') ->
  rtc (step estop_outcome task_outcome) y y' ->
  current y' = Some (task, cmd) /\
  unfinished_tasks (shared y') = 1%nat /\
  taskq (shared y') = [].
Proof.
  intros Hframe Hr Hcur Hdead Hr'.
  assert (forall z, rtc (step estop_outcome task_outcome) idle z -> one_in_flight z)
    as Hinv.
  { apply (rtc_ind_r one_in_flight).
    - split; simpl; lia.
    - intros mid z _ Hlast IH. eapply step_one_in_flight; eauto. }
  assert (current y' = Some (task, cmd) /\
          rtc (step estop_outcome task_outcome) idle y') as [Hcur' Hreach].
  { revert y' Hr'.
    apply (rtc_ind_r (fun z => current z = Some (task, cmd) /\
                               rtc (step estop_outcome task_outcome) idle z)).
    - split; assumption.
    - intros mid z _ Hlast [Hc Hi]. split; [|eapply rtc_r; eassumption].
      destruct Hlast as [z msg s' Hm | z t c s' Hnone Ht | z t c s' Hsome Hf];
        simpl.
      + exact Hc.
      + congruence.
      + rewrite Hc in Hsome. injection Hsome as <- <-.
        exfalso. exact (Hdead _ _ Hf). }
  destruct (Hinv y' Hreach) as [Hcount Hone]. rewrite Hcur' in Hcount.
  split; [exact Hcur'|]. split; [lia|].
  destruct (taskq (shared y')); [reflexivity|simpl in Hcount; lia].
Qed.

End ThreadFacts.

Section ThreadWitnesses.
Import UtilityHandler Threads Samples ThreadCases.

Lemma no_task_fault_frames : frames_queue no_task_fault.
Proof. intros c task s. split; reflexivity. Qed.

Lemma health_fault_frames : frames_queue health_fault.
Proof. intros c task s. split; reflexivity. Qed.

Lemma working_reached task_outcome :
  rtc (step no_estop_fault task_outcome) idle working.
Proof.
  eapply rtc_l;
    [apply (manager_turn no_estop_fault task_outcome idle health_msg _ eq_refl)|].
  eapply rtc_l; [|apply rtc_refl].
  apply (worker_takes no_estop_fault task_outcome
           {| shared := put_task health_cmd
                          (log_msg [Lit "New command message!"] DEBUG initial);
              current := None |}
           health_cmd (PyStr "check_health") _ eq_refl eq_refl).
Defined.

Lemma estop_bypasses_queue_witness :
  exists s',
    manager no_estop_fault estop_msg (shared working) = inr s' /\
    taskq s' = taskq (shared working) /\
    unfinished_tasks s' = 1%nat /\
    effects s' = [EStop true (PyStr "10.42.0.54")].
Proof.
  destruct (estop_bypasses_queue no_estop_fault estop_msg
              [("cmd", PyStr "estop"); ("pcb_virt", PyBool true);
               ("pcb", PyStr "10.42.0.54")]
              (PyStr "estop") (PyBool true) (PyStr "10.42.0.54") (shared working)
              eq_refl eq_refl eq_refl eq_refl eq_refl
              ltac:(discriminate))
    as (s' & Hm & Hq & Hu & He & _).
  exists s'. auto.
Defined.

Lemma one_task_in_flight_witness :
  frames_queue no_task_fault /\
  rtc (step no_estop_fault no_task_fault) idle working /\
  one_in_flight working.
Proof.
  split; [exact no_task_fault_frames|].
  split; [exact (working_reached no_task_fault)|].
  apply (one_task_in_flight no_estop_fault no_task_fault working
           no_task_fault_frames (working_reached no_task_fault)).
Defined.

Lemma command_rejected_while_working_witness :
  manager no_estop_fault bogus_msg (shared working) =
    inr (log_msg [Lit "Backend busy (task queue size = "; Fmt (PyInt 1);
                  Lit "). Command rejected."] WARNING
           (log_msg [Lit "New command message!"] DEBUG (shared working))).
Proof.
  apply (command_rejected_while_working no_estop_fault no_task_fault working
           (health_cmd, PyStr "check_health") bogus_msg
           [("cmd", PyStr "bogus")] (PyStr "bogus")
           no_task_fault_frames (working_reached no_task_fault)
           eq_refl eq_refl eq_refl eq_refl).
Defined.

Lemma failed_task_wedges_handler_witness :
  (forall s s',
      worker_finish health_fault health_cmd (PyStr "check_health") s <> inr s') /\
  forall s',
    manager no_estop_fault bogus_msg (shared working) = inr s' ->
    current {| shared := s'; current := current working |}
      = Some (health_cmd, PyStr "check_health") /\
    unfinished_tasks s' = 1%nat /\ taskq s' = [].
Proof.
  assert (forall s s',
             worker_finish health_fault health_cmd (PyStr "check_health") s
             <> inr s') as Hdead by (intros s s' H; discriminate H).
  split; [exact Hdead|]. intros s' Hm.
  apply (failed_task_wedges_handler no_estop_fault health_fault working
           {| shared := s'; current := current working |}
           health_cmd (PyStr "check_health")
           health_fault_frames (working_reached health_fault) eq_refl Hdead).
  apply rtc_once.
  apply (manager_turn no_estop_fault health_fault working bogus_msg s' Hm).
Defined.

End ThreadWitnesses.
